(** * Treasury Intelligence Platform: the analytics core of [backend/server.py]

    A shallow embedding of the request handlers of [server.py] that hold the
    numeric logic (FX rate lookup, data validation, liquidity positions, cash
    pooling, netting), and the properties of the specification proved or
    refuted on it.

    Modelling conventions.
    - A Python [float] is modelled by the rational it denotes ([Q]), and
      [round(x, 2)] is round-half-to-even on that value.  Where a float
      decides what a handler does (the partition and the threshold of the
      netting run, the average and the classification of a pool
      calculation, the ranking of the entities in the analytics summary) and
      in the efficiency of a pool, every operation on it is the binary64
      one: the exact result rounded to 53 significant bits, ties to even
      ([B64]).  Where a sum of balances only reaches the response through
      [round(x, 2)] (positions, pool totals, reports), it is the exact
      sum.  Infinities and NaN are not modelled: every stored number is
      finite.
    - The MongoDB store is explicit state: one list of documents per
      collection, in insertion order, together with a log of the operations
      issued against it.
    - Exceptions are values: a handler returns the final store and either its
      response or the exception that left it.
    - The clock, [uuid.uuid4] and [random.choice] are read from an
      environment record; the store counts how many draws were made. *)

From Stdlib Require Import ZArith QArith Qround Qabs Qminmax Qpower Lqa.
From Stdlib Require Import String List Lia.
From Stdlib Require Import Sorted Permutation.
From stdpp Require Import base decidable option list strings pretty gmap.
Import ListNotations.

Local Open Scope string_scope.
Local Open Scope Q_scope.

(** ** Numbers *)

Module Num.

(** [a < b] on floats, as a boolean. *)
Definition ltb (a b : Q) : bool :=
  match Qcompare a b with Lt => true | _ => false end.

(** [a == b] on floats, as a boolean. *)
Definition eqb (a b : Q) : bool := Qeq_bool a b.

(** Python's [min(a, b)]: the first argument unless the second is smaller. *)
Definition min (a b : Q) : Q := if ltb b a then b else a.

(** Python's [max(a, b)] on [int]: the first argument unless the second is
    larger. *)
Definition max_nat (a b : nat) : nat := if (a <? b)%nat then b else a.

(** Python's [abs]. *)
Definition abs (a : Q) : Q := Qabs a.

(** [sum(xs)]: left to right from [0]. *)
Definition sum (xs : list Q) : Q := fold_left Qplus xs 0.

(** Nearest integer, ties to the even one. *)
Definition round_half_even (q : Q) : Z :=
  let f := Qfloor q in
  match Qcompare (q - inject_Z f) (1 # 2) with
  | Lt => f
  | Gt => (f + 1)%Z
  | Eq => if Z.even f then f else (f + 1)%Z
  end.

(** [round(q, 2)]. *)
Definition round2 (q : Q) : Q := Qred (round_half_even (q * 100) # 100).

Definition of_nat (n : nat) : Q := inject_Z (Z.of_nat n).

End Num.

(** ** Binary64 arithmetic

    A finite [float] is a rational whose significand has at most 53 bits.  An
    operation on floats returns the exact result rounded to the nearest such
    number, ties to the even significand.  The exponent is not bounded: there
    is neither overflow to infinity nor gradual underflow, amounts of money
    being far from both ends of the range. *)

Module B64.

Definition pow2 (e : Z) : Q := Qpower 2 e.

(** The unit roundoff: 2 to the power -53. *)
Definition eps : Q := 1 # 9007199254740992.

(** The exponent [e] of the last place of [q <> 0]: the one for which
    [|q| / pow2 e] lies between [pow2 52] (included) and [pow2 53]. *)
Definition exponent (q : Q) : Z :=
  let e := (Z.log2 (Z.abs (Qnum q)) - Z.log2 (Z.pos (Qden q)) - 53)%Z in
  if Qle_bool (pow2 (e + 53)) (Qabs q) then (e + 1)%Z else e.

(** The float nearest to [q]; also the value of a decimal literal. *)
Definition round (q : Q) : Q :=
  if Qeq_bool q 0 then 0
  else
    let e := exponent q in
    Qred (inject_Z (Num.round_half_even (q / pow2 e)) * pow2 e).

Definition add (x y : Q) : Q := round (x + y).
Definition sub (x y : Q) : Q := round (x - y).
Definition mul (x y : Q) : Q := round (x * y).
Definition div (x y : Q) : Q := round (x / y).

(** [sum(xs)] on floats: left to right from [0], one rounding per addition
    (CPython up to 3.11; later versions carry a compensation term). *)
Definition sum (xs : list Q) : Q := fold_left add xs 0.

End B64.

(** ** Exceptions and outcomes *)

Inductive pyexn : Type :=
| ZeroDivisionError
| TypeError
| KeyError (key : string)
| InvalidOperation
| HTTPException (status_code : nat) (detail : string)
(** [raise HTTPException(status_code=500, detail=str(e))] in a handler's
    [except Exception as e] clause. *)
| HTTP500 (e : pyexn).

Inductive outcome (A : Type) : Type :=
| Returned (a : A)
| Raised (e : pyexn).
Arguments Returned {A} a.
Arguments Raised {A} e.

(** [x / n] with [n] an [int]: raises on a zero divisor, and returns the
    binary64 quotient otherwise. *)
Definition float_div (x : Q) (n : nat) : outcome Q :=
  match n with
  | O => Raised ZeroDivisionError
  | S _ => Returned (B64.div x (Num.of_nat n))
  end.

(** ** JSON-like values: what a handler returns *)

#[warnings="-register-all"]
Inductive value : Type :=
| VNone
| VInt (z : Z)
| VNum (q : Q)
| VStr (s : string)
| VList (l : list value)
| VDict (d : list (string * value)).

(** [d.get(k)] on a response. *)
Fixpoint dict_get (k : string) (d : list (string * value)) : option value :=
  match d with
  | [] => None
  | (k', v) :: d' => if String.eqb k k' then Some v else dict_get k d'
  end.

(** ** Insertion-ordered dictionaries with string keys

    [by_entity[k] = by_entity.get(k, 0) + x] keeps the position of a key
    that is already present and appends a new key at the end; the netting
    run depends on that order. *)

Module ODict.

Definition t := list (string * Q).

Fixpoint get (k : string) (d : t) : option Q :=
  match d with
  | [] => None
  | (k', v) :: d' => if String.eqb k k' then Some v else get k d'
  end.

Definition get_default (k : string) (dflt : Q) (d : t) : Q :=
  match get k d with Some v => v | None => dflt end.

Fixpoint set (k : string) (v : Q) (d : t) : t :=
  match d with
  | [] => [(k, v)]
  | (k', v') :: d' =>
      if String.eqb k k' then (k', v) :: d' else (k', v') :: set k v d'
  end.

(** [d[k] = d.get(k, 0) + x] *)
Definition add (k : string) (x : Q) (d : t) : t :=
  set k (get_default k 0 d + x) d.

(** The same statement with the binary64 addition. *)
Definition fadd (k : string) (x : Q) (d : t) : t :=
  set k (B64.add (get_default k 0 d) x) d.

Definition values (d : t) : list Q := map snd d.

(** [{k: round(v, 2) for k, v in d.items()}] as a response value. *)
Definition rounded (d : t) : value :=
  VDict (map (fun kv => (fst kv, VNum (Num.round2 (snd kv)))) d).

End ODict.

(** ** Data model: the documents of the store *)

(** A dictionary entry read defensively: the key may be absent, or present
    with [None], or present with a number. *)
Inductive field (A : Type) : Type :=
| Missing
| Null
| Present (a : A).
Arguments Missing {A}.
Arguments Null {A}.
Arguments Present {A} a.

(** [b.get(k)]: [None] when the key is absent or holds [None]. *)
Definition field_get {A} (f : field A) : option A :=
  match f with Present a => Some a | _ => None end.

(** [b.get(k, dflt)]: the default only replaces an absent key. *)
Definition field_get_default {A} (f : field A) (dflt : A) : option A :=
  match f with Missing => Some dflt | Null => None | Present a => Some a end.

(** [b[k]]: raises on an absent key. *)
Definition field_index {A} (k : string) (f : field A) : outcome (option A) :=
  match f with
  | Missing => Raised (KeyError k)
  | Null => Returned None
  | Present a => Returned (Some a)
  end.

(** Balances are finite numbers.  (An uploaded row with an empty balance
    cell is stored with NaN in both balance fields; such records are outside
    this model.) *)
Record CashBalance : Type := {
  cb_id : string;
  account_number : string;
  balance_date : string;
  currency : string;
  balance_local : field Q;
  balance_usd : Q;
  entity_code : string;
  region : string
}.

Record FXRate : Type := {
  fx_id : string;
  currency_pair : string;
  rate : Q;
  rate_date : string
}.

Record CashPool : Type := {
  pool_id : string;
  pool_name : string;
  pool_type : string;
  pool_region : string;
  header_account : string;
  participant_accounts : list string;
  pool_currency : string
}.

Record ValidationLog : Type := {
  vl_id : string;
  check_date : string;
  check_type : string;
  severity : string;
  description : string;
  affected_records : nat;
  vl_status : string
}.

(** The dictionaries of [netting_results] in [run_netting], before they are
    turned into [NettingResult] objects. *)
Record NettingTx : Type := {
  netting_date : string;
  from_entity : string;
  to_entity : string;
  amount : Q;
  nt_currency : string;
  nt_status : string
}.

Record NettingResult : Type := {
  nr_id : string;
  nr_tx : NettingTx
}.

(** ** The store, the environment and the handler monad *)

Inductive collection : Type :=
| cash_balances | cash_pools | fx_rates | netting_results | validation_logs.

Inductive db_op : Type :=
| OpDeleteMany (c : collection)
| OpFind (c : collection)
| OpFindOne (c : collection)
| OpInsertMany (c : collection) (n : nat).

Record Env : Type := {
  (** [datetime.now(timezone.utc).isoformat()] *)
  now_iso : string;
  (** [datetime.now(timezone.utc).date().isoformat()] *)
  today_iso : string;
  (** the [n]-th [uuid.uuid4()] of the process, as a string *)
  uuid4 : nat -> string;
  (** the [n]-th number drawn by [random.choice], reduced modulo the length
      of its list *)
  rand_index : nat -> nat
}.

Record World : Type := {
  db_cash_balances : list CashBalance;
  db_cash_pools : list CashPool;
  db_fx_rates : list FXRate;
  db_netting_results : list NettingResult;
  db_validation_logs : list ValidationLog;
  uuid_calls : nat;
  rand_calls : nat;
  (** operations issued so far, oldest first *)
  oplog : list db_op
}.

Definition M (A : Type) : Type := World -> World * outcome A.

Definition ret {A} (a : A) : M A := fun w => (w, Returned a).

Definition raise {A} (e : pyexn) : M A := fun w => (w, Raised e).

(** Sequencing: an exception skips the rest and keeps the store as it is at
    that point (nothing is rolled back). *)
Definition bind {A B} (f : A -> M B) (m : M A) : M B :=
  fun w =>
    match m w with
    | (w', Returned a) => f a w'
    | (w', Raised e) => (w', Raised e)
    end.

#[global] Instance M_ret : MRet M := @ret.
#[global] Instance M_bind : MBind M := @bind.

(** Lift a pure computation that may raise. *)
Definition lift {A} (o : outcome A) : M A := fun w => (w, o).

(** [try: body except Exception as e: raise HTTPException(500, str(e))].
    [HTTPException] is itself an [Exception], so one raised in the body is
    wrapped as well. *)
Definition try_500 {A} (body : M A) : M A :=
  fun w =>
    match body w with
    | (w', Returned a) => (w', Returned a)
    | (w', Raised e) => (w', Raised (HTTP500 e))
    end.

(** A loop that threads a local accumulator through the monad. *)
Fixpoint foldM {A B} (f : B -> A -> M B) (acc : B) (l : list A) : M B :=
  match l with
  | [] => ret acc
  | x :: l' => acc' ← f acc x; foldM f acc' l'
  end.

Definition log_op (o : db_op) (w : World) : World :=
  {| db_cash_balances := db_cash_balances w;
     db_cash_pools := db_cash_pools w;
     db_fx_rates := db_fx_rates w;
     db_netting_results := db_netting_results w;
     db_validation_logs := db_validation_logs w;
     uuid_calls := uuid_calls w;
     rand_calls := rand_calls w;
     oplog := oplog w ++ [o] |}.

(** Pure code that may raise runs in [outcome]. *)
#[global] Instance outcome_ret : MRet outcome := @Returned.
#[global] Instance outcome_bind : MBind outcome :=
  fun A B f o => match o with Returned a => f a | Raised e => Raised e end.

Fixpoint fold_outcome {A B} (f : B -> A -> outcome B) (acc : B) (l : list A)
  : outcome B :=
  match l with
  | [] => Returned acc
  | x :: l' => acc' ← f acc x; fold_outcome f acc' l'
  end.

(** [sum(1 for x in l if cond(x))], where evaluating [cond] may raise. *)
Definition count_if {A} (cond : A -> outcome bool) (l : list A) : outcome nat :=
  fold_outcome
    (fun acc x => c ← cond x; Returned (if c : bool then S acc else acc))
    O l.

Definition with_netting_results (l : list NettingResult) (w : World) : World :=
  {| db_cash_balances := db_cash_balances w;
     db_cash_pools := db_cash_pools w;
     db_fx_rates := db_fx_rates w;
     db_netting_results := l;
     db_validation_logs := db_validation_logs w;
     uuid_calls := uuid_calls w;
     rand_calls := rand_calls w;
     oplog := oplog w |}.

Definition with_validation_logs (l : list ValidationLog) (w : World) : World :=
  {| db_cash_balances := db_cash_balances w;
     db_cash_pools := db_cash_pools w;
     db_fx_rates := db_fx_rates w;
     db_netting_results := db_netting_results w;
     db_validation_logs := l;
     uuid_calls := uuid_calls w;
     rand_calls := rand_calls w;
     oplog := oplog w |}.

Definition with_uuid_calls (n : nat) (w : World) : World :=
  {| db_cash_balances := db_cash_balances w;
     db_cash_pools := db_cash_pools w;
     db_fx_rates := db_fx_rates w;
     db_netting_results := db_netting_results w;
     db_validation_logs := db_validation_logs w;
     uuid_calls := n;
     rand_calls := rand_calls w;
     oplog := oplog w |}.

Definition with_rand_calls (n : nat) (w : World) : World :=
  {| db_cash_balances := db_cash_balances w;
     db_cash_pools := db_cash_pools w;
     db_fx_rates := db_fx_rates w;
     db_netting_results := db_netting_results w;
     db_validation_logs := db_validation_logs w;
     uuid_calls := uuid_calls w;
     rand_calls := n;
     oplog := oplog w |}.

(** *** Store operations (the motor calls of the handlers) *)

Module Db.

(** [db.cash_balances.find(query, {"_id": 0}).to_list(limit)] *)
Definition find_cash_balances (query : CashBalance -> bool) (limit : nat)
  : M (list CashBalance) :=
  fun w =>
    (log_op (OpFind cash_balances) w,
     Returned (firstn limit (List.filter query (db_cash_balances w)))).

(** [db.cash_pools.find({}, {"_id": 0}).to_list(limit)] *)
Definition find_cash_pools (limit : nat) : M (list CashPool) :=
  fun w =>
    (log_op (OpFind cash_pools) w, Returned (firstn limit (db_cash_pools w))).

(** [db.cash_pools.find_one(query, {"_id": 0})] *)
Definition find_one_cash_pools (query : CashPool -> bool) : M (option CashPool) :=
  fun w =>
    (log_op (OpFindOne cash_pools) w, Returned (List.find query (db_cash_pools w))).

(** [db.fx_rates.find_one(query, {"_id": 0})] *)
Definition find_one_fx_rates (query : FXRate -> bool) : M (option FXRate) :=
  fun w =>
    (log_op (OpFindOne fx_rates) w, Returned (List.find query (db_fx_rates w))).

(** [db.netting_results.delete_many({})] *)
Definition delete_many_netting_results : M unit :=
  fun w =>
    (log_op (OpDeleteMany netting_results) (with_netting_results [] w),
     Returned tt).

(** [db.validation_logs.delete_many({})] *)
Definition delete_many_validation_logs : M unit :=
  fun w =>
    (log_op (OpDeleteMany validation_logs) (with_validation_logs [] w),
     Returned tt).

(** [db.netting_results.insert_many(docs)]; pymongo refuses an empty list. *)
Definition insert_many_netting_results (docs : list NettingResult) : M unit :=
  fun w =>
    match docs with
    | [] => (w, Raised InvalidOperation)
    | _ =>
        (log_op (OpInsertMany netting_results (length docs))
           (with_netting_results (db_netting_results w ++ docs) w),
         Returned tt)
    end.

(** [db.validation_logs.insert_many(docs)] *)
Definition insert_many_validation_logs (docs : list ValidationLog) : M unit :=
  fun w =>
    match docs with
    | [] => (w, Raised InvalidOperation)
    | _ =>
        (log_op (OpInsertMany validation_logs (length docs))
           (with_validation_logs (db_validation_logs w ++ docs) w),
         Returned tt)
    end.

End Db.

(** [.to_list(10000)] and [.to_list(1000)] *)
Definition limit_10000 : nat := N.to_nat 10000.
Definition limit_1000 : nat := N.to_nat 1000.

(** ** The handlers of [server.py] *)

Section Handlers.

Variable env : Env.

(** [str(uuid.uuid4())] *)
Definition fresh_uuid : M string :=
  fun w => (with_uuid_calls (S (uuid_calls w)) w, Returned (uuid4 env (uuid_calls w))).

(** [random.choice(l)] for a non-empty [l]. *)
Definition random_choice (l : list string) : M string :=
  fun w =>
    (with_rand_calls (S (rand_calls w)) w,
     Returned (nth (rand_index env (rand_calls w) `mod` length l)%nat l "")).

(** *** Utility functions *)

Definition default_rates : ODict.t :=
  [ ("EUR/USD", 110 # 100);
    ("GBP/USD", 127 # 100);
    ("SGD/USD", 74 # 100);
    ("JPY/USD", 67 # 10000);
    ("CNY/USD", 14 # 100);
    ("INR/USD", 12 # 1000);
    ("AUD/USD", 66 # 100) ].

Definition get_fx_rate (from_currency to_currency : string) : M Q :=
  if String.eqb from_currency to_currency then mret 1
  else
    let pair := from_currency +:+ "/" +:+ to_currency in
    rate_doc ← Db.find_one_fx_rates (fun d => String.eqb (currency_pair d) pair);
    match rate_doc with
    | Some d => mret (rate d)
    | None => mret (ODict.get_default pair 1 default_rates)
    end.

(** The conversion of the call sites of [get_fx_rate]
    ([fx_rate = await get_fx_rate(currency, 'USD')] followed by
    [balance_local * fx_rate]), for any target currency. *)
Definition convert (amount : Q) (from_currency to_currency : string) : M Q :=
  fx_rate ← get_fx_rate from_currency to_currency;
  mret (amount * fx_rate).

(** [ValidationLog(...)]: the [id] field comes from its default factory. *)
Definition new_ValidationLog (date type sev descr : string) (n : nat)
  (status : string) : M ValidationLog :=
  id ← fresh_uuid;
  mret {| vl_id := id; check_date := date; check_type := type;
          severity := sev; description := descr; affected_records := n;
          vl_status := status |}.

(** [b.get('balance_local') is None or b.get('balance_local') == 0] *)
Definition is_missing (b : CashBalance) : outcome bool :=
  Returned match field_get (balance_local b) with
           | None => true
           | Some x => Num.eqb x 0
           end.

(** [b.get('balance_local', 0) < 0]: comparing [None] with [0] raises. *)
Definition is_negative (b : CashBalance) : outcome bool :=
  match field_get_default (balance_local b) 0 with
  | None => Raised TypeError
  | Some x => Returned (Num.ltb x 0)
  end.

Definition account_dates (balances : list CashBalance) : list (string * string) :=
  map (fun b => (account_number b, balance_date b)) balances.

(** [len(account_dates) - len(set(account_dates))] *)
Definition duplicate_count (balances : list CashBalance) : nat :=
  (length (account_dates balances)
   - size (list_to_set (account_dates balances) : gset (string * string)))%nat.

(** The three checks of [validate_data], in the order of the source; each
    appends at most one log to [logs]. *)

(** [# Check for missing balances] *)
Definition check_missing (today : string) (balances : list CashBalance)
  (logs : list ValidationLog) : M (list ValidationLog) :=
  missing_count ← lift (count_if is_missing balances);
  if (0 <? missing_count)%nat then
    l ← new_ValidationLog today "missing_balance" "High"
          ("Found " +:+ pretty missing_count
             +:+ " accounts with missing or zero balances")
          missing_count "Open";
    mret (logs ++ [l])%list
  else mret logs.

(** [# Check for negative cash] *)
Definition check_negative (today : string) (balances : list CashBalance)
  (logs : list ValidationLog) : M (list ValidationLog) :=
  negative_count ← lift (count_if is_negative balances);
  if (0 <? negative_count)%nat then
    l ← new_ValidationLog today "negative_cash" "Medium"
          ("Found " +:+ pretty negative_count
             +:+ " accounts with negative balances")
          negative_count "Open";
    mret (logs ++ [l])%list
  else mret logs.

(** [# Check for duplicates] *)
Definition check_duplicates (today : string) (balances : list CashBalance)
  (logs : list ValidationLog) : M (list ValidationLog) :=
  let duplicates := duplicate_count balances in
  if (0 <? duplicates)%nat then
    l ← new_ValidationLog today "duplicate" "High"
          ("Found " +:+ pretty duplicates
             +:+ " duplicate account-date combinations")
          duplicates "Open";
    mret (logs ++ [l])%list
  else mret logs.

Definition validate_data (balances : list CashBalance) : M (list ValidationLog) :=
  let logs : list ValidationLog := [] in
  let today := now_iso env in
  logs ← check_missing today balances logs;
  logs ← check_negative today balances logs;
  logs ← check_duplicates today balances logs;
  mret logs.

(** *** Liquidity management *)

(** [balance['balance_local']] used as a summand: an absent key raises
    [KeyError], a [None] raises [TypeError] in the addition. *)
Definition local_summand (b : CashBalance) : outcome Q :=
  v ← field_index "balance_local" (balance_local b);
  match v with
  | None => Raised TypeError
  | Some x => Returned x
  end.

(** [for balance in balances: d[key(balance)] = d.get(key(balance), 0)
    + balance['balance_usd']] *)
Definition group_usd (key : CashBalance -> string) (balances : list CashBalance)
  : ODict.t :=
  fold_left (fun d b => ODict.add (key b) (balance_usd b) d) balances [].

(** The same loop over [balance['balance_local']]. *)
Definition group_local (balances : list CashBalance) : outcome ODict.t :=
  fold_outcome
    (fun d b => x ← local_summand b; Returned (ODict.add (currency b) x d))
    [] balances.

Definition get_global_position : M value :=
  try_500 (
    balances ← Db.find_cash_balances (fun _ => true) limit_10000;
    match balances with
    | [] =>
        mret (VDict [ ("total_liquidity_usd", VInt 0);
                      ("by_region", VDict []);
                      ("by_currency", VDict []);
                      ("total_accounts", VInt 0) ])
    | first :: _ =>
        let total_usd := Num.sum (map balance_usd balances) in
        let by_region := group_usd region balances in
        by_currency ← lift (group_local balances);
        mret (VDict [ ("total_liquidity_usd", VNum (Num.round2 total_usd));
                      ("by_region", ODict.rounded by_region);
                      ("by_currency", ODict.rounded by_currency);
                      ("total_accounts", VInt (Z.of_nat (length balances)));
                      ("as_of_date", VStr (balance_date first)) ])
    end).

Definition get_regional_liquidity (rgn : string) : M value :=
  try_500 (
    balances ← Db.find_cash_balances (fun b => String.eqb (region b) rgn)
                 limit_10000;
    match balances with
    | [] =>
        mret (VDict [ ("region", VStr rgn);
                      ("total_usd", VInt 0);
                      ("entities", VList []);
                      ("currencies", VDict []) ])
    | _ :: _ =>
        let by_entity := group_usd entity_code balances in
        by_currency ← lift (group_local balances);
        mret (VDict [ ("region", VStr rgn);
                      ("total_usd",
                       VNum (Num.round2 (Num.sum (map balance_usd balances))));
                      ("entities", ODict.rounded by_entity);
                      ("currencies", ODict.rounded by_currency);
                      ("account_count", VInt (Z.of_nat (length balances))) ])
    end).

(** *** Cash pooling *)

(** The query [{"account_number": {"$in": pool['participant_accounts']}}] *)
Definition in_pool (pool : CashPool) (b : CashBalance) : bool :=
  existsb (String.eqb (account_number b)) (participant_accounts pool).

(** One iteration of the loop of [get_cash_pool_status]. *)
Definition pool_status_entry (pool : CashPool) : M value :=
  balances ← Db.find_cash_balances (in_pool pool) limit_1000;
  let total_balance := Num.sum (map balance_usd balances) in
  let participant_count := length balances in
  ratio ← lift (float_div (Num.of_nat participant_count)
                  (Num.max_nat 1 (length (participant_accounts pool))));
  let efficiency := Num.min 100 (B64.mul ratio 100) in
  mret (VDict [ ("pool_name", VStr (pool_name pool));
                ("pool_type", VStr (pool_type pool));
                ("region", VStr (pool_region pool));
                ("total_balance_usd", VNum (Num.round2 total_balance));
                ("participants", VInt (Z.of_nat participant_count));
                ("efficiency", VNum (Num.round2 efficiency));
                ("status",
                 VStr (if (0 <? participant_count)%nat
                       then "Active" else "Inactive")) ]).

Definition get_cash_pool_status : M value :=
  try_500 (
    pools ← Db.find_cash_pools limit_1000;
    pool_status ← foldM (fun acc pool =>
                           entry ← pool_status_entry pool;
                           mret (acc ++ [entry])%list) [] pools;
    mret (VDict [ ("pools", VList pool_status);
                  ("total_pools", VInt (Z.of_nat (length pools))) ])).

(** One element of [participants] in [calculate_cash_pooling]. *)
Definition participant_entry (average_balance : Q) (balance : CashBalance)
  : value :=
  let variance := B64.sub (balance_usd balance) average_balance in
  VDict [ ("account", VStr (account_number balance));
          ("entity", VStr (entity_code balance));
          ("balance_usd", VNum (balance_usd balance));
          ("variance_from_avg", VNum (Num.round2 variance));
          ("status", VStr (if Num.ltb 0 variance then "Surplus" else "Deficit")) ].

Definition calculate_cash_pooling (rgn : string) : M value :=
  try_500 (
    pool ← Db.find_one_cash_pools (fun p => String.eqb (pool_region p) rgn);
    match pool with
    | None => raise (HTTPException 404 ("No pool found for region " +:+ rgn))
    | Some pool =>
        balances ← Db.find_cash_balances (in_pool pool) limit_1000;
        match balances with
        | [] =>
            mret (VDict [ ("pool_name", VStr (pool_name pool));
                          ("total_pooled", VInt 0);
                          ("participants", VList []) ])
        | _ :: _ =>
            let total_pooled := B64.sum (map balance_usd balances) in
            average_balance ← lift (float_div total_pooled (length balances));
            let participants := map (participant_entry average_balance) balances in
            mret (VDict [ ("pool_name", VStr (pool_name pool));
                          ("pool_type", VStr (pool_type pool));
                          ("total_pooled_usd", VNum (Num.round2 total_pooled));
                          ("average_balance", VNum (Num.round2 average_balance));
                          ("participants", VList participants);
                          ("calculation_date", VStr (now_iso env)) ])
        end
    end).

(** *** Netting *)

(** A [NettingResult] object built from the dictionary [n]: the [id] field
    comes from its default factory. *)
Definition new_NettingResult (n : NettingTx) : M NettingResult :=
  id ← fresh_uuid;
  mret {| nr_id := id; nr_tx := n |}.

(** [netting_objs]: one [NettingResult] per element of [netting_results],
    built left to right. *)
Fixpoint new_NettingResults (l : list NettingTx) : M (list NettingResult) :=
  match l with
  | [] => mret []
  | n :: l' =>
      o ← new_NettingResult n;
      os ← new_NettingResults l';
      mret (o :: os)
  end.

(** [for balance in balances: entity_balances[entity] =
    entity_balances.get(entity, 0) + balance['balance_usd']] *)
Definition entity_balances (balances : list CashBalance) : ODict.t :=
  fold_left (fun d b => ODict.fadd (entity_code b) (balance_usd b) d) balances [].

(** [min(abs(deficit_amount - avg_balance), surplus_amount - avg_balance) * 0.3] *)
Definition netting_amount (avg_balance deficit_amount surplus_amount : Q) : Q :=
  B64.mul
    (Num.min (Num.abs (B64.sub deficit_amount avg_balance))
       (B64.sub surplus_amount avg_balance))
    (B64.round (3 # 10)).

Definition tx_value (n : NettingTx) : value :=
  VDict [ ("netting_date", VStr (netting_date n));
          ("from_entity", VStr (from_entity n));
          ("to_entity", VStr (to_entity n));
          ("amount", VNum (amount n));
          ("currency", VStr (nt_currency n));
          ("status", VStr (nt_status n)) ].

(** The body of the inner loop of [run_netting]. *)
Definition netting_pair (today : string) (avg_balance : Q)
  (deficit surplus : string * Q) (results : list NettingTx)
  : M (list NettingTx) :=
  let amt := netting_amount avg_balance (snd deficit) (snd surplus) in
  if Num.ltb 100000 amt then
    status ← random_choice ["Settled"; "Pending"; "Settled"; "Settled"];
    mret (results ++ [ {| netting_date := today;
                          from_entity := fst surplus;
                          to_entity := fst deficit;
                          amount := Num.round2 amt;
                          nt_currency := "USD";
                          nt_status := status |} ])%list
  else mret results.

(** The two nested loops of [run_netting]. *)
Definition netting_loops (today : string) (avg_balance : Q)
  (deficit_entities surplus_entities : ODict.t) : M (list NettingTx) :=
  foldM (fun results deficit =>
           foldM (fun results surplus =>
                    netting_pair today avg_balance deficit surplus results)
             results (firstn 2 surplus_entities))
    [] (firstn 3 deficit_entities).

Definition run_netting : M value :=
  try_500 (
    Db.delete_many_netting_results;;
    balances ← Db.find_cash_balances (fun _ => true) limit_10000;
    let totals := entity_balances balances in
    avg_balance ← lift (float_div (B64.sum (ODict.values totals))
                          (length totals));
    let surplus_entities :=
      List.filter (fun kv => Num.ltb avg_balance (snd kv)) totals in
    let deficit_entities :=
      List.filter (fun kv => Num.ltb (snd kv) avg_balance) totals in
    let today := today_iso env in
    results ← netting_loops today avg_balance deficit_entities surplus_entities;
    match results with
    | [] => mret tt
    | _ :: _ =>
        netting_objs ← new_NettingResults results;
        Db.insert_many_netting_results netting_objs
    end;;
    mret (VDict [ ("status", VStr "success");
                  ("netting_date", VStr today);
                  ("total_transactions", VInt (Z.of_nat (length results)));
                  ("total_netted_usd",
                   VNum (Num.round2 (Num.sum (map amount results))));
                  ("transactions", VList (map tx_value results)) ])).

(** *** Data validation *)

Definition log_value (v : ValidationLog) : value :=
  VDict [ ("id", VStr (vl_id v));
          ("check_date", VStr (check_date v));
          ("check_type", VStr (check_type v));
          ("severity", VStr (severity v));
          ("description", VStr (description v));
          ("affected_records", VInt (Z.of_nat (affected_records v)));
          ("status", VStr (vl_status v)) ].

Definition run_validation : M value :=
  try_500 (
    balances ← Db.find_cash_balances (fun _ => true) limit_10000;
    match balances with
    | [] =>
        mret (VDict [ ("status", VStr "success");
                      ("issues_found", VInt 0);
                      ("validations", VList []) ])
    | _ :: _ =>
        validation_logs ← validate_data balances;
        Db.delete_many_validation_logs;;
        match validation_logs with
        | [] => mret tt
        | _ :: _ => Db.insert_many_validation_logs validation_logs
        end;;
        mret (VDict [ ("status", VStr "success");
                      ("issues_found",
                       VInt (Z.of_nat (length validation_logs)));
                      ("validations", VList (map log_value validation_logs));
                      ("check_date", VStr (now_iso env)) ])
    end).

End Handlers.

(** ** The reporting handlers of [server.py] *)

(** Dictionaries of counters: [d[k] = d.get(k, 0) + 1], keys in insertion
    order. *)
Module Counter.

Definition t := list (string * nat).

Fixpoint get (k : string) (d : t) : option nat :=
  match d with
  | [] => None
  | (k', n) :: d' => if String.eqb k k' then Some n else get k d'
  end.

Fixpoint set (k : string) (n : nat) (d : t) : t :=
  match d with
  | [] => [(k, n)]
  | (k', n') :: d' =>
      if String.eqb k k' then (k', n) :: d' else (k', n') :: set k n d'
  end.

(** [d[k] = d.get(k, 0) + 1] *)
Definition incr (k : string) (d : t) : t :=
  set k (match get k d with Some n => n | None => O end + 1)%nat d.

(** [for x in xs: d[key(x)] = d.get(key(x), 0) + 1] from an empty [d]. *)
Definition count_by {A} (key : A -> string) (xs : list A) : t :=
  fold_left (fun d x => incr (key x) d) xs [].

Definition to_value (d : t) : value :=
  VDict (map (fun kn => (fst kn, VInt (Z.of_nat (snd kn)))) d).

End Counter.

(** [db.netting_results.find({}, {"_id": 0}).to_list(limit)] *)
Definition find_netting_results (limit : nat) : M (list NettingResult) :=
  fun w =>
    (log_op (OpFind netting_results) w,
     Returned (firstn limit (db_netting_results w))).

(** [db.validation_logs.find({}, {"_id": 0}).to_list(limit)] *)
Definition find_validation_logs (limit : nat) : M (list ValidationLog) :=
  fun w =>
    (log_op (OpFind validation_logs) w,
     Returned (firstn limit (db_validation_logs w))).

(** A stored netting result as it is returned: the fields of the
    [NettingResult] model, [id] first. *)
Definition result_value (r : NettingResult) : value :=
  VDict [ ("id", VStr (nr_id r));
          ("netting_date", VStr (netting_date (nr_tx r)));
          ("from_entity", VStr (from_entity (nr_tx r)));
          ("to_entity", VStr (to_entity (nr_tx r)));
          ("amount", VNum (amount (nr_tx r)));
          ("currency", VStr (nt_currency (nr_tx r)));
          ("status", VStr (nt_status (nr_tx r))) ].

Definition get_netting_results : M value :=
  try_500 (
    results ← find_netting_results limit_1000;
    match results with
    | [] =>
        mret (VDict [ ("total_transactions", VInt 0);
                      ("total_netted", VInt 0);
                      ("by_status", VDict []);
                      ("transactions", VList []) ])
    | _ :: _ =>
        let by_status := Counter.count_by (fun r => nt_status (nr_tx r)) results in
        mret (VDict [ ("total_transactions", VInt (Z.of_nat (length results)));
                      ("total_netted_usd",
                       VNum (Num.round2
                               (Num.sum (map (fun r => amount (nr_tx r)) results))));
                      ("by_status", Counter.to_value by_status);
                      ("transactions", VList (map result_value results)) ])
    end).

Definition get_validation_report : M value :=
  try_500 (
    logs ← find_validation_logs limit_1000;
    match logs with
    | [] =>
        mret (VDict [ ("total_issues", VInt 0);
                      ("by_severity", VDict []);
                      ("by_type", VDict []);
                      ("issues", VList []) ])
    | _ :: _ =>
        let by_severity := Counter.count_by severity logs in
        let by_type := Counter.count_by check_type logs in
        mret (VDict [ ("total_issues", VInt (Z.of_nat (length logs)));
                      ("by_severity", Counter.to_value by_severity);
                      ("by_type", Counter.to_value by_type);
                      ("issues", VList (map log_value logs)) ])
    end).

(** [sorted(items, key=lambda x: x[1], reverse=True)]: non-increasing in the
    value, items of equal value in their original order (Python's sort is
    stable, also with [reverse=True]). *)
Fixpoint insert_desc (x : string * Q) (l : list (string * Q)) : list (string * Q) :=
  match l with
  | [] => [x]
  | y :: l' => if Num.ltb (snd x) (snd y) then y :: insert_desc x l' else x :: y :: l'
  end.

Definition sorted_desc (l : list (string * Q)) : list (string * Q) :=
  fold_right insert_desc [] l.

(** [round(sum(xs), 2)]: the sum of an empty sequence is the [int] 0, which
    [round] leaves an [int]. *)
Definition round2_sum (xs : list Q) : value :=
  match xs with
  | [] => VInt 0
  | _ :: _ => VNum (Num.round2 (Num.sum xs))
  end.

Section Analytics.

Variable env : Env.

Definition get_analytics_summary : M value :=
  try_500 (
    balances ← Db.find_cash_balances (fun _ => true) limit_10000;
    pools ← Db.find_cash_pools limit_1000;
    netting ← find_netting_results limit_1000;
    validations ← find_validation_logs limit_1000;
    let total_liquidity := round2_sum (map balance_usd balances) in
    let regional_liquidity := group_usd region balances in
    let totals := entity_balances balances in
    let top_entities := firstn 5 (sorted_desc totals) in
    mret (VDict [ ("total_liquidity_usd", total_liquidity);
                  ("total_accounts", VInt (Z.of_nat (length balances)));
                  ("total_cash_pools", VInt (Z.of_nat (length pools)));
                  ("active_netting_transactions",
                   VInt (Z.of_nat (length netting)));
                  ("data_quality_issues", VInt (Z.of_nat (length validations)));
                  ("regional_breakdown", ODict.rounded regional_liquidity);
                  ("top_entities",
                   VList (map (fun e => VDict [ ("entity", VStr (fst e));
                                                ("balance_usd",
                                                 VNum (Num.round2 (snd e))) ])
                            top_entities));
                  ("as_of_date", VStr (today_iso env)) ])).

End Analytics.

(** The grouping loop of the handlers, for any key and any summand:
    [for x in xs: d[key(x)] = d.get(key(x), 0) + val(x)] from an empty [d].
    [group_usd key] is [grouped key balance_usd]. *)
Definition grouped {A} (key : A -> string) (val : A -> Q) (xs : list A) : ODict.t :=
  fold_left (fun d x => ODict.add (key x) (val x) d) xs [].


(** The balances [get_regional_liquidity] reads for a region. *)
Definition region_snapshot (w : World) (rgn : string) : list CashBalance :=
  firstn limit_10000
    (List.filter (fun b => String.eqb (region b) rgn) (db_cash_balances w)).

(** A record whose [balance_local] is a number. *)
Definition has_local (b : CashBalance) : Prop :=
  exists x, balance_local b = Present x.

(** The collections of the store, without the counters and the log. *)
Definition same_data (w w' : World) : Prop :=
  db_cash_balances w' = db_cash_balances w
  /\ db_cash_pools w' = db_cash_pools w
  /\ db_fx_rates w' = db_fx_rates w
  /\ db_netting_results w' = db_netting_results w
  /\ db_validation_logs w' = db_validation_logs w.

(** ** A small store to evaluate the handlers on *)

Module Sample.

Definition env : Env :=
  {| now_iso := "2024-05-01T09:00:00+00:00";
     today_iso := "2024-05-01";
     uuid4 := fun n => "uuid-" +:+ pretty n;
     rand_index := fun n => n |}.

Definition balance (acct date ccy : string) (loc : field Q) (usd : Q)
  (entity rgn : string) : CashBalance :=
  {| cb_id := "cb-" +:+ acct; account_number := acct; balance_date := date;
     currency := ccy; balance_local := loc; balance_usd := usd;
     entity_code := entity; region := rgn |}.

Definition world (bs : list CashBalance) (pools : list CashPool)
  (nr : list NettingResult) (vl : list ValidationLog) : World :=
  {| db_cash_balances := bs; db_cash_pools := pools; db_fx_rates := [];
     db_netting_results := nr; db_validation_logs := vl;
     uuid_calls := 0; rand_calls := 0; oplog := [] |}.

Definition old_tx : NettingResult :=
  {| nr_id := "old";
     nr_tx := {| netting_date := "2024-04-30"; from_entity := "E9";
                 to_entity := "E8"; amount := 250000; nt_currency := "USD";
                 nt_status := "Settled" |} |}.

Definition old_log : ValidationLog :=
  {| vl_id := "old"; check_date := "2024-04-30T09:00:00+00:00";
     check_type := "negative_cash"; severity := "Medium";
     description := "Found 1 accounts with negative balances";
     affected_records := 1; vl_status := "Open" |}.

End Sample.

(** Everything but the stored netting results. *)
Definition same_but_netting (w w' : World) : Prop :=
  db_cash_balances w' = db_cash_balances w
  /\ db_cash_pools w' = db_cash_pools w
  /\ db_fx_rates w' = db_fx_rates w
  /\ db_validation_logs w' = db_validation_logs w.

(** Everything but the stored validation logs. *)
Definition same_but_validation (w w' : World) : Prop :=
  db_cash_balances w' = db_cash_balances w
  /\ db_cash_pools w' = db_cash_pools w
  /\ db_fx_rates w' = db_fx_rates w
  /\ db_netting_results w' = db_netting_results w.

(** A computation that relates every store it starts from to the store it
    ends in, whether it returns or raises. *)
Definition keeps (R : World -> World -> Prop) {A} (m : M A) : Prop :=
  forall w, R w (fst (m w)).

(** What every transaction of a run carries, whatever the balances. *)
Definition tx_well_formed (today : string) (t : NettingTx) : Prop :=
  netting_date t = today
  /\ nt_currency t = "USD"
  /\ (nt_status t = "Settled" \/ nt_status t = "Pending").

(** Reading a counter dictionary: the count of a key (0 when absent) and the
    sum of all counts. *)
Definition counter_of (k : string) (d : Counter.t) : nat :=
  match Counter.get k d with Some n => n | None => O end.

Definition counter_total (d : Counter.t) : nat :=
  fold_right (fun kn n => (snd kn + n)%nat) O d.

(** The stored netting results a report reads. *)
Definition stored_results (w : World) : list NettingResult :=
  firstn limit_1000 (db_netting_results w).

(** The stored validation logs a report reads. *)
Definition stored_logs (w : World) : list ValidationLog :=
  firstn limit_1000 (db_validation_logs w).

(** ** More stores to evaluate the handlers on *)

Module Cases.

Import Sample.

(** Three balances in two regions and two currencies. *)
Definition two_regions : World :=
  world [ balance "ACC-1" "2024-05-01" "USD" (Present 100) 100 "E1" "AMER";
          balance "ACC-2" "2024-05-01" "EUR" (Present 200) 220 "E2" "EMEA";
          balance "ACC-3" "2024-05-01" "USD" (Present 50) 50 "E1" "AMER" ]
    [] [] [].

(** The same store with one more record whose [balance_local] is [None]. *)
Definition with_null : World :=
  world [ balance "ACC-1" "2024-05-01" "USD" (Present 100) 100 "E1" "AMER";
          balance "ACC-4" "2024-05-01" "USD" Null 0 "E1" "AMER" ]
    [] [] [old_log].

(** Stored netting results of an earlier run: two Settled, one Pending. *)
Definition stored_tx (id from to : string) (amt : Q) (status : string)
  : NettingResult :=
  {| nr_id := id;
     nr_tx := {| netting_date := "2024-04-30"; from_entity := from;
                 to_entity := to; amount := amt; nt_currency := "USD";
                 nt_status := status |} |}.

Definition three_results : World :=
  world [] []
    [ stored_tx "r1" "E2" "E1" 150000 "Settled";
      stored_tx "r2" "E3" "E1" 120000 "Pending";
      stored_tx "r3" "E2" "E4" 200000 "Settled" ]
    [].

(** Six entities, to see the five largest. *)
Definition six_entities : World :=
  world [ balance "ACC-1" "2024-05-01" "USD" (Present 30) 30 "E1" "AMER";
          balance "ACC-2" "2024-05-01" "USD" (Present 10) 10 "E2" "AMER";
          balance "ACC-3" "2024-05-01" "USD" (Present 60) 60 "E3" "AMER";
          balance "ACC-4" "2024-05-01" "USD" (Present 20) 20 "E4" "EMEA";
          balance "ACC-5" "2024-05-01" "USD" (Present 50) 50 "E5" "EMEA";
          balance "ACC-6" "2024-05-01" "USD" (Present 40) 40 "E6" "APAC";
          balance "ACC-7" "2024-05-01" "USD" (Present 25) 25 "E2" "AMER" ]
    [] [] [].

(** A pool without participant accounts, beside balances of other accounts. *)
Definition pool_without_accounts : CashPool :=
  {| pool_id := "pool-2"; pool_name := "EMEA Cash Pool"; pool_type := "Notional";
     pool_region := "EMEA"; header_account := "POOL-EMEA-HEADER";
     participant_accounts := []; pool_currency := "EUR" |}.

Definition empty_pool : World :=
  world [ balance "ACC-1" "2024-05-01" "USD" (Present 100) 100 "E1" "AMER" ]
    [pool_without_accounts] [] [].

End Cases.

(** ** Specification-level definitions

    What the specification says a run produces, to compare the handlers
    with. *)

(** What a transaction says, apart from its date and its drawn status:
    receiving (deficit) entity, paying (surplus) entity, amount, currency. *)
Definition tx_core (t : NettingTx) : string * string * Q * string :=
  (to_entity t, from_entity t, amount t, nt_currency t).

(** Insertion order of a dictionary filled key by key: every key at the place
    of its first occurrence. *)
Definition insertion_order (keys : list string) : list string :=
  fold_left (fun seen k => if existsb (String.eqb k) seen then seen else seen ++ [k])%list
    keys [].

(** The specification's candidate pairs: the first three deficit entities,
    each with the first two surplus entities, in that order. *)
Definition spec_candidates (deficit_entities surplus_entities : ODict.t)
  : list ((string * Q) * (string * Q)) :=
  list_prod (firstn 3 deficit_entities) (firstn 2 surplus_entities).

(** The specification's entity totals: one entry per entity, in the order in
    which the entities first occur, holding the float sum of the entity's
    balances in the order of the records. *)
Definition spec_entity_totals (balances : list CashBalance) : ODict.t :=
  map (fun e =>
         (e, B64.sum (map balance_usd
                        (List.filter (fun b => String.eqb (entity_code b) e)
                           balances))))
    (insertion_order (map entity_code balances)).

(** The specification's amount for a candidate pair (deficit, surplus):
    [min(abs(deficit - avg), surplus - avg) * 0.3] in float arithmetic. *)
Definition spec_amount (avg : Q) (p : (string * Q) * (string * Q)) : Q :=
  B64.mul
    (Qmin (Qabs (B64.sub (snd (fst p)) avg)) (B64.sub (snd (snd p)) avg))
    (B64.round (3 # 10)).

(** The specification's emitted transactions: one per candidate pair whose
    amount exceeds 100000, from the surplus to the deficit entity, in USD. *)
Definition spec_emitted (avg : Q) (pairs : list ((string * Q) * (string * Q)))
  : list (string * string * Q * string) :=
  map (fun p => (fst (fst p), fst (snd p), Num.round2 (spec_amount avg p), "USD"))
    (List.filter (fun p => Num.ltb 100000 (spec_amount avg p)) pairs).

(** The snapshot a handler reads with [find({}).to_list(10000)]. *)
Definition snapshot (w : World) : list CashBalance :=
  firstn limit_10000 (db_cash_balances w).

(** The response of a netting run whose loops produced [results]. *)
Definition netting_response (today : string) (results : list NettingTx) : value :=
  VDict [ ("status", VStr "success");
          ("netting_date", VStr today);
          ("total_transactions", VInt (Z.of_nat (length results)));
          ("total_netted_usd", VNum (Num.round2 (Num.sum (map amount results))));
          ("transactions", VList (map tx_value results)) ].

(** The operations a netting run adds to the log when its loops produced
    [results]. *)
Definition netting_ops (results : list NettingTx) : list db_op :=
  match results with
  | [] => [OpDeleteMany netting_results; OpFind cash_balances]
  | _ :: _ => [OpDeleteMany netting_results; OpFind cash_balances;
               OpInsertMany netting_results (length results)]
  end.

(** What a validation log says, apart from its id, date and description. *)
Definition log_core (l : ValidationLog) : string * string * nat * string :=
  (check_type l, severity l, affected_records l, vl_status l).

(** The specification's checks: records whose [balance_local] is null (absent
    or [None]) or zero, and records whose [balance_local] is negative. *)
Definition spec_missing (b : CashBalance) : bool :=
  match balance_local b with
  | Present x => Num.eqb x 0
  | _ => true
  end.

Definition spec_negative (b : CashBalance) : bool :=
  match balance_local b with
  | Present x => Num.ltb x 0
  | _ => false
  end.

(** One log for a check that found [n] records, none for [n = 0]. *)
Definition spec_log (type sev : string) (n : nat)
  : list (string * string * nat * string) :=
  match n with
  | O => []
  | S _ => [(type, sev, n, "Open")]
  end.


Definition dicts_of (v : option value) : list (list (string * value)) :=
  match v with
  | Some (VList l) => map (fun e => match e with VDict d => d | _ => [] end) l
  | _ => []
  end.

(** The balances of the participants of a pool, as both pool handlers read
    them. *)
Definition pool_balances (w : World) (pool : CashPool) : list CashBalance :=
  firstn limit_1000 (List.filter (in_pool pool) (db_cash_balances w)).

(** What the pool status reports for one pool: the number of balance records
    found for it, the efficiency (in float arithmetic, reported rounded to
    two decimals) and the state. *)
Definition pool_entry_ok (w : World) (pool : CashPool) (entry : value) : Prop :=
  let count := length (pool_balances w pool) in
  let size := length (participant_accounts pool) in
  exists d,
    entry = VDict d
    /\ dict_get "participants" d = Some (VInt (Z.of_nat count))
    /\ dict_get "efficiency" d
       = Some (VNum (Num.round2
                       (Qmin 100
                          (B64.mul (B64.div (Num.of_nat count)
                                      (Num.of_nat (Nat.max 1 size))) 100))))
    /\ (dict_get "status" d = Some (VStr "Active") <-> (0 < count)%nat)
    /\ (count = O -> dict_get "status" d = Some (VStr "Inactive"))
    /\ (size = 3%nat -> count = 2%nat ->
        dict_get "efficiency" d = Some (VNum (6667 # 100))
        /\ dict_get "status" d = Some (VStr "Active")).

(** The balance records whose account is one of the participant accounts of
    a pool, whatever their date, as far as the query reads them. *)
Definition pool_records (w : World) (pool : CashPool) : list CashBalance :=
  firstn limit_1000
    (List.filter
       (fun b => bool_decide (account_number b ∈ participant_accounts pool))
       (db_cash_balances w)).

(** The participant accounts of a pool for which a balance record is stored:
    the specification's "participants with balance". *)
Definition accounts_with_balance (w : World) (pool : CashPool) : list string :=
  List.filter
    (fun a => existsb (fun b => String.eqb (account_number b) a) (db_cash_balances w))
    (participant_accounts pool).

(** The specification's reading of the pool status, word for word: the
    efficiency of a pool is computed from the number of its participant
    accounts that have a balance, and the pool is Active exactly when that
    number is positive. *)
Definition pool_status_as_specified (w : World) : Prop :=
  let pools := firstn limit_1000 (db_cash_pools w) in
  exists w' entries,
    get_cash_pool_status w
    = (w', Returned (VDict [ ("pools", VList entries);
                             ("total_pools", VInt (Z.of_nat (length pools))) ]))
    /\ Forall2 (fun pool entry =>
                  let with_balance := length (accounts_with_balance w pool) in
                  let size := length (participant_accounts pool) in
                  exists d,
                    entry = VDict d
                    /\ dict_get "efficiency" d
                       = Some (VNum (Num.round2
                                       (Qmin 100
                                          (B64.mul
                                             (B64.div (Num.of_nat with_balance)
                                                (Num.of_nat (Nat.max 1 size)))
                                             100))))
                    /\ (dict_get "status" d = Some (VStr "Active")
                        <-> (0 < with_balance)%nat))
         pools entries.




Module Scenario.

Import Sample.

(** Scenario B of the specification: E1 holds 1,000,000 and E2 holds
    2,000,000; results of an earlier run are still stored. *)
Definition scenario_b : World :=
  world [ balance "ACC-1" "2024-05-01" "USD" (Present 1000000) 1000000 "E1" "AMER";
          balance "ACC-2" "2024-05-01" "USD" (Present 2000000) 2000000 "E2" "AMER" ]
    [] [old_tx] [].

(** Scenario C of the specification: a pool of three participant accounts,
    two of which have a balance record. *)
Definition pool_abc : CashPool :=
  {| pool_id := "pool-1"; pool_name := "APAC Cash Pool"; pool_type := "Physical";
     pool_region := "APAC"; header_account := "POOL-APAC-HEADER";
     participant_accounts := ["A"; "B"; "C"]; pool_currency := "USD" |}.

Definition scenario_c : World :=
  world [ balance "A" "2024-05-01" "USD" (Present 500) 500 "E1" "APAC";
          balance "B" "2024-05-01" "USD" (Present 700) 700 "E2" "APAC" ]
    [pool_abc] [] [].


(** Scenario C beside the balance of an account that is in no pool. *)
Definition scenario_c_outsider : World :=
  world [ balance "A" "2024-05-01" "USD" (Present 500) 500 "E1" "APAC";
          balance "D" "2024-05-01" "USD" (Present 900) 900 "E4" "APAC";
          balance "B" "2024-05-01" "USD" (Present 700) 700 "E2" "APAC" ]
    [pool_abc] [] [].

(** Scenario C when account A has a balance record for each of two days:
    still two of the three participant accounts have balances. *)
Definition scenario_c_two_dates : World :=
  world [ balance "A" "2024-05-01" "USD" (Present 500) 500 "E1" "APAC";
          balance "A" "2024-05-02" "USD" (Present 520) 520 "E1" "APAC";
          balance "B" "2024-05-01" "USD" (Present 700) 700 "E2" "APAC" ]
    [pool_abc] [] [].

(** Three participants holding the float [0.7] each. *)
Definition scenario_equal : World :=
  world [ balance "A" "2024-05-01" "USD" (Present (B64.round (7 # 10)))
            (B64.round (7 # 10)) "E1" "APAC";
          balance "B" "2024-05-01" "USD" (Present (B64.round (7 # 10)))
            (B64.round (7 # 10)) "E2" "APAC";
          balance "C" "2024-05-01" "USD" (Present (B64.round (7 # 10)))
            (B64.round (7 # 10)) "E3" "APAC" ]
    [pool_abc] [] [].


End Scenario.

(** * Properties *)

(** ** Numbers *)

Lemma ltb_lt (a b : Q) : Num.ltb a b = true <-> a < b.
Proof.
  unfold Num.ltb. rewrite Qlt_alt. destruct (Qcompare a b); split; congruence.
Qed.

Lemma round_half_even_floor (q : Q) : (Qfloor q <= Num.round_half_even q)%Z.
Proof.
  unfold Num.round_half_even.
  destruct (Qcompare _ _); [destruct (Z.even _) | |]; lia.
Qed.


(** Above the threshold, the rounded amount is still at least the threshold. *)
Lemma round2_above (q : Q) : 100000 < q -> 100000 <= Num.round2 q.
Proof.
  intros H. unfold Num.round2. rewrite Qred_correct.
  assert (Hf : (10000000 <= Qfloor (q * 100))%Z).
  { change 10000000%Z with (Qfloor (inject_Z 10000000)).
    apply Qfloor_resp_le. change (inject_Z 10000000) with (100000 * 100). lra. }
  pose proof (round_half_even_floor (q * 100)) as Hr.
  rewrite (Qmake_Qdiv _ 100).
  apply Qle_shift_div_l; [reflexivity |].
  change (100000 * inject_Z (Z.pos 100)) with (inject_Z 10000000).
  rewrite <- Zle_Qle. lia.
Qed.

(** The nearest integer is within one half. *)
Lemma round_half_even_error (y : Q) :
  Qabs (inject_Z (Num.round_half_even y) - y) <= 1 # 2.
Proof.
  assert (Hlo : inject_Z (Qfloor y) <= y) by apply Qfloor_le.
  assert (Hhi : y < inject_Z (Qfloor y + 1)) by apply Qlt_floor.
  rewrite inject_Z_plus in Hhi. change (inject_Z 1) with 1 in Hhi.
  unfold Num.round_half_even.
  destruct (Qcompare (y - inject_Z (Qfloor y)) (1 # 2)) eqn:Hc.
  - apply Qeq_alt in Hc.
    destruct (Z.even (Qfloor y));
      [| rewrite inject_Z_plus; change (inject_Z 1) with 1];
      apply Qabs_case; intros _; lra.
  - apply Qlt_alt in Hc. apply Qabs_case; intros _; lra.
  - apply Qgt_alt in Hc. rewrite inject_Z_plus. change (inject_Z 1) with 1.
    apply Qabs_case; intros _; lra.
Qed.

(** *** Binary64 rounding *)

Lemma pow2_pos (e : Z) : 0 < B64.pow2 e.
Proof. apply Qpower_0_lt. reflexivity. Qed.

Lemma pow2_plus (a b : Z) : B64.pow2 (a + b) == B64.pow2 a * B64.pow2 b.
Proof. apply Qpower_plus. discriminate. Qed.

Lemma pow2_inject (n : Z) : (0 <= n)%Z -> inject_Z (2 ^ n) == B64.pow2 n.
Proof. intros H. unfold B64.pow2. by rewrite Zpower_Qpower. Qed.

Lemma Qabs_num_den (q : Q) :
  Qabs q == inject_Z (Z.abs (Qnum q)) / inject_Z (Z.pos (Qden q)).
Proof. destruct q as [n d]. unfold Qabs. simpl. apply Qmake_Qdiv. Qed.

(** The significand [|q| / pow2 (exponent q)] has exactly 53 bits. *)
Lemma exponent_spec (q : Q) :
  ~ q == 0 ->
  B64.pow2 52 * B64.pow2 (B64.exponent q) <= Qabs q
  /\ Qabs q < B64.pow2 53 * B64.pow2 (B64.exponent q).
Proof.
  intros Hq.
  set (n := Z.abs (Qnum q)). set (d := Z.pos (Qden q)).
  assert (Hn : (0 < n)%Z).
  { unfold n. destruct q as [[| p | p] dd]; simpl; try lia.
    exfalso. apply Hq. reflexivity. }
  assert (Hd : (0 < d)%Z) by (unfold d; lia).
  destruct (Z.log2_spec n Hn) as [Hn1 Hn2].
  destruct (Z.log2_spec d Hd) as [Hd1 Hd2].
  pose proof (Z.log2_nonneg n) as Hln. pose proof (Z.log2_nonneg d) as Hld.
  set (ln := Z.log2 n) in *. set (ld := Z.log2 d) in *.
  rewrite Zle_Qle in Hn1, Hd1. rewrite Zlt_Qlt in Hn2, Hd2.
  rewrite pow2_inject in Hn1, Hn2, Hd1, Hd2 by lia.
  replace (Z.succ ln) with (ln + 1)%Z in * by lia.
  replace (Z.succ ld) with (ld + 1)%Z in * by lia.
  rewrite pow2_plus in Hn2, Hd2.
  change (B64.pow2 1) with 2 in *.
  assert (Habs : Qabs q == inject_Z n / inject_Z d) by apply Qabs_num_den.
  assert (Hdq : 0 < inject_Z d) by (rewrite <- (Zlt_Qlt 0); exact Hd).
  assert (Hnd : Qabs q * inject_Z d == inject_Z n).
  { rewrite Habs. field. lra. }
  set (e := (ln - ld - 53)%Z).
  assert (He : B64.pow2 ln == B64.pow2 e * B64.pow2 53 * B64.pow2 ld).
  { rewrite <- !pow2_plus. unfold e. f_equiv. lia. }
  pose proof (pow2_pos e) as Pe. pose proof (pow2_pos ld) as Pld.
  pose proof (pow2_pos ln) as Pln.
  assert (P53 : B64.pow2 53 == 2 * B64.pow2 52) by reflexivity.
  assert (P52 : 0 < B64.pow2 52) by apply pow2_pos.
  assert (Hlow : B64.pow2 52 * B64.pow2 e < Qabs q).
  { apply Qnot_le_lt. intros Hc.
    assert (Qabs q * inject_Z d <= B64.pow2 52 * B64.pow2 e * inject_Z d) by nra.
    assert (B64.pow2 52 * B64.pow2 e * inject_Z d
            < B64.pow2 52 * B64.pow2 e * (B64.pow2 ld * 2)) by nra.
    nra. }
  assert (Hhigh : Qabs q < 2 * (B64.pow2 53 * B64.pow2 e)).
  { apply Qnot_le_lt. intros Hc.
    assert (2 * (B64.pow2 53 * B64.pow2 e) * inject_Z d <= Qabs q * inject_Z d) by nra.
    assert (2 * (B64.pow2 53 * B64.pow2 e) * B64.pow2 ld
            <= 2 * (B64.pow2 53 * B64.pow2 e) * inject_Z d) by nra.
    nra. }
  unfold B64.exponent. fold n d ln ld e.
  destruct (Qle_bool (B64.pow2 (e + 53)) (Qabs q)) eqn:Hb.
  - apply Qle_bool_iff in Hb. rewrite pow2_plus in Hb.
    rewrite (pow2_plus e 1). change (B64.pow2 1) with 2.
    split; [nra | nra].
  - assert (Hlt : Qabs q < B64.pow2 (e + 53)).
    { apply Qnot_le_lt. intros Hc. apply Qle_bool_iff in Hc. congruence. }
    rewrite pow2_plus in Hlt. split; [lra | nra].
Qed.

Lemma round_zero (q : Q) : q == 0 -> B64.round q = 0.
Proof.
  intros H. unfold B64.round.
  apply Qeq_bool_iff in H. by rewrite H.
Qed.

(** What [round] returns, for a number that is not zero. *)
Lemma round_nonzero (q : Q) :
  ~ q == 0 ->
  B64.round q
  == inject_Z (Num.round_half_even (q / B64.pow2 (B64.exponent q)))
     * B64.pow2 (B64.exponent q).
Proof.
  intros H. unfold B64.round.
  destruct (Qeq_bool q 0) eqn:E.
  - apply Qeq_bool_iff in E. contradiction.
  - cbv zeta. apply Qred_correct.
Qed.

(** Rounding moves a number by at most [eps] times its magnitude. *)
Lemma round_error (q : Q) : Qabs (B64.round q - q) <= B64.eps * Qabs q.
Proof.
  destruct (Qeq_dec q 0) as [H0 | Hq].
  - rewrite (round_zero q H0), H0. discriminate.
  - rewrite (round_nonzero q Hq).
    destruct (exponent_spec q Hq) as [Hlo _].
    set (P := B64.pow2 (B64.exponent q)) in *.
    pose proof (pow2_pos (B64.exponent q)) as HP. fold P in HP.
    pose proof (round_half_even_error (q / P)) as Herr.
    set (m := inject_Z (Num.round_half_even (q / P))) in *.
    assert (E : m * P - q == (m - q / P) * P) by (field; lra).
    rewrite E, Qabs_Qmult, (Qabs_pos P) by lra.
    change (B64.pow2 52) with 4503599627370496 in Hlo.
    unfold B64.eps.
    assert (Hm : 0 <= Qabs (m - q / P)) by apply Qabs_nonneg.
    nra.
Qed.

(** Rounding keeps the sign. *)
Lemma round_pos (q : Q) : 0 < q -> 0 < B64.round q.
Proof.
  intros Hq. rewrite (round_nonzero q) by lra.
  destruct (exponent_spec q) as [Hlo _]; [lra |].
  rewrite (Qabs_pos q) in Hlo by lra.
  set (P := B64.pow2 (B64.exponent q)) in *.
  pose proof (pow2_pos (B64.exponent q)) as HP. fold P in HP.
  change (B64.pow2 52) with 4503599627370496 in Hlo.
  assert (Hx : inject_Z 1 <= q / P).
  { apply Qle_shift_div_l; [exact HP |]. change (inject_Z 1) with 1. nra. }
  apply Qfloor_resp_le in Hx. rewrite Qfloor_Z in Hx.
  pose proof (round_half_even_floor (q / P)) as Hf.
  assert (Hm : 1 <= inject_Z (Num.round_half_even (q / P))).
  { change 1 with (inject_Z 1). rewrite <- Zle_Qle. lia. }
  nra.
Qed.

Lemma round_neg (q : Q) : q < 0 -> B64.round q < 0.
Proof.
  intros Hq. rewrite (round_nonzero q) by lra.
  destruct (exponent_spec q) as [Hlo _]; [lra |].
  rewrite (Qabs_neg q) in Hlo by lra.
  set (P := B64.pow2 (B64.exponent q)) in *.
  pose proof (pow2_pos (B64.exponent q)) as HP. fold P in HP.
  change (B64.pow2 52) with 4503599627370496 in Hlo.
  pose proof (round_half_even_error (q / P)) as Herr.
  set (m := inject_Z (Num.round_half_even (q / P))) in *.
  assert (Hx : q / P <= -1).
  { apply Qle_shift_div_r; [exact HP |]. nra. }
  apply Qabs_Qle_condition in Herr as [_ Herr].
  nra.
Qed.

Lemma round_nonneg (q : Q) : 0 <= q -> 0 <= B64.round q.
Proof.
  intros H. destruct (Qeq_dec q 0) as [E | E].
  - rewrite (round_zero q E). discriminate.
  - apply Qlt_le_weak, round_pos. lra.
Qed.

(** Rounding does not cross a whole number of at most 53 bits. *)
Lemma round_ge_int (z : Z) (q : Q) :
  (0 < z <= 2 ^ 52)%Z -> inject_Z z <= q -> inject_Z z <= B64.round q.
Proof.
  intros [Hz0 Hz] Hq.
  assert (Hz0' : 0 < inject_Z z) by (rewrite <- (Zlt_Qlt 0); exact Hz0).
  assert (Hz' : inject_Z z <= 4503599627370496).
  { change 4503599627370496 with (inject_Z (2 ^ 52)). by rewrite <- Zle_Qle. }
  assert (Hpos : 0 < q) by lra.
  rewrite (round_nonzero q) by lra.
  destruct (exponent_spec q) as [Hlo _]; [lra |].
  rewrite (Qabs_pos q) in Hlo by lra.
  set (e := B64.exponent q) in *. set (P := B64.pow2 e) in *.
  pose proof (pow2_pos e) as HP. fold P in HP.
  change (B64.pow2 52) with 4503599627370496 in Hlo.
  pose proof (round_half_even_floor (q / P)) as Hf.
  destruct (Z_lt_le_dec 0 e) as [He | He].
  - assert (HP2 : 2 <= P).
    { change 2 with (B64.pow2 1). unfold P, B64.pow2.
      apply Qpower_le_compat_l; [lia | discriminate]. }
    assert (Hx : inject_Z (2 ^ 52) <= q / P).
    { apply Qle_shift_div_l; [exact HP |].
      change (inject_Z (2 ^ 52)) with 4503599627370496. lra. }
    apply Qfloor_resp_le in Hx. rewrite Qfloor_Z in Hx.
    assert (Hm : 4503599627370496 <= inject_Z (Num.round_half_even (q / P))).
    { change 4503599627370496 with (inject_Z (2 ^ 52)). rewrite <- Zle_Qle. lia. }
    nra.
  - assert (Hk : P * inject_Z (2 ^ (- e)) == 1).
    { rewrite pow2_inject by lia. unfold P. rewrite <- pow2_plus.
      replace (e + - e)%Z with 0%Z by lia. reflexivity. }
    assert (Hk0 : 0 < inject_Z (2 ^ (- e))).
    { rewrite pow2_inject by lia. apply pow2_pos. }
    assert (Hx : inject_Z (z * 2 ^ (- e)) <= q / P).
    { apply Qle_shift_div_l; [exact HP |]. rewrite inject_Z_mult. nra. }
    apply Qfloor_resp_le in Hx. rewrite Qfloor_Z in Hx.
    assert (Hm : inject_Z (z * 2 ^ (- e)) <= inject_Z (Num.round_half_even (q / P))).
    { rewrite <- Zle_Qle. lia. }
    rewrite inject_Z_mult in Hm. nra.
Qed.

(** The float difference is positive exactly when the exact one is. *)
Lemma sub_pos (x y : Q) : 0 < B64.sub x y <-> y < x.
Proof.
  unfold B64.sub. split.
  - intros H. apply Qnot_le_lt. intros Hle.
    destruct (Qeq_dec (x - y) 0) as [E | E].
    + rewrite (round_zero _ E) in H. discriminate H.
    + assert (Hneg : x - y < 0) by lra.
      apply round_neg in Hneg. lra.
  - intros H. apply round_pos. lra.
Qed.

(** Python's [min] is the mathematical minimum, and returns the same
    argument. *)
Lemma num_min_eq (a b : Q) : Num.min a b = Qmin a b.
Proof.
  unfold Num.min, Num.ltb, Qmin, GenericMinMax.gmin.
  rewrite <- (Qcompare_antisym a b). by destruct (Qcompare a b).
Qed.

(** ** Running the handler monad *)

Tactic Notation "run_step" :=
  cbv [mbind M_bind bind mret M_ret ret lift raise try_500].
Tactic Notation "run_step" "in" hyp(H) :=
  cbv [mbind M_bind bind mret M_ret ret lift raise try_500] in H.

Lemma with_rand_calls_id (w : World) : with_rand_calls (rand_calls w) w = w.
Proof. destruct w; reflexivity. Qed.

Lemma with_uuid_calls_id (w : World) : with_uuid_calls (uuid_calls w) w = w.
Proof. destruct w; reflexivity. Qed.

(** ** Netting: the loops against their specification *)

Lemma spec_emitted_app avg l1 l2 :
  spec_emitted avg (l1 ++ l2) = (spec_emitted avg l1 ++ spec_emitted avg l2)%list.
Proof. unfold spec_emitted. by rewrite List.filter_app, map_app. Qed.


Lemma spec_candidates_length d s : (length (spec_candidates d s) <= 6)%nat.
Proof.
  unfold spec_candidates. rewrite length_prod.
  pose proof (firstn_le_length 3 d). pose proof (firstn_le_length 2 s). nia.
Qed.

Section NettingLoops.

Variable env : Env.
Variable today : string.
Variable avg : Q.

(** The amount the code computes for a pair is the specification's. *)
Lemma netting_amount_spec d s :
  netting_amount avg (snd d) (snd s) = spec_amount avg (d, s).
Proof. unfold netting_amount, spec_amount, Num.abs. by rewrite num_min_eq. Qed.

Lemma netting_pair_run d s acc w :
  exists new n,
    netting_pair env today avg d s acc w
    = (with_rand_calls n w, Returned (acc ++ new)%list)
    /\ map tx_core new = spec_emitted avg [(d, s)].
Proof.
  unfold netting_pair, spec_emitted. cbv zeta. rewrite netting_amount_spec.
  cbn [List.filter].
  destruct (Num.ltb 100000 (spec_amount avg (d, s))).
  - run_step. unfold random_choice. eexists [_], _. split; reflexivity.
  - run_step. exists [], (rand_calls w).
    by rewrite with_rand_calls_id, app_nil_r.
Qed.

Lemma inner_loop_run d surplus : forall acc w,
  exists new n,
    foldM (fun results s => netting_pair env today avg d s results) acc surplus w
    = (with_rand_calls n w, Returned (acc ++ new)%list)
    /\ map tx_core new = spec_emitted avg (map (pair d) surplus).
Proof.
  induction surplus as [| s surplus IH]; intros acc w; simpl.
  - exists [], (rand_calls w). run_step.
    by rewrite with_rand_calls_id, app_nil_r.
  - destruct (netting_pair_run d s acc w) as (new1 & n1 & E1 & H1).
    destruct (IH (acc ++ new1)%list (with_rand_calls n1 w)) as (new2 & n2 & E2 & H2).
    exists (new1 ++ new2)%list, n2. split.
    + run_step. run_step in E1. rewrite E1. run_step in E2. rewrite E2.
      by rewrite <- app_assoc.
    + rewrite map_app, H1, H2. symmetry.
      apply (spec_emitted_app avg [(d, s)]).
Qed.

Lemma outer_loop_run surplus deficit : forall acc w,
  exists new n,
    foldM (fun results d =>
             foldM (fun results s => netting_pair env today avg d s results)
               results surplus) acc deficit w
    = (with_rand_calls n w, Returned (acc ++ new)%list)
    /\ map tx_core new = spec_emitted avg (list_prod deficit surplus).
Proof.
  induction deficit as [| d deficit IH]; intros acc w; simpl.
  - exists [], (rand_calls w). run_step.
    by rewrite with_rand_calls_id, app_nil_r.
  - destruct (inner_loop_run d surplus acc w) as (new1 & n1 & E1 & H1).
    destruct (IH (acc ++ new1)%list (with_rand_calls n1 w)) as (new2 & n2 & E2 & H2).
    exists (new1 ++ new2)%list, n2. split.
    + run_step. run_step in E1. rewrite E1. run_step in E2. rewrite E2.
      by rewrite <- app_assoc.
    + by rewrite map_app, H1, H2, spec_emitted_app.
Qed.

Lemma netting_loops_run deficit_entities surplus_entities w :
  exists txs n,
    netting_loops env today avg deficit_entities surplus_entities w
    = (with_rand_calls n w, Returned txs)
    /\ map tx_core txs
       = spec_emitted avg (spec_candidates deficit_entities surplus_entities).
Proof.
  destruct (outer_loop_run (firstn 2 surplus_entities) (firstn 3 deficit_entities) [] w)
    as (new & n & E & H).
  exists new, n. split; [exact E | exact H].
Qed.

Lemma new_NettingResults_run (l : list NettingTx) : forall w,
  exists objs,
    new_NettingResults env l w
    = (with_uuid_calls (uuid_calls w + length l) w, Returned objs)
    /\ map nr_tx objs = l.
Proof.
  induction l as [| t l IH]; intros w; simpl.
  - exists []. run_step. by rewrite Nat.add_0_r, with_uuid_calls_id.
  - destruct (IH (with_uuid_calls (S (uuid_calls w)) w)) as (objs & E & H).
    eexists (_ :: objs). split.
    + run_step. unfold new_NettingResult, fresh_uuid. run_step.
      run_step in E. rewrite E. simpl.
      replace (S (uuid_calls w + length l)) with (uuid_calls w + S (length l))%nat by lia.
      reflexivity.
    + simpl. by rewrite H.
Qed.

End NettingLoops.

(** ** Netting: the whole run *)

Lemma filter_all {A} (l : list A) : List.filter (fun _ => true) l = l.
Proof. induction l as [| x l IH]; simpl; [done | by rewrite IH]. Qed.

(** *** The entity totals *)

Lemma odict_set_nonempty k v (d : ODict.t) : ODict.set k v d <> [].
Proof. destruct d as [| [k' v'] d]; simpl; [done |]. by destruct (String.eqb k k'). Qed.

Lemma odict_set_keys k v (d : ODict.t) :
  map fst (ODict.set k v d)
  = if existsb (String.eqb k) (map fst d) then map fst d else (map fst d ++ [k])%list.
Proof.
  induction d as [| [k' v'] d IH]; simpl; [done |].
  destruct (String.eqb k k'); simpl; [done |].
  rewrite IH. by destruct (existsb _ _).
Qed.

Lemma existsb_eqb_elem (k : string) (l : list string) :
  existsb (String.eqb k) l = true <-> In k l.
Proof.
  rewrite existsb_exists. split.
  - intros (x & Hx & E). apply String.eqb_eq in E. by subst.
  - intros H. exists k. split; [exact H | apply String.eqb_refl].
Qed.

Lemma odict_set_NoDup k v (d : ODict.t) :
  NoDup (map fst d) -> NoDup (map fst (ODict.set k v d)).
Proof.
  intros Hd. rewrite odict_set_keys.
  destruct (existsb (String.eqb k) (map fst d)) eqn:E; [exact Hd |].
  apply NoDup_app. split; [exact Hd |]. split.
  - intros x Hx Hk. apply list_elem_of_In in Hx, Hk.
    destruct Hk as [<- | []]. apply existsb_eqb_elem in Hx. congruence.
  - apply NoDup_singleton.
Qed.

Lemma odict_get_set_eq k v (d : ODict.t) : ODict.get k (ODict.set k v d) = Some v.
Proof.
  induction d as [| [k' v'] d IH]; simpl.
  - by rewrite String.eqb_refl.
  - destruct (String.eqb k k') eqn:E; simpl; rewrite E; [done | exact IH].
Qed.

Lemma odict_get_set_ne k k' v (d : ODict.t) :
  k <> k' -> ODict.get k (ODict.set k' v d) = ODict.get k d.
Proof.
  intros Hne. induction d as [| [k'' v''] d IH]; simpl.
  - apply String.eqb_neq in Hne. by rewrite Hne.
  - destruct (String.eqb k' k'') eqn:E; simpl.
    + apply String.eqb_eq in E. subst k''.
      apply String.eqb_neq in Hne. by rewrite Hne.
    + by rewrite IH.
Qed.

(** A dictionary is determined by its keys, in order, and the value found
    under each. *)
Lemma odict_by_keys (d : ODict.t) :
  NoDup (map fst d) ->
  d = map (fun k => (k, ODict.get_default k 0 d)) (map fst d).
Proof.
  induction d as [| [k v] d IH]; intros Hnd; [reflexivity |].
  cbn [map fst] in *. apply NoDup_cons in Hnd as [Hk Hnd].
  unfold ODict.get_default at 1. cbn [ODict.get]. rewrite String.eqb_refl.
  f_equal. rewrite (IH Hnd) at 1. apply map_ext_in. intros k' Hk'.
  unfold ODict.get_default. cbn [ODict.get].
  destruct (String.eqb k' k) eqn:E; [| reflexivity].
  apply String.eqb_eq in E. subst k'. exfalso. apply Hk.
  by apply list_elem_of_In.
Qed.

Lemma entity_balances_nonempty b bs : entity_balances (b :: bs) <> [].
Proof.
  unfold entity_balances. simpl.
  assert (H : forall l (d : ODict.t), d <> [] ->
            fold_left (fun d b => ODict.fadd (entity_code b) (balance_usd b) d) l d <> []).
  { induction l as [| x l IH]; intros d Hd; simpl; [done |].
    apply IH, odict_set_nonempty. }
  apply H, odict_set_nonempty.
Qed.

(** The entities stand in the order of their first balance record. *)
Lemma entity_balances_keys bs :
  map fst (entity_balances bs) = insertion_order (map entity_code bs).
Proof.
  unfold entity_balances, insertion_order.
  enough (H : forall d : ODict.t,
             map fst (fold_left
                        (fun d b => ODict.fadd (entity_code b) (balance_usd b) d) bs d)
             = fold_left
                 (fun seen k =>
                    if existsb (String.eqb k) seen then seen else seen ++ [k])%list
                 (map entity_code bs) (map fst d))
    by apply (H []).
  induction bs as [| b bs IH]; intros d; simpl; [done |].
  rewrite IH. unfold ODict.fadd. by rewrite odict_set_keys.
Qed.

Lemma entity_balances_NoDup bs : NoDup (map fst (entity_balances bs)).
Proof.
  unfold entity_balances.
  enough (H : forall d : ODict.t, NoDup (map fst d) ->
            NoDup (map fst (fold_left
                              (fun d b => ODict.fadd (entity_code b) (balance_usd b) d)
                              bs d)))
    by (apply H; constructor).
  induction bs as [| b bs IH]; intros d Hd; simpl; [exact Hd |].
  apply IH, odict_set_NoDup, Hd.
Qed.

(** The total of an entity is the float sum of its balances, added in the
    order of the records. *)
Lemma entity_balances_lookup bs e :
  ODict.get_default e 0 (entity_balances bs)
  = B64.sum (map balance_usd
               (List.filter (fun b => String.eqb (entity_code b) e) bs)).
Proof.
  unfold entity_balances, B64.sum.
  enough (H : forall d : ODict.t,
             ODict.get_default e 0
               (fold_left (fun d b => ODict.fadd (entity_code b) (balance_usd b) d) bs d)
             = fold_left B64.add
                 (map balance_usd
                    (List.filter (fun b => String.eqb (entity_code b) e) bs))
                 (ODict.get_default e 0 d))
    by apply (H []).
  induction bs as [| b bs IH]; intros d; [reflexivity |].
  cbn [fold_left List.filter]. rewrite IH. unfold ODict.fadd.
  destruct (String.eqb (entity_code b) e) eqn:E.
  - apply String.eqb_eq in E. subst e. cbn [map fold_left].
    unfold ODict.get_default at 1. by rewrite odict_get_set_eq.
  - apply String.eqb_neq in E.
    unfold ODict.get_default at 1. rewrite odict_get_set_ne by congruence.
    reflexivity.
Qed.

(** The grouping loop of the netting run computes the specification's entity
    totals. *)
Lemma entity_balances_spec bs : entity_balances bs = spec_entity_totals bs.
Proof.
  rewrite (odict_by_keys (entity_balances bs)) by apply entity_balances_NoDup.
  unfold spec_entity_totals. rewrite entity_balances_keys.
  apply map_ext. intros e. by rewrite entity_balances_lookup.
Qed.

Lemma float_div_returns x n :
  n <> O -> float_div x n = Returned (B64.div x (Num.of_nat n)).
Proof. by destruct n. Qed.

Section NettingRun.

Variable env : Env.
Variable w : World.

Let totals := entity_balances (snapshot w).
Let total := B64.sum (ODict.values totals).

Lemma run_netting_unfold :
  match float_div total (length totals) with
  | Raised e =>
      exists w',
        run_netting env w = (w', Raised (HTTP500 e))
        /\ db_netting_results w' = []
        /\ oplog w' = (oplog w ++ netting_ops [])%list
  | Returned avg =>
      exists txs w',
        run_netting env w
        = (w', Returned (netting_response (today_iso env) txs))
        /\ map tx_core txs
           = spec_emitted avg
               (spec_candidates
                  (List.filter (fun kv => Num.ltb (snd kv) avg) totals)
                  (List.filter (fun kv => Num.ltb avg (snd kv)) totals))
        /\ map nr_tx (db_netting_results w') = txs
        /\ oplog w' = (oplog w ++ netting_ops txs)%list
  end.
Proof.
  subst total totals. unfold snapshot, run_netting.
  unfold Db.delete_many_netting_results, Db.find_cash_balances.
  run_step. cbn [db_cash_balances with_netting_results log_op].
  rewrite filter_all.
  destruct (float_div _ _) as [avg | e].
  - match goal with
    | |- context [netting_loops env ?t avg ?d ?s ?w0] =>
        destruct (netting_loops_run env t avg d s w0) as (txs & n & E & H)
    end.
    rewrite E. exists txs.
    destruct txs as [| t txs].
    + eexists. split; [reflexivity |]. split; [exact H |].
      split; [reflexivity |]. simpl. by rewrite <- app_assoc.
    + match goal with
      | |- context [new_NettingResults env ?l ?w0] =>
          destruct (new_NettingResults_run env l w0) as (objs & E2 & H2)
      end.
      rewrite E2. unfold Db.insert_many_netting_results.
      destruct objs as [| o objs]; [discriminate H2 |].
      eexists. split; [reflexivity |]. split; [exact H |].
      split; [exact H2 |]. simpl.
      rewrite <- !app_assoc. simpl. do 3 f_equal.
      apply (f_equal (@length _)) in H2. rewrite length_map in H2.
      simpl in H2. by rewrite H2.
  - eexists. split; [reflexivity |]. split; [reflexivity |].
    simpl. by rewrite <- app_assoc.
Qed.

End NettingRun.

(** C1 (where the code departs from the claim). On an empty balance snapshot
    the netting run has no guard: grouping yields zero entities, the average
    divides 0 by 0, and the run ends with [ZeroDivisionError], reported as
    HTTP 500, instead of an empty result with [total_netted_usd = 0]. *)
Theorem run_netting_empty_raises (env : Env) (w : World) :
  db_cash_balances w = [] ->
  exists w', run_netting env w = (w', Raised (HTTP500 ZeroDivisionError)).
Proof.
  intros Hempty. pose proof (run_netting_unfold env w) as H.
  unfold snapshot in H. rewrite Hempty, firstn_nil in H. simpl in H.
  destruct H as (w' & H & _). by exists w'.
Qed.

Lemma run_netting_empty_raises_witness :
  db_cash_balances (Sample.world [] [] [Sample.old_tx] []) = []
  /\ exists w', run_netting Sample.env (Sample.world [] [] [Sample.old_tx] [])
                = (w', Raised (HTTP500 ZeroDivisionError)).
Proof.
  split; [reflexivity |].
  apply (run_netting_empty_raises Sample.env (Sample.world [] [] [Sample.old_tx] [])).
  reflexivity.
Defined.



(** C10. Whatever the store holds, a netting run first deletes every stored
    netting result, then reads the balances, and only then (if it emitted
    anything) inserts: afterwards the stored netting results are exactly the
    transactions of this run, none at all after a run that raised or emitted
    nothing, and old results are never kept until the new ones are ready. *)
Theorem run_netting_replaces_results (env : Env) (w : World) :
  exists w' r,
    run_netting env w = (w', r)
    /\ (exists rest,
          oplog w'
          = (oplog w ++ OpDeleteMany netting_results :: OpFind cash_balances :: rest)%list
          /\ (rest = [] \/ exists n, rest = [OpInsertMany netting_results n]))
    /\ match r with
       | Returned resp =>
           exists txs,
             resp = netting_response (today_iso env) txs
             /\ map nr_tx (db_netting_results w') = txs
             /\ (txs = [] -> db_netting_results w' = [])
       | Raised _ => db_netting_results w' = []
       end.
Proof.
  pose proof (run_netting_unfold env w) as H. cbv zeta in H.
  destruct (float_div _ _) as [avg | e].
  - destruct H as (txs & w' & Hrun & _ & Hdb & Hlog).
    exists w', (Returned (netting_response (today_iso env) txs)).
    split; [exact Hrun |]. split.
    + rewrite Hlog. destruct txs as [| t txs]; simpl; eauto.
    + exists txs. split; [reflexivity |]. split; [exact Hdb |].
      intros ->. by apply map_eq_nil in Hdb.
  - destruct H as (w' & Hrun & Hdb & Hlog).
    exists w', (Raised (HTTP500 e)). split; [exact Hrun |]. split.
    + rewrite Hlog. simpl. eauto.
    + exact Hdb.
Qed.

Lemma run_netting_replaces_results_witness :
  exists w' r rest,
    run_netting Sample.env Scenario.scenario_b = (w', r)
    /\ oplog w'
       = OpDeleteMany netting_results :: OpFind cash_balances :: rest.
Proof.
  destruct (run_netting_replaces_results Sample.env Scenario.scenario_b)
    as (w' & r & Hrun & (rest & Hlog & _) & _).
  exists w', r, rest. split; [exact Hrun | exact Hlog].
Defined.

(** ** Data validation *)

(** Counting with a condition that never raises on the elements of [l]. *)
Lemma count_if_total {A} (cond : A -> outcome bool) (p : A -> bool) (l : list A) :
  Forall (fun x => cond x = Returned (p x)) l ->
  count_if cond l = Returned (length (List.filter p l)).
Proof.
  unfold count_if. intros Hl.
  enough (H : forall acc,
             fold_outcome
               (fun acc x => c ← cond x; Returned (if c : bool then S acc else acc))
               acc l
             = Returned (acc + length (List.filter p l))%nat)
    by apply (H O).
  induction Hl as [| x l Hx Hl IH]; intros acc; simpl.
  - by rewrite Nat.add_0_r.
  - rewrite Hx. simpl. rewrite IH. destruct (p x); simpl; f_equal; lia.
Qed.

Lemma count_if_is_missing bs :
  count_if is_missing bs = Returned (length (List.filter spec_missing bs)).
Proof.
  apply count_if_total, List.Forall_forall. intros b _.
  unfold is_missing, spec_missing. by destruct (balance_local b).
Qed.

(** One record whose [balance_local] is [None] makes the negative-cash count
    raise, wherever it stands in the snapshot. *)
Lemma count_if_is_negative_null bs :
  (exists b, In b bs /\ balance_local b = Null) ->
  count_if is_negative bs = Raised TypeError.
Proof.
  unfold count_if, is_negative. generalize O.
  induction bs as [| b bs IH]; intros acc (b0 & Hin & Hnull); [destruct Hin |].
  simpl. destruct (balance_local b) as [| | x] eqn:Eb; simpl.
  - apply IH. destruct Hin as [-> | Hin]; [congruence | eauto].
  - reflexivity.
  - apply IH. destruct Hin as [-> | Hin]; [congruence | eauto].
Qed.

Lemma count_if_is_negative_ok bs :
  Forall (fun b => balance_local b <> Null) bs ->
  count_if is_negative bs = Returned (length (List.filter spec_negative bs)).
Proof.
  intros Hok. apply count_if_total.
  eapply List.Forall_impl; [| exact Hok]. intros b Hb.
  unfold is_negative, spec_negative. simpl in Hb.
  destruct (balance_local b); [reflexivity | congruence | reflexivity].
Qed.

(** The missing-balance check never raises. *)
Lemma check_missing_returns env today bs logs w :
  exists w' logs', check_missing env today bs logs w = (w', Returned logs').
Proof.
  unfold check_missing. rewrite count_if_is_missing. run_step.
  destruct (0 <? _)%nat; unfold new_ValidationLog, fresh_uuid; run_step; eauto.
Qed.

(** On a snapshot without [None] balances, [validate_data] returns the logs
    of its three checks, in order: missing_balance (High) with the number of
    null-or-zero balances, negative_cash (Medium) with the number of negative
    balances, duplicate (High) with the number of excess pairs. *)
Lemma validate_data_returns env bs w :
  Forall (fun b => balance_local b <> Null) bs ->
  exists w' logs,
    validate_data env bs w = (w', Returned logs)
    /\ map log_core logs
       = (spec_log "missing_balance" "High" (length (List.filter spec_missing bs))
          ++ spec_log "negative_cash" "Medium" (length (List.filter spec_negative bs))
          ++ spec_log "duplicate" "High" (duplicate_count bs))%list.
Proof.
  intros Hok. unfold validate_data, check_missing, check_negative, check_duplicates.
  rewrite count_if_is_missing, (count_if_is_negative_ok bs Hok).
  destruct (length (List.filter spec_missing bs)) as [| m];
    destruct (length (List.filter spec_negative bs)) as [| n];
    destruct (duplicate_count bs) as [| d];
    run_step; do 2 eexists; split; reflexivity.
Qed.

(** C4 (where the code departs from the claim). [validate_data] is not total:
    on any snapshot holding a record whose [balance_local] is [None], the
    negative-cash check compares [None] with [0] and the function leaves with
    [TypeError] instead of returning its logs. *)
Theorem validate_data_raises_on_null (env : Env) (bs : list CashBalance) (w : World) :
  (exists b, In b bs /\ balance_local b = Null) ->
  exists w', validate_data env bs w = (w', Raised TypeError).
Proof.
  intros Hnull. unfold validate_data.
  destruct (check_missing_returns env (now_iso env) bs [] w) as (w1 & logs1 & E1).
  run_step. run_step in E1. rewrite E1.
  unfold check_negative. rewrite (count_if_is_negative_null bs Hnull).
  run_step. eauto.
Qed.

Lemma validate_data_raises_on_null_witness :
  exists w',
    validate_data Sample.env
      [Sample.balance "ACC-1" "2024-05-01" "USD" Null 0 "E1" "AMER"]
      (Sample.world [] [] [] [])
    = (w', Raised TypeError).
Proof.
  apply (validate_data_raises_on_null Sample.env
           [Sample.balance "ACC-1" "2024-05-01" "USD" Null 0 "E1" "AMER"]).
  eexists. split; [left; reflexivity | reflexivity].
Defined.

(** [len(set(l))] is the number of distinct elements of [l]. *)
Lemma size_set_distinct (l : list (string * string)) :
  size (list_to_set l : gset (string * string)) = length (remove_dups l).
Proof.
  rewrite <- (size_list_to_set (C := gset (string * string)) (remove_dups l))
    by apply NoDup_remove_dups.
  f_equal. apply set_eq. intros x.
  by rewrite !elem_of_list_to_set, elem_of_remove_dups.
Qed.

(** A pair that occurs twice among otherwise distinct pairs is counted once
    in the set. *)
Lemma size_set_one_repeat (l1 l2 l3 : list (string * string)) p :
  NoDup (l1 ++ p :: l2 ++ l3) ->
  size (list_to_set (l1 ++ p :: l2 ++ p :: l3) : gset (string * string))
  = length (l1 ++ p :: l2 ++ l3).
Proof.
  intros Hnd.
  rewrite <- (size_list_to_set (C := gset (string * string)) _ Hnd).
  f_equal. apply set_eq. intros x.
  rewrite !elem_of_list_to_set, !elem_of_app, !elem_of_cons, !elem_of_app, !elem_of_cons.
  tauto.
Qed.

Lemma new_ValidationLog_run env date type sev descr n status w :
  new_ValidationLog env date type sev descr n status w
  = (with_uuid_calls (S (uuid_calls w)) w,
     Returned {| vl_id := uuid4 env (uuid_calls w); check_date := date;
                 check_type := type; severity := sev; description := descr;
                 affected_records := n; vl_status := status |}).
Proof. reflexivity. Qed.

(** C9. The duplicate check counts [len(records)] minus the number of distinct
    (account_number, balance_date) pairs, and appends exactly one log
    (type duplicate, severity High, status Open, affected_records = that
    count) if and only if the count is at least 1; two records sharing both
    the account number and the balance date, among records whose pairs are
    otherwise distinct, give a count of exactly 1, however many other
    records there are (records of the same account on other dates
    included). *)
Theorem duplicate_check_counts_excess
  (env : Env) (today : string) (bs : list CashBalance)
  (logs : list ValidationLog) (w : World) :
  let pair_of (b : CashBalance) := (account_number b, balance_date b) in
  let excess := (length bs - length (remove_dups (map pair_of bs)))%nat in
  duplicate_count bs = excess
  /\ (exists w' logs',
        check_duplicates env today bs logs w = (w', Returned logs')
        /\ ((1 <= excess)%nat ->
            exists l, logs' = (logs ++ [l])%list
                      /\ check_type l = "duplicate" /\ severity l = "High"
                      /\ vl_status l = "Open"
                      /\ affected_records l = excess)
        /\ ((excess < 1)%nat -> logs' = logs))
  /\ (forall bs1 b bs2 b' bs3,
        bs = (bs1 ++ b :: bs2 ++ b' :: bs3)%list ->
        account_number b = account_number b' ->
        balance_date b = balance_date b' ->
        NoDup (map pair_of (bs1 ++ b :: bs2 ++ bs3)) ->
        excess = 1%nat).
Proof.
  intros pair_of excess.
  assert (Hcount : duplicate_count bs = excess).
  { unfold duplicate_count. rewrite size_set_distinct.
    unfold account_dates at 1. by rewrite length_map. }
  split; [exact Hcount |]. split.
  - unfold check_duplicates. cbv zeta. rewrite Hcount.
    destruct (0 <? excess)%nat eqn:E.
    + run_step. rewrite new_ValidationLog_run. run_step.
      do 2 eexists. split; [reflexivity |]. split.
      * intros _. eexists. split; [reflexivity |]. by simpl.
      * intros Hlt. apply Nat.ltb_lt in E. lia.
    + run_step. do 2 eexists. split; [reflexivity |]. split.
      * intros Hge. apply Nat.ltb_ge in E. lia.
      * done.
  - intros bs1 b bs2 b' bs3 -> Hacct Hdate Hnd.
    rewrite <- Hcount. unfold duplicate_count, account_dates.
    fold pair_of.
    assert (Hkey : pair_of b' = pair_of b)
      by (unfold pair_of; by rewrite Hacct, Hdate).
    rewrite !map_app in *. cbn [map] in *. rewrite !map_app in *. cbn [map] in *.
    rewrite Hkey.
    rewrite (size_set_one_repeat _ _ _ _ Hnd).
    rewrite !length_app. cbn [length]. rewrite !length_app. cbn [length]. lia.
Qed.

Lemma duplicate_check_counts_excess_witness :
  duplicate_count
    [ Sample.balance "ACC-1" "2024-05-01" "USD" (Present 10) 10 "E1" "AMER";
      Sample.balance "ACC-1" "2024-05-02" "USD" (Present 20) 20 "E1" "AMER";
      Sample.balance "ACC-2" "2024-05-01" "USD" (Present 30) 30 "E2" "EMEA";
      Sample.balance "ACC-1" "2024-05-01" "EUR" (Present 40) 44 "E1" "AMER" ]
  = 1%nat.
Proof.
  pose proof (duplicate_check_counts_excess Sample.env "2024-05-01"
                [ Sample.balance "ACC-1" "2024-05-01" "USD" (Present 10) 10 "E1" "AMER";
                  Sample.balance "ACC-1" "2024-05-02" "USD" (Present 20) 20 "E1" "AMER";
                  Sample.balance "ACC-2" "2024-05-01" "USD" (Present 30) 30 "E2" "EMEA";
                  Sample.balance "ACC-1" "2024-05-01" "EUR" (Present 40) 44 "E1" "AMER" ]
                [] (Sample.world [] [] [] [])) as (Hcount & _ & H).
  rewrite Hcount.
  apply (H []
           (Sample.balance "ACC-1" "2024-05-01" "USD" (Present 10) 10 "E1" "AMER")
           [ Sample.balance "ACC-1" "2024-05-02" "USD" (Present 20) 20 "E1" "AMER";
             Sample.balance "ACC-2" "2024-05-01" "USD" (Present 30) 30 "E2" "EMEA" ]
           (Sample.balance "ACC-1" "2024-05-01" "EUR" (Present 40) 44 "E1" "AMER")
           []).
  - reflexivity.
  - reflexivity.
  - reflexivity.
  - simpl. repeat constructor; rewrite ?elem_of_cons, ?elem_of_nil;
      intros H'; repeat destruct H' as [H' | H']; congruence.
Defined.

(** On a non-empty snapshot, a validation run that returns has replaced the
    stored logs by the ones it reports. *)
Lemma run_validation_nonempty_replaces env w w' resp :
  snapshot w <> [] ->
  run_validation env w = (w', Returned resp) ->
  exists logs,
    db_validation_logs w' = logs
    /\ dict_get "validations" match resp with VDict d => d | _ => [] end
       = Some (VList (map log_value logs)).
Proof.
  unfold snapshot, run_validation, Db.find_cash_balances. run_step.
  rewrite filter_all. intros Hne.
  destruct (firstn limit_10000 (db_cash_balances w)) as [| b bs]; [done |].
  destruct (validate_data env (b :: bs) _) as [w1 [logs | e]]; [| discriminate].
  unfold Db.delete_many_validation_logs, Db.insert_many_validation_logs.
  destruct logs as [| l logs]; intros [= <- <-]; eexists; split; reflexivity.
Qed.

(** C3 (where the code departs from the claim). On an empty snapshot the
    validation run returns before it clears anything: it reports zero issues
    and an empty list of validations, while the logs of the previous run stay
    in the store untouched. *)
Theorem run_validation_empty_keeps_old_logs (env : Env) (w : World) :
  db_cash_balances w = [] ->
  exists w',
    run_validation env w
    = (w', Returned (VDict [ ("status", VStr "success");
                             ("issues_found", VInt 0);
                             ("validations", VList []) ]))
    /\ db_validation_logs w' = db_validation_logs w
    /\ oplog w' = (oplog w ++ [OpFind cash_balances])%list.
Proof.
  intros Hempty. unfold run_validation, Db.find_cash_balances. run_step.
  rewrite Hempty, filter_all, firstn_nil.
  eexists. split; [reflexivity |]. split; reflexivity.
Qed.

Lemma run_validation_empty_keeps_old_logs_witness :
  exists w',
    run_validation Sample.env (Sample.world [] [] [] [Sample.old_log])
    = (w', Returned (VDict [ ("status", VStr "success");
                             ("issues_found", VInt 0);
                             ("validations", VList []) ]))
    /\ db_validation_logs w' = [Sample.old_log].
Proof.
  destruct (run_validation_empty_keeps_old_logs Sample.env
              (Sample.world [] [] [] [Sample.old_log]) eq_refl)
    as (w' & Hrun & Hlogs & _).
  exists w'. split; [exact Hrun | exact Hlogs].
Defined.

(** ** Liquidity positions *)

(** C5 (where the code departs from the claim). With no balances stored, the
    global position is the zero-valued result the claim describes (total 0,
    empty region and currency maps, 0 accounts), and the regional position is
    returned without error with total 0 and empty currencies; but the
    regional result carries no [account_count] at all and gives [entities] as
    an empty list instead of an empty map. *)
Theorem empty_positions (rgn : string) (w : World) :
  db_cash_balances w = [] ->
  (exists w' d,
     get_global_position w = (w', Returned (VDict d))
     /\ dict_get "total_liquidity_usd" d = Some (VInt 0)
     /\ dict_get "by_region" d = Some (VDict [])
     /\ dict_get "by_currency" d = Some (VDict [])
     /\ dict_get "total_accounts" d = Some (VInt 0))
  /\ (exists w' d,
        get_regional_liquidity rgn w = (w', Returned (VDict d))
        /\ dict_get "total_usd" d = Some (VInt 0)
        /\ dict_get "entities" d = Some (VList [])
        /\ dict_get "currencies" d = Some (VDict [])
        /\ dict_get "account_count" d = None).
Proof.
  intros Hempty. split.
  - unfold get_global_position, Db.find_cash_balances. run_step.
    rewrite Hempty, filter_all, firstn_nil.
    do 2 eexists. split; [reflexivity |]. repeat split.
  - unfold get_regional_liquidity, Db.find_cash_balances. run_step.
    rewrite Hempty. cbn [List.filter]. rewrite firstn_nil.
    do 2 eexists. split; [reflexivity |]. repeat split.
Qed.

Lemma empty_positions_witness :
  exists w' d,
    get_regional_liquidity "APAC" (Sample.world [] [] [] [])
    = (w', Returned (VDict d))
    /\ dict_get "account_count" d = None.
Proof.
  destruct (empty_positions "APAC" (Sample.world [] [] [] []) eq_refl)
    as (_ & w' & d & Hrun & _ & _ & _ & Hcount).
  exists w', d. split; [exact Hrun | exact Hcount].
Defined.

(** ** Currency conversion *)

(** C8. The rate lookup always returns: 1 when the two currencies are the
    same; otherwise the rate of the first stored document for the pair
    "from/to" when there is one; otherwise the rate of the fixed table of
    seven default pairs; otherwise 1.  Hence converting an amount from a
    currency into itself gives the amount back. *)
Theorem fx_rate_lookup (from_currency to_currency : string) (w : World) :
  let pair := from_currency +:+ "/" +:+ to_currency in
  let stored := List.find (fun d => String.eqb (currency_pair d) pair) (db_fx_rates w) in
  (exists w' r,
     get_fx_rate from_currency to_currency w = (w', Returned r)
     /\ (from_currency = to_currency -> r = 1)
     /\ (from_currency <> to_currency ->
         forall d, stored = Some d -> r = rate d)
     /\ (from_currency <> to_currency -> stored = None ->
         forall x, ODict.get pair default_rates = Some x -> r = x)
     /\ (from_currency <> to_currency -> stored = None ->
         ODict.get pair default_rates = None -> r = 1))
  /\ map fst default_rates
     = ["EUR/USD"; "GBP/USD"; "SGD/USD"; "JPY/USD"; "CNY/USD"; "INR/USD"; "AUD/USD"]
  /\ (forall amount,
        exists w' r,
          convert amount from_currency from_currency w = (w', Returned r)
          /\ r == amount).
Proof.
  intros pair stored. split; [| split].
  - unfold get_fx_rate. fold pair.
    destruct (String.eqb from_currency to_currency) eqn:E.
    + apply String.eqb_eq in E. run_step. do 2 eexists.
      split; [reflexivity |]. repeat split; intros; congruence.
    + apply String.eqb_neq in E. unfold Db.find_one_fx_rates. run_step.
      fold stored. unfold ODict.get_default.
      destruct stored as [d |]; [| destruct (ODict.get pair default_rates)];
        do 2 eexists; (split; [reflexivity |]);
        repeat split; intros; congruence.
  - reflexivity.
  - intros amount. unfold convert, get_fx_rate. rewrite String.eqb_refl.
    run_step. do 2 eexists. split; [reflexivity |]. ring.
Qed.

Lemma fx_rate_lookup_witness :
  exists w' r,
    get_fx_rate "EUR" "USD" (Sample.world [] [] [] []) = (w', Returned r)
    /\ r = 110 # 100.
Proof.
  destruct (fx_rate_lookup "EUR" "USD" (Sample.world [] [] [] []))
    as ((w' & r & Hrun & _ & _ & Hdefault & _) & _ & _).
  exists w', r. split; [exact Hrun |].
  apply Hdefault; [discriminate | reflexivity | reflexivity].
Defined.

(** ** Cash pooling *)

Lemma round_half_even_wd (x y : Q) :
  x == y -> Num.round_half_even x = Num.round_half_even y.
Proof.
  intros H. unfold Num.round_half_even.
  assert (Hf : Qfloor x = Qfloor y) by (by rewrite H).
  rewrite Hf.
  assert (Hc : Qcompare (x - inject_Z (Qfloor y)) (1 # 2)
               = Qcompare (y - inject_Z (Qfloor y)) (1 # 2)) by (by rewrite H).
  by rewrite Hc.
Qed.

(** [round(x, 2)] depends on the value of [x] only. *)
Lemma round2_wd (x y : Q) : x == y -> Num.round2 x = Num.round2 y.
Proof.
  intros H. unfold Num.round2.
  rewrite (round_half_even_wd (x * 100) (y * 100)); [reflexivity |].
  by rewrite H.
Qed.

Lemma max_nat_max (a b : nat) : Num.max_nat a b = Nat.max a b.
Proof. unfold Num.max_nat. destruct (Nat.ltb_spec a b); lia. Qed.

Lemma pool_status_entry_run pool w :
  exists entry,
    pool_status_entry pool w = (log_op (OpFind cash_balances) w, Returned entry)
    /\ pool_entry_ok w pool entry.
Proof.
  unfold pool_status_entry, Db.find_cash_balances. run_step.
  fold (pool_balances w pool).
  rewrite float_div_returns by (rewrite max_nat_max; lia).
  eexists. split; [reflexivity |].
  unfold pool_entry_ok. cbv zeta. eexists. split; [reflexivity |].
  cbn [dict_get String.eqb Ascii.eqb Bool.eqb].
  set (count := length (pool_balances w pool)).
  set (size := length (participant_accounts pool)).
  rewrite num_min_eq, max_nat_max.
  split; [reflexivity |]. split; [reflexivity |].
  split; [| split].
  - destruct (Nat.ltb_spec 0 count); split; intros; try done; try lia.
  - intros ->. reflexivity.
  - intros Hs Hc. rewrite Hs, Hc. split; [vm_compute |]; reflexivity.
Qed.

Lemma pool_status_loop (pools : list CashPool) : forall acc w,
  exists w' entries,
    foldM (fun acc pool => entry ← pool_status_entry pool; mret (acc ++ [entry])%list)
      acc pools w
    = (w', Returned (acc ++ entries)%list)
    /\ db_cash_balances w' = db_cash_balances w
    /\ Forall2 (pool_entry_ok w) pools entries.
Proof.
  induction pools as [| pool pools IH]; intros acc w; simpl.
  - exists w, []. run_step. rewrite app_nil_r. repeat split. constructor.
  - destruct (pool_status_entry_run pool w) as (entry & E & Hok).
    destruct (IH (acc ++ [entry])%list (log_op (OpFind cash_balances) w))
      as (w' & entries & E' & Hdb & Hall).
    exists w', (entry :: entries). split; [| split].
    + run_step. rewrite E. run_step in E'. rewrite E'.
      by rewrite <- app_assoc.
    + exact Hdb.
    + constructor; [exact Hok |].
      eapply List.Forall2_impl; [| exact Hall].
      intros p e H. exact H.
Qed.

(** The query of the pool handlers selects the records whose account number
    is one of the participant accounts. *)
Lemma in_pool_spec pool b :
  in_pool pool b = bool_decide (account_number b ∈ participant_accounts pool).
Proof.
  unfold in_pool. destruct (existsb _ _) eqn:E; symmetry.
  - apply bool_decide_eq_true, list_elem_of_In, existsb_eqb_elem, E.
  - apply bool_decide_eq_false. intros H.
    apply list_elem_of_In, existsb_eqb_elem in H. congruence.
Qed.

Lemma pool_balances_records w pool : pool_balances w pool = pool_records w pool.
Proof.
  unfold pool_balances, pool_records. f_equal.
  apply List.filter_ext. intros b. apply in_pool_spec.
Qed.

Lemma accounts_with_balance_elem w pool a :
  In a (accounts_with_balance w pool)
  <-> In a (participant_accounts pool)
      /\ exists b, In b (db_cash_balances w) /\ account_number b = a.
Proof.
  unfold accounts_with_balance. rewrite List.filter_In, existsb_exists.
  split; intros [Ha (b & Hb & E)]; (split; [exact Ha |]); exists b;
    (split; [exact Hb |]).
  - by apply String.eqb_eq.
  - by apply String.eqb_eq.
Qed.

Lemma pool_matching_elem w pool a :
  In a (map account_number
          (List.filter
             (fun b => bool_decide (account_number b ∈ participant_accounts pool))
             (db_cash_balances w)))
  <-> In a (accounts_with_balance w pool).
Proof.
  rewrite accounts_with_balance_elem, in_map_iff. split.
  - intros (b & <- & Hb). apply List.filter_In in Hb as [Hb Hin].
    apply bool_decide_eq_true, list_elem_of_In in Hin. eauto.
  - intros (Ha & b & Hb & <-). exists b. split; [reflexivity |].
    apply List.filter_In. split; [exact Hb |].
    by apply bool_decide_eq_true, list_elem_of_In.
Qed.

(** When no account has two balance records, the records found for a pool
    are as many as its accounts with a balance. *)
Lemma pool_matching_count w pool :
  NoDup (participant_accounts pool) ->
  NoDup (map account_number
           (List.filter
              (fun b => bool_decide (account_number b ∈ participant_accounts pool))
              (db_cash_balances w))) ->
  length (List.filter
            (fun b => bool_decide (account_number b ∈ participant_accounts pool))
            (db_cash_balances w))
  = length (accounts_with_balance w pool).
Proof.
  intros Hacc Hrec. rewrite <- (length_map account_number).
  apply Permutation_length, NoDup_Permutation.
  - exact Hrec.
  - unfold accounts_with_balance.
    by apply NoDup_ListNoDup, List.NoDup_filter, NoDup_ListNoDup.
  - intros a. rewrite !list_elem_of_In. apply pool_matching_elem.
Qed.

Lemma firstn_limit_nonempty {A} (l : list A) :
  (0 < length (firstn limit_1000 l))%nat <-> l <> [].
Proof.
  destruct l as [| x l].
  - rewrite firstn_nil. simpl. split; [lia | done].
  - unfold limit_1000. change (N.to_nat 1000) with (S (N.to_nat 999)).
    cbn [firstn length]. split; [done | lia].
Qed.

(** C7, as amended. For every pool of the store, the pool status counts the
    balance records whose account number is one of the pool's participant
    accounts, every date included, and reports the efficiency
    [min(100, count / max(1, len(participant_accounts)) * 100)] (rounded to
    two decimals in the response) and the state Active exactly when the count
    is positive, that is when some participant account has a balance.  The
    count is the number of participant accounts with a balance when no
    account has more than one balance record; then a pool with 3 participant
    accounts of which 2 have a balance gets efficiency 66.67 and state
    Active. *)
Theorem pool_status_efficiency (w : World) :
  let pools := firstn limit_1000 (db_cash_pools w) in
  exists w' entries,
    get_cash_pool_status w
    = (w', Returned (VDict [ ("pools", VList entries);
                             ("total_pools", VInt (Z.of_nat (length pools))) ]))
    /\ Forall2
         (fun pool entry =>
            let matching :=
              List.filter
                (fun b => bool_decide (account_number b ∈ participant_accounts pool))
                (db_cash_balances w) in
            let count := length (firstn limit_1000 matching) in
            let size := length (participant_accounts pool) in
            let with_balance := length (accounts_with_balance w pool) in
            exists d,
              entry = VDict d
              /\ dict_get "participants" d = Some (VInt (Z.of_nat count))
              /\ dict_get "efficiency" d
                 = Some (VNum (Num.round2
                                 (Qmin 100
                                    (B64.mul (B64.div (Num.of_nat count)
                                                (Num.of_nat (Nat.max 1 size)))
                                       100))))
              /\ (dict_get "status" d = Some (VStr "Active") <-> (0 < count)%nat)
              /\ (dict_get "status" d = Some (VStr "Inactive") <-> count = O)
              /\ ((0 < count)%nat <-> (0 < with_balance)%nat)
              /\ (NoDup (participant_accounts pool) ->
                  (size <= limit_1000)%nat ->
                  NoDup (map account_number matching) ->
                  count = with_balance
                  /\ (size = 3%nat -> with_balance = 2%nat ->
                      dict_get "efficiency" d = Some (VNum (6667 # 100))
                      /\ dict_get "status" d = Some (VStr "Active"))))
         pools entries.
Proof.
  intros pools. unfold get_cash_pool_status, Db.find_cash_pools. run_step.
  fold pools.
  destruct (pool_status_loop pools [] (log_op (OpFind cash_pools) w))
    as (w' & entries & E & _ & Hall).
  run_step in E. rewrite E. exists w', entries. split; [reflexivity |].
  eapply List.Forall2_impl; [| exact Hall].
  intros pool entry (d & -> & Hpart & Heff & Hact & Hinact & Hthree).
  change (pool_balances (log_op (OpFind cash_pools) w) pool)
    with (pool_balances w pool) in *.
  rewrite pool_balances_records in *. unfold pool_records in *.
  cbv zeta.
  set (matching := List.filter _ (db_cash_balances w)) in *.
  set (count := length (firstn limit_1000 matching)) in *.
  assert (Hsome : (0 < count)%nat <-> (0 < length (accounts_with_balance w pool))%nat).
  { unfold count. rewrite firstn_limit_nonempty. split.
    - intros Hne. destruct matching as [| b m] eqn:Hm; [done |].
      assert (Hin : In (account_number b) (map account_number matching))
        by (rewrite Hm; left; reflexivity).
      apply pool_matching_elem in Hin.
      destruct (accounts_with_balance w pool); [destruct Hin | simpl; lia].
    - intros Hpos Hnil.
      destruct (accounts_with_balance w pool) as [| a l] eqn:Ha; [simpl in Hpos; lia |].
      assert (Hin : In a (accounts_with_balance w pool))
        by (rewrite Ha; left; reflexivity).
      apply pool_matching_elem in Hin. fold matching in Hin.
      rewrite Hnil in Hin. destruct Hin. }
  exists d. split; [reflexivity |]. split; [exact Hpart |]. split; [exact Heff |].
  split; [exact Hact |]. split; [| split; [exact Hsome |]].
  - split; [| exact Hinact]. intros Hst.
    destruct count as [| n]; [reflexivity |].
    assert (Ha : dict_get "status" d = Some (VStr "Active")) by (apply Hact; lia).
    rewrite Hst in Ha. discriminate Ha.
  - intros Hacc Hsize Hrec.
    assert (Hcount : count = length (accounts_with_balance w pool)).
    { assert (Hm : length matching = length (accounts_with_balance w pool))
        by (by apply pool_matching_count).
      unfold count. rewrite firstn_all2; [exact Hm |].
      rewrite Hm. etransitivity; [| exact Hsize].
      unfold accounts_with_balance. apply List.filter_length_le. }
    split; [exact Hcount |]. intros H3 H2. apply Hthree; [exact H3 |].
    by rewrite Hcount.
Qed.

Lemma pool_status_efficiency_witness :
  exists w' d,
    get_cash_pool_status Scenario.scenario_c_outsider
    = (w', Returned (VDict [ ("pools", VList [VDict d]); ("total_pools", VInt 1) ]))
    /\ dict_get "participants" d = Some (VInt 2)
    /\ dict_get "efficiency" d = Some (VNum (6667 # 100))
    /\ dict_get "status" d = Some (VStr "Active").
Proof.
  destruct (pool_status_efficiency Scenario.scenario_c_outsider)
    as (w' & entries & Hrun & Hall).
  change (firstn limit_1000 (db_cash_pools Scenario.scenario_c_outsider))
    with [Scenario.pool_abc] in Hall, Hrun.
  inversion Hall as [| p e ps es Hok Hnil]; subst.
  inversion Hnil; subst.
  destruct Hok as (d & -> & Hpart & _ & _ & _ & _ & Hspec).
  exists w', d. split; [exact Hrun |]. split; [exact Hpart |].
  apply Hspec.
  - vm_compute. repeat constructor; rewrite ?elem_of_cons, ?elem_of_nil;
      intros H'; repeat destruct H' as [H' | H']; congruence.
  - vm_compute. lia.
  - vm_compute. repeat constructor; rewrite ?elem_of_cons, ?elem_of_nil;
      intros H'; repeat destruct H' as [H' | H']; congruence.
  - reflexivity.
  - reflexivity.
Defined.

(** C7, as stated, fails: with participant accounts A, B and C, two balance
    records for A (two days) and one for B, two of the three accounts have a
    balance, yet the status counts three participants and reports efficiency
    100 instead of 66.67. *)
Lemma pool_status_as_specified_counterexample :
  ~ pool_status_as_specified Scenario.scenario_c_two_dates.
Proof.
  intros (w' & entries & Hrun & Hall).
  vm_compute in Hrun. injection Hrun as _ <-.
  inversion Hall as [| p e ps es Hok Hnil]; subst.
  destruct Hok as (d & [= <-] & Heff & _).
  vm_compute in Heff. discriminate Heff.
Qed.

Lemma sum_cons (x : Q) (l : list Q) : Num.sum (x :: l) == x + Num.sum l.
Proof.
  unfold Num.sum. simpl.
  enough (H : forall a b, fold_left Qplus l (a + b) == b + fold_left Qplus l a)
    by apply H.
  induction l as [| y l IH]; intros a b; simpl; [ring |].
  rewrite <- IH. assert (E : a + b + y == a + y + b) by ring.
  clear IH. revert E. generalize (a + b + y), (a + y + b).
  induction l as [| z l IH]; intros p q E; simpl; [exact E |].
  apply IH. by rewrite E.
Qed.

Lemma of_nat_S (n : nat) : Num.of_nat (S n) == Num.of_nat n + 1.
Proof. unfold Num.of_nat. by rewrite Nat2Z.inj_succ, <- Z.add_1_r, inject_Z_plus. Qed.

Lemma of_nat_nonneg (n : nat) : 0 <= Num.of_nat n.
Proof.
  unfold Num.of_nat. change 0 with (inject_Z 0). rewrite <- Zle_Qle. lia.
Qed.


Lemma of_nat_le (a b : nat) : (a <= b)%nat -> Num.of_nat a <= Num.of_nat b.
Proof. intros H. unfold Num.of_nat. rewrite <- Zle_Qle. lia. Qed.


(** *** Rounding error of float sums *)

Lemma sum_abs_nonneg (l : list Q) : 0 <= Num.sum (map Qabs l).
Proof.
  induction l as [| x l IH]; [discriminate |].
  simpl map. rewrite sum_cons. pose proof (Qabs_nonneg x). lra.
Qed.

Lemma sum_abs_bound (l : list Q) : Qabs (Num.sum l) <= Num.sum (map Qabs l).
Proof.
  induction l as [| x l IH]; [discriminate |].
  simpl map. rewrite !sum_cons. pose proof (Qabs_triangle x (Num.sum l)). lra.
Qed.

Lemma of_nat_limit (k : nat) : (k <= limit_1000)%nat -> Num.of_nat k <= 1000.
Proof. intros H. apply of_nat_le in H. exact H. Qed.

(** The running float sum [s] of a prefix, compared with its exact sum [t]:
    after [k] additions the two differ by at most [2 * k * eps] times the
    sum [a] of the magnitudes added so far. *)
Lemma float_sum_error_from (l : list Q) : forall (k : nat) (s t a : Q),
  Qabs (s - t) <= 2 * Num.of_nat k * B64.eps * a ->
  Qabs t <= a ->
  (k + length l <= limit_1000)%nat ->
  Qabs (fold_left B64.add l s - (t + Num.sum l))
  <= 2 * Num.of_nat (k + length l) * B64.eps * (a + Num.sum (map Qabs l)).
Proof.
  induction l as [| x l IH]; intros k s t a Hs Ht Hk.
  - cbn [fold_left length map]. rewrite Nat.add_0_r.
    change (Num.sum []) with 0.
    assert (E : s - (t + 0) == s - t) by ring.
    assert (E' : a + 0 == a) by ring.
    rewrite E, E'. exact Hs.
  - cbn [fold_left length map] in *.
    assert (Hk1 : Num.of_nat k <= 1000) by (apply of_nat_limit; lia).
    pose proof (of_nat_nonneg k) as Hk0.
    pose proof (Qabs_nonneg x) as Hx.
    pose proof (Qabs_nonneg t) as Ht0.
    assert (Ht' : Qabs (t + x) <= a + Qabs x).
    { pose proof (Qabs_triangle t x). lra. }
    assert (Hs' : Qabs (B64.add s x - (t + x))
                  <= 2 * Num.of_nat (S k) * B64.eps * (a + Qabs x)).
    { unfold B64.add. pose proof (round_error (s + x)) as Hr.
      assert (Hsx : Qabs (s + x) <= a + Qabs x + Qabs (s - t)).
      { assert (E : s + x == (t + x) + (s - t)) by ring.
        rewrite E. pose proof (Qabs_triangle (t + x) (s - t)). lra. }
      assert (Hd : Qabs (B64.round (s + x) - (t + x))
                   <= Qabs (B64.round (s + x) - (s + x)) + Qabs (s - t)).
      { assert (E : B64.round (s + x) - (t + x)
                    == (B64.round (s + x) - (s + x)) + (s - t)) by ring.
        rewrite E. apply Qabs_triangle. }
      rewrite of_nat_S. unfold B64.eps in *.
      pose proof (Qabs_nonneg (s - t)).
      pose proof (Qabs_nonneg (s + x)).
      nra. }
    specialize (IH (S k) (B64.add s x) (t + x) (a + Qabs x) Hs' Ht' ltac:(lia)).
    rewrite sum_cons.
    assert (E1 : t + (x + Num.sum l) == t + x + Num.sum l) by ring.
    assert (E2 : a + (Qabs x + Num.sum (map Qabs l))
                 == a + Qabs x + Num.sum (map Qabs l)) by ring.
    rewrite sum_cons, E1, E2.
    replace (k + S (length l))%nat with (S k + length l)%nat by lia.
    exact IH.
Qed.

(** A float sum of at most 1000 numbers differs from the exact sum by at
    most [2 * n * eps] times the sum of the magnitudes. *)
Lemma float_sum_error (l : list Q) :
  (length l <= limit_1000)%nat ->
  Qabs (B64.sum l - Num.sum l)
  <= 2 * Num.of_nat (length l) * B64.eps * Num.sum (map Qabs l).
Proof.
  intros Hlen.
  pose proof (float_sum_error_from l O 0 0 0) as H.
  assert (E1 : 0 + Num.sum l == Num.sum l) by ring.
  assert (E2 : 0 + Num.sum (map Qabs l) == Num.sum (map Qabs l)) by ring.
  rewrite E1, E2 in H. apply H; [discriminate | discriminate | exact Hlen].
Qed.

Lemma of_nat_pos (n : nat) : n <> O -> 1 <= Num.of_nat n.
Proof.
  intros H. destruct n as [| n]; [done |]. rewrite of_nat_S.
  pose proof (of_nat_nonneg n). lra.
Qed.

(** The float average of at most 1000 numbers, times their number, differs
    from their exact sum by at most [(2 * n + 2) * eps] times the sum of the
    magnitudes. *)
Lemma float_mean_error (l : list Q) :
  l <> [] -> (length l <= limit_1000)%nat ->
  let n := Num.of_nat (length l) in
  let avg := B64.div (B64.sum l) n in
  Qabs (B64.sum l) <= 2 * Num.sum (map Qabs l)
  /\ Qabs (n * avg - B64.sum l) <= B64.eps * Qabs (B64.sum l)
  /\ Qabs (n * avg - Num.sum l) <= (2 * n + 2) * B64.eps * Num.sum (map Qabs l).
Proof.
  intros Hne Hlen n avg.
  assert (Hn1 : 1 <= n).
  { apply of_nat_pos. intros E. apply length_zero_iff_nil in E. contradiction. }
  assert (Hn2 : n <= 1000) by (apply of_nat_limit; exact Hlen).
  pose proof (float_sum_error l Hlen) as HT. fold n in HT.
  pose proof (sum_abs_bound l) as HS.
  pose proof (sum_abs_nonneg l) as HA.
  set (T := B64.sum l) in *. set (A := Num.sum (map Qabs l)) in *.
  assert (HTabs : Qabs T <= Qabs (Num.sum l) + Qabs (T - Num.sum l)).
  { assert (E : T == Num.sum l + (T - Num.sum l)) by ring.
    rewrite E at 1. apply Qabs_triangle. }
  assert (Havg : Qabs (n * avg - T) <= B64.eps * Qabs T).
  { unfold avg, B64.div. pose proof (round_error (T / n)) as Hr.
    assert (E : n * B64.round (T / n) - T == n * (B64.round (T / n) - T / n))
      by (field; lra).
    rewrite E, Qabs_Qmult, (Qabs_pos n) by lra.
    assert (E' : Qabs (T / n) == Qabs T / n).
    { unfold Qdiv. rewrite Qabs_Qmult. rewrite (Qabs_pos (/ n)); [reflexivity |].
      apply Qlt_le_weak, Qinv_lt_0_compat. lra. }
    rewrite E' in Hr.
    assert (E'' : B64.eps * (Qabs T / n) * n == B64.eps * Qabs T) by (field; lra).
    pose proof (Qabs_nonneg (B64.round (T / n) - T / n)).
    nra. }
  unfold B64.eps in *.
  pose proof (Qabs_nonneg T).
  split; [nra |]. split; [exact Havg |].
  assert (E : n * avg - Num.sum l == (n * avg - T) + (T - Num.sum l)) by ring.
  rewrite E. pose proof (Qabs_triangle (n * avg - T) (T - Num.sum l)).
  nra.
Qed.



(** *** Pool calculations *)

Lemma dicts_of_participants avg bs :
  dicts_of (Some (VList (map (participant_entry avg) bs)))
  = map (fun b => [ ("account", VStr (account_number b));
                    ("entity", VStr (entity_code b));
                    ("balance_usd", VNum (balance_usd b));
                    ("variance_from_avg",
                     VNum (Num.round2 (B64.sub (balance_usd b) avg)));
                    ("status", VStr (if Num.ltb 0 (B64.sub (balance_usd b) avg)
                                     then "Surplus" else "Deficit")) ]) bs.
Proof. unfold dicts_of. rewrite map_map. reflexivity. Qed.

(** A pool calculation over a pool with balances: what it returns. *)
Lemma pooling_run env rgn w pool :
  List.find (fun p => String.eqb (pool_region p) rgn) (db_cash_pools w) = Some pool ->
  pool_balances w pool <> [] ->
  let bs := pool_balances w pool in
  let total := B64.sum (map balance_usd bs) in
  let avg := B64.div total (Num.of_nat (length bs)) in
  calculate_cash_pooling env rgn w
  = (log_op (OpFind cash_balances) (log_op (OpFindOne cash_pools) w),
     Returned (VDict [ ("pool_name", VStr (pool_name pool));
                       ("pool_type", VStr (pool_type pool));
                       ("total_pooled_usd", VNum (Num.round2 total));
                       ("average_balance", VNum (Num.round2 avg));
                       ("participants", VList (map (participant_entry avg) bs));
                       ("calculation_date", VStr (now_iso env)) ])).
Proof.
  intros Hpool Hne. cbv zeta.
  unfold calculate_cash_pooling, Db.find_one_cash_pools, Db.find_cash_balances.
  run_step. cbn [db_cash_pools log_op]. rewrite Hpool.
  cbn [db_cash_balances log_op]. fold (pool_balances w pool).
  destruct (pool_balances w pool) as [| b0 bs0]; [done |].
  by rewrite float_div_returns.
Qed.

Lemma pool_records_length w pool : (length (pool_records w pool) <= limit_1000)%nat.
Proof. unfold pool_records. apply firstn_le_length. Qed.




(** * Further properties of the handlers *)

(** ** Grouping balances by a key *)


Section Grouped.

Context {A : Type} (key : A -> string) (val : A -> Q).



(** The sum recorded for a key is the sum over the records with that key. *)
Lemma grouped_lookup xs k :
  ODict.get_default k 0 (grouped key val xs)
  == Num.sum (map val (List.filter (fun x => String.eqb (key x) k) xs)).
Proof.
  unfold grouped.
  enough (H : forall d : ODict.t,
             ODict.get_default k 0
               (fold_left (fun d x => ODict.add (key x) (val x) d) xs d)
             == ODict.get_default k 0 d
                + Num.sum (map val (List.filter (fun x => String.eqb (key x) k) xs))).
  { rewrite H. unfold ODict.get_default. simpl. ring. }
  induction xs as [| x xs IH]; intros d; simpl.
  - unfold Num.sum. simpl. ring.
  - rewrite IH. unfold ODict.add, ODict.get_default at 1.
    destruct (String.eqb (key x) k) eqn:E.
    + apply String.eqb_eq in E. subst k. rewrite odict_get_set_eq.
      simpl map. rewrite sum_cons. ring.
    + apply String.eqb_neq in E. rewrite odict_get_set_ne by congruence.
      fold (ODict.get_default k 0 d). ring.
Qed.



End Grouped.

(** Two entries of a dictionary with the same key are the same entry. *)
Lemma NoDup_keys_inj (d : ODict.t) a b :
  NoDup (map fst d) -> In a d -> In b d -> fst a = fst b -> a = b.
Proof.
  induction d as [| x d IH]; intros Hnd Ha Hb E; [destruct Ha |].
  simpl in Hnd. apply NoDup_cons in Hnd as [Hx Hnd].
  destruct Ha as [-> | Ha], Hb as [-> | Hb]; [done | | |].
  - exfalso. apply Hx. rewrite E. apply list_elem_of_In, in_map, Hb.
  - exfalso. apply Hx. rewrite <- E. apply list_elem_of_In, in_map, Ha.
  - by apply IH.
Qed.

Lemma in_firstn {A} (x : A) n l : In x (firstn n l) -> In x l.
Proof.
  intros H. rewrite <- (firstn_skipn n l). apply in_or_app. by left.
Qed.

(** ** Liquidity positions on stored balances *)


Lemma group_local_raises bs :
  ~ Forall has_local bs ->
  exists e, group_local bs = Raised e
            /\ (e = TypeError \/ e = KeyError "balance_local").
Proof.
  unfold group_local. generalize ([] : ODict.t).
  induction bs as [| b bs IH]; intros d Hnot; [by destruct Hnot |].
  cbn [fold_outcome].
  destruct (balance_local b) as [| | x] eqn:Hb.
  - exists (KeyError "balance_local"). split; [| by right].
    assert (Hs : local_summand b = Raised (KeyError "balance_local"))
      by (unfold local_summand; by rewrite Hb).
    by rewrite Hs.
  - exists TypeError. split; [| by left].
    assert (Hs : local_summand b = Raised TypeError)
      by (unfold local_summand; by rewrite Hb).
    by rewrite Hs.
  - assert (Hs : local_summand b = Returned x)
      by (unfold local_summand; by rewrite Hb).
    rewrite Hs. cbn [mbind outcome_bind].
    apply IH. intros Hall. apply Hnot. constructor; [by exists x | exact Hall].
Qed.



(** X2. One record without a numeric [balance_local] makes both position
    handlers fail: the per-currency loop raises [KeyError] (key absent) or
    [TypeError] ([None] in the addition), reported as HTTP 500, and nothing
    of the position is returned. *)
Theorem positions_fail_without_numeric_local (w : World) (rgn : string) :
  (~ Forall has_local (snapshot w) ->
   exists w' e,
     get_global_position w = (w', Raised (HTTP500 e))
     /\ (e = TypeError \/ e = KeyError "balance_local"))
  /\ (~ Forall has_local (region_snapshot w rgn) ->
      exists w' e,
        get_regional_liquidity rgn w = (w', Raised (HTTP500 e))
        /\ (e = TypeError \/ e = KeyError "balance_local")).
Proof.
  split; intros Hnot.
  - unfold get_global_position, Db.find_cash_balances. run_step.
    rewrite filter_all. fold (snapshot w).
    destruct (snapshot w) as [| b0 bs0] eqn:Hbs; [by destruct Hnot |].
    destruct (group_local_raises _ Hnot) as (e & -> & He). eauto.
  - unfold get_regional_liquidity, Db.find_cash_balances. run_step.
    fold (region_snapshot w rgn).
    destruct (region_snapshot w rgn) as [| b0 bs0] eqn:Hbs; [by destruct Hnot |].
    destruct (group_local_raises _ Hnot) as (e & -> & He). eauto.
Qed.

Lemma positions_fail_without_numeric_local_witness :
  exists w',
    get_global_position Cases.with_null = (w', Raised (HTTP500 TypeError)).
Proof.
  destruct (positions_fail_without_numeric_local Cases.with_null "AMER")
    as (Hglobal & _).
  destruct Hglobal as (w' & e & Hrun & _).
  - vm_compute. intros H. inversion H as [| ? ? _ H2]; subst.
    inversion H2 as [| ? ? (x & Hx) _]; subst. discriminate Hx.
  - exists w'. rewrite Hrun. vm_compute in Hrun.
    injection Hrun as _ <-. reflexivity.
Defined.



(** ** What the handlers leave untouched *)

#[global] Instance same_data_preorder : PreOrder same_data.
Proof.
  split.
  - intros w. repeat split.
  - intros w1 w2 w3 (?&?&?&?&?) (?&?&?&?&?). repeat split; congruence.
Qed.

#[global] Instance same_but_netting_preorder : PreOrder same_but_netting.
Proof.
  split.
  - intros w. repeat split.
  - intros w1 w2 w3 (?&?&?&?) (?&?&?&?). repeat split; congruence.
Qed.

#[global] Instance same_but_validation_preorder : PreOrder same_but_validation.
Proof.
  split.
  - intros w. repeat split.
  - intros w1 w2 w3 (?&?&?&?) (?&?&?&?). repeat split; congruence.
Qed.

Section Keeps.

Context (R : World -> World -> Prop) `{!PreOrder R}.

Lemma keeps_ret {A} (a : A) : keeps R (mret a).
Proof. intros w. reflexivity. Qed.

Lemma keeps_raise {A} (e : pyexn) : keeps R (@raise A e).
Proof. intros w. reflexivity. Qed.

Lemma keeps_lift {A} (o : outcome A) : keeps R (lift o).
Proof. intros w. reflexivity. Qed.

Lemma keeps_bind {A B} (m : M A) (f : A -> M B) :
  keeps R m -> (forall a, keeps R (f a)) -> keeps R (mbind f m).
Proof.
  intros Hm Hf w. specialize (Hm w). run_step.
  destruct (m w) as [w1 [a | e]]; simpl in *; [| exact Hm].
  etransitivity; [exact Hm | apply Hf].
Qed.

Lemma keeps_try {A} (m : M A) : keeps R m -> keeps R (try_500 m).
Proof.
  intros Hm w. specialize (Hm w). unfold try_500.
  by destruct (m w) as [w1 [a | e]].
Qed.

Lemma keeps_foldM {A B} (f : B -> A -> M B) (l : list A) :
  (forall acc x, keeps R (f acc x)) -> forall acc, keeps R (foldM f acc l).
Proof.
  intros Hf. induction l as [| x l IH]; intros acc; simpl.
  - apply (keeps_ret acc).
  - apply keeps_bind; [apply Hf | intros acc'; apply IH].
Qed.

End Keeps.

Lemma keeps_weaken (R R' : World -> World -> Prop) {A} (m : M A) :
  (forall w w', R w w' -> R' w w') -> keeps R m -> keeps R' m.
Proof. intros HR Hm w. apply HR, Hm. Qed.

Lemma same_data_but_netting w w' : same_data w w' -> same_but_netting w w'.
Proof. intros (?&?&?&?&?). by repeat split. Qed.

Lemma same_data_but_validation w w' : same_data w w' -> same_but_validation w w'.
Proof. intros (?&?&?&?&?). by repeat split. Qed.

Lemma keeps_find_cash_balances q n : keeps same_data (Db.find_cash_balances q n).
Proof. intros w. by repeat split. Qed.

Lemma keeps_find_cash_pools n : keeps same_data (Db.find_cash_pools n).
Proof. intros w. by repeat split. Qed.

Lemma keeps_find_one_cash_pools q : keeps same_data (Db.find_one_cash_pools q).
Proof. intros w. by repeat split. Qed.

Lemma keeps_find_one_fx_rates q : keeps same_data (Db.find_one_fx_rates q).
Proof. intros w. by repeat split. Qed.

Lemma keeps_find_netting_results n : keeps same_data (find_netting_results n).
Proof. intros w. by repeat split. Qed.

Lemma keeps_find_validation_logs n : keeps same_data (find_validation_logs n).
Proof. intros w. by repeat split. Qed.

Lemma keeps_fresh_uuid env : keeps same_data (fresh_uuid env).
Proof. intros w. by repeat split. Qed.

Lemma keeps_random_choice env l : keeps same_data (random_choice env l).
Proof. intros w. by repeat split. Qed.

(** Decompose a handler into its steps and discharge each one. *)
Ltac keeps_steps :=
  repeat first
    [ apply keeps_try
    | apply keeps_bind; [typeclasses eauto | | intros ?]
    | apply keeps_ret; typeclasses eauto
    | apply keeps_raise; typeclasses eauto
    | apply keeps_lift; typeclasses eauto
    | apply keeps_foldM; [typeclasses eauto | intros ? ?]
    | apply keeps_find_cash_balances
    | apply keeps_find_cash_pools
    | apply keeps_find_one_cash_pools
    | apply keeps_find_one_fx_rates
    | apply keeps_find_netting_results
    | apply keeps_find_validation_logs
    | apply keeps_fresh_uuid
    | apply keeps_random_choice
    | match goal with
      | |- keeps _ (match ?x with _ => _ end) => destruct x
      | |- keeps _ (if ?x then _ else _) => destruct x
      end ].

(** X4. The reading handlers never change what is stored: whatever they
    return or raise, the five collections are afterwards what they were
    (this includes [calculate_cash_pooling], although it is served by POST). *)
Theorem reading_handlers_keep_store (env : Env) (rgn from_currency to_currency : string) :
  keeps same_data get_global_position
  /\ keeps same_data (get_regional_liquidity rgn)
  /\ keeps same_data get_cash_pool_status
  /\ keeps same_data (calculate_cash_pooling env rgn)
  /\ keeps same_data get_netting_results
  /\ keeps same_data get_validation_report
  /\ keeps same_data (get_analytics_summary env)
  /\ keeps same_data (get_fx_rate from_currency to_currency).
Proof.
  repeat apply conj.
  - unfold get_global_position. keeps_steps.
  - unfold get_regional_liquidity. keeps_steps.
  - unfold get_cash_pool_status, pool_status_entry. keeps_steps.
  - unfold calculate_cash_pooling. keeps_steps.
  - unfold get_netting_results. keeps_steps.
  - unfold get_validation_report. keeps_steps.
  - unfold get_analytics_summary. keeps_steps.
  - unfold get_fx_rate. keeps_steps.
Qed.

Lemma keeps_delete_many_netting_results :
  keeps same_but_netting Db.delete_many_netting_results.
Proof. intros w. by repeat split. Qed.

Lemma keeps_insert_many_netting_results docs :
  keeps same_but_netting (Db.insert_many_netting_results docs).
Proof. intros w. destruct docs; by repeat split. Qed.

Lemma keeps_delete_many_validation_logs :
  keeps same_but_validation Db.delete_many_validation_logs.
Proof. intros w. by repeat split. Qed.

Lemma keeps_insert_many_validation_logs docs :
  keeps same_but_validation (Db.insert_many_validation_logs docs).
Proof. intros w. destruct docs; by repeat split. Qed.

Lemma keeps_new_NettingResults env l : keeps same_data (new_NettingResults env l).
Proof.
  induction l as [| t l IH]; simpl; [keeps_steps |].
  unfold new_NettingResult. keeps_steps. exact IH.
Qed.

Lemma keeps_netting_loops env today avg d s :
  keeps same_data (netting_loops env today avg d s).
Proof. unfold netting_loops, netting_pair. keeps_steps. Qed.

Lemma keeps_validate_data env bs : keeps same_data (validate_data env bs).
Proof.
  unfold validate_data, check_missing, check_negative, check_duplicates,
    new_ValidationLog.
  keeps_steps.
Qed.

(** The steps of a handler that writes one collection: its own writes, and
    steps that change nothing. *)
Ltac keeps_write_steps :=
  repeat first
    [ apply keeps_try
    | eapply (keeps_weaken same_data);
      [ first [exact same_data_but_netting | exact same_data_but_validation]
      | first [ apply keeps_new_NettingResults
              | apply keeps_netting_loops
              | apply keeps_validate_data ] ]
    | apply keeps_delete_many_netting_results
    | apply keeps_insert_many_netting_results
    | apply keeps_delete_many_validation_logs
    | apply keeps_insert_many_validation_logs
    | apply keeps_bind; [typeclasses eauto | | intros ?]
    | apply keeps_ret; typeclasses eauto
    | match goal with
      | |- keeps _ (match ?x with _ => _ end) => destruct x
      end
    | eapply (keeps_weaken same_data);
      [ first [exact same_data_but_netting | exact same_data_but_validation]
      | solve [keeps_steps] ] ].

Lemma keeps_run_netting env : keeps same_but_netting (run_netting env).
Proof. unfold run_netting. keeps_write_steps. Qed.

Lemma keeps_run_validation env : keeps same_but_validation (run_validation env).
Proof. unfold run_validation. keeps_write_steps. Qed.

(** X5. A netting run changes no collection but [netting_results], a
    validation run none but [validation_logs], whether they return or raise;
    [validate_data] itself changes no collection at all. *)
Theorem writing_handlers_touch_own_collection (env : Env) :
  keeps same_but_netting (run_netting env)
  /\ keeps same_but_validation (run_validation env)
  /\ (forall balances, keeps same_data (validate_data env balances)).
Proof.
  repeat apply conj.
  - apply keeps_run_netting.
  - apply keeps_run_validation.
  - apply keeps_validate_data.
Qed.

(** ** Cash pooling: errors, bounds and classification *)

Lemma round_half_even_le (q : Q) (z : Z) :
  q <= inject_Z z -> (Num.round_half_even q <= z)%Z.
Proof.
  intros H. unfold Num.round_half_even.
  assert (Hf : (Qfloor q <= z)%Z).
  { rewrite <- (Qfloor_Z z). by apply Qfloor_resp_le. }
  destruct (Z.eq_dec (Qfloor q) z) as [E | E].
  - assert (Hq : q - inject_Z (Qfloor q) == 0).
    { pose proof (Qfloor_le q). rewrite E in *. lra. }
    assert (Hc : Qcompare (q - inject_Z (Qfloor q)) (1 # 2) = Lt).
    { apply Qlt_alt. rewrite Hq. reflexivity. }
    rewrite Hc. lia.
  - destruct (Qcompare _ _); [destruct (Z.even _) | |]; lia.
Qed.

Lemma round_half_even_ge (q : Q) (z : Z) :
  inject_Z z <= q -> (z <= Num.round_half_even q)%Z.
Proof.
  intros H. pose proof (round_half_even_floor q).
  assert (Hf : (z <= Qfloor q)%Z).
  { rewrite <- (Qfloor_Z z). by apply Qfloor_resp_le. }
  lia.
Qed.

(** Rounding to cents keeps a value between two whole bounds. *)
Lemma round2_between (q : Q) (lo hi : Z) :
  inject_Z lo <= q -> q <= inject_Z hi ->
  inject_Z lo <= Num.round2 q /\ Num.round2 q <= inject_Z hi.
Proof.
  intros Hlo Hhi. unfold Num.round2. rewrite Qred_correct, (Qmake_Qdiv _ 100).
  assert (H1 : (lo * 100 <= Num.round_half_even (q * 100))%Z).
  { apply round_half_even_ge. rewrite inject_Z_mult.
    change (inject_Z 100) with 100. nra. }
  assert (H2 : (Num.round_half_even (q * 100) <= hi * 100)%Z).
  { apply round_half_even_le. rewrite inject_Z_mult.
    change (inject_Z 100) with 100. nra. }
  rewrite Zle_Qle in H1, H2. rewrite inject_Z_mult in H1, H2.
  change (inject_Z 100) with 100 in *. change (inject_Z (Z.pos 100)) with 100.
  split.
  - apply Qle_shift_div_l; [reflexivity | exact H1].
  - apply Qle_shift_div_r; [reflexivity | exact H2].
Qed.

(** X6. The pool status never raises, even for a pool without participant
    accounts (the divisor is [max(1, ...)]): every reported efficiency lies
    between 0 and 100; it is 0 with state Inactive when no balance record is
    found (as for an empty account list) and 100 when there are at least as
    many records as accounts. *)
Theorem pool_status_bounds (w : World) :
  exists w' entries,
    get_cash_pool_status w
    = (w', Returned (VDict [ ("pools", VList entries);
                             ("total_pools",
                              VInt (Z.of_nat (length (firstn limit_1000 (db_cash_pools w))))) ]))
    /\ Forall2 (fun pool entry =>
                  let count := length (pool_balances w pool) in
                  let size := length (participant_accounts pool) in
                  exists d e,
                    entry = VDict d
                    /\ dict_get "efficiency" d = Some (VNum e)
                    /\ 0 <= e /\ e <= 100
                    /\ (participant_accounts pool = [] -> count = O)
                    /\ (count = O ->
                        e == 0 /\ dict_get "status" d = Some (VStr "Inactive"))
                    /\ ((0 < size <= count)%nat -> e == 100))
         (firstn limit_1000 (db_cash_pools w)) entries.
Proof.
  unfold get_cash_pool_status, Db.find_cash_pools. run_step.
  set (pools := firstn limit_1000 (db_cash_pools w)).
  destruct (pool_status_loop pools [] (log_op (OpFind cash_pools) w))
    as (w' & entries & E & _ & Hall).
  run_step in E. rewrite E. exists w', entries. split; [reflexivity |].
  eapply List.Forall2_impl; [| exact Hall].
  intros pool entry (d & -> & _ & Heff & _ & Hinactive & _). cbv zeta.
  change (pool_balances (log_op (OpFind cash_pools) w) pool)
    with (pool_balances w pool) in *.
  set (count := length (pool_balances w pool)) in *.
  set (size := length (participant_accounts pool)) in *.
  set (ratio := B64.div (Num.of_nat count) (Num.of_nat (Nat.max 1 size))) in *.
  set (x := B64.mul ratio 100) in *.
  assert (Hden : 0 < Num.of_nat (Nat.max 1 size)).
  { pose proof (of_nat_le 1 (Nat.max 1 size) ltac:(lia)).
    change (Num.of_nat 1) with 1 in *. lra. }
  assert (Hratio : 0 <= ratio).
  { unfold ratio, B64.div. apply round_nonneg.
    pose proof (of_nat_nonneg count).
    apply Qle_shift_div_l; [exact Hden | lra]. }
  assert (Hx : 0 <= x).
  { unfold x, B64.mul. apply round_nonneg. nra. }
  assert (Hmin : 0 <= Qmin 100 x /\ Qmin 100 x <= 100).
  { split; [apply Q.min_glb; lra | apply Q.le_min_l]. }
  exists d, (Num.round2 (Qmin 100 x)). split; [reflexivity |].
  split; [exact Heff |].
  destruct (round2_between (Qmin 100 x) 0 100) as [Hlo Hhi]; [tauto | tauto |].
  split; [exact Hlo |]. split; [exact Hhi |]. split; [| split].
  - intros Hnil. unfold count, pool_balances, in_pool. rewrite Hnil. simpl.
    assert (Hf : List.filter (fun _ : CashBalance => false) (db_cash_balances w) = [])
      by (induction (db_cash_balances w); [done | done]).
    by rewrite Hf, firstn_nil.
  - intros Hc. split; [| by apply Hinactive].
    assert (Hx0 : x == 0).
    { unfold x, ratio, B64.mul, B64.div. rewrite Hc. change (Num.of_nat 0) with 0.
      rewrite (round_zero (0 / Num.of_nat (Nat.max 1 size)))
        by (unfold Qdiv; ring).
      by rewrite (round_zero (0 * 100)). }
    rewrite (round2_wd (Qmin 100 x) 0); [reflexivity |].
    rewrite Hx0. reflexivity.
  - intros [Hpos Hle].
    assert (Hone : 1 <= ratio).
    { unfold ratio, B64.div. apply (round_ge_int 1); [lia |].
      replace (Nat.max 1 size) with size in * by lia.
      pose proof (of_nat_le size count Hle).
      apply Qle_shift_div_l; [exact Hden |]. change (inject_Z 1) with 1. lra. }
    assert (Hx100 : 100 <= x).
    { unfold x, B64.mul. apply (round_ge_int 100); [lia |].
      change (inject_Z 100) with 100. lra. }
    rewrite (round2_wd (Qmin 100 x) 100); [reflexivity |].
    by apply Q.min_l.
Qed.

(** X7. A pool calculation for a region without a configured pool does not
    answer 404: the [HTTPException(404)] it raises is caught by the handler's
    own [except Exception] and reported as HTTP 500, before any balance is
    read.  When pools exist for the region, the first one stored is used and
    the calculation returns. *)
Theorem pooling_unknown_region_is_500 (env : Env) (rgn : string) (w : World) :
  let configured :=
    List.find (fun p => String.eqb (pool_region p) rgn) (db_cash_pools w) in
  (configured = None ->
   calculate_cash_pooling env rgn w
   = (log_op (OpFindOne cash_pools) w,
      Raised (HTTP500 (HTTPException 404 ("No pool found for region " +:+ rgn)))))
  /\ (forall pool, configured = Some pool ->
      exists w' d,
        calculate_cash_pooling env rgn w = (w', Returned (VDict d))
        /\ dict_get "pool_name" d = Some (VStr (pool_name pool))).
Proof.
  cbv zeta. split.
  - intros Hnone.
    unfold calculate_cash_pooling, Db.find_one_cash_pools. run_step.
    cbn [db_cash_pools log_op]. by rewrite Hnone.
  - intros pool Hpool.
    destruct (pool_balances w pool) as [| b0 bs0] eqn:Hbs.
    + unfold calculate_cash_pooling, Db.find_one_cash_pools, Db.find_cash_balances.
      run_step. cbn [db_cash_pools log_op]. rewrite Hpool.
      cbn [db_cash_balances log_op]. fold (pool_balances w pool). rewrite Hbs.
      do 2 eexists. split; reflexivity.
    + rewrite (pooling_run env rgn w pool Hpool) by (rewrite Hbs; discriminate).
      do 2 eexists. split; reflexivity.
Qed.

Lemma pooling_unknown_region_is_500_witness :
  calculate_cash_pooling Sample.env "EMEA" Scenario.scenario_c
  = (log_op (OpFindOne cash_pools) Scenario.scenario_c,
     Raised (HTTP500 (HTTPException 404 "No pool found for region EMEA"))).
Proof.
  destruct (pooling_unknown_region_is_500 Sample.env "EMEA" Scenario.scenario_c)
    as (Hnone & _).
  apply Hnone. reflexivity.
Defined.

(** X8. A pool calculation classifies by the float average, which lies
    within rounding error of the exact mean of the balances: a participant
    whose balance exceeds the exact mean by more than
    [(2 * n + 2) * eps * (sum of the magnitudes) / n] is Surplus, one whose
    balance is below it by more than that is Deficit, and in between the
    float average decides (three participants holding the float 0.7 each are
    all Surplus).  There is one entry per balance record, and a participant
    holding at least as much as a Surplus participant is Surplus too. *)
Theorem pooling_classification (env : Env) (rgn : string) (w : World) (pool : CashPool) :
  List.find (fun p => String.eqb (pool_region p) rgn) (db_cash_pools w) = Some pool ->
  pool_records w pool <> [] ->
  let bs := pool_records w pool in
  let n := Num.of_nat (length bs) in
  let mean := Num.sum (map balance_usd bs) / n in
  let band :=
    (2 * n + 2) * B64.eps * Num.sum (map (fun b => Qabs (balance_usd b)) bs) / n in
  let surplus p := dict_get "status" p = Some (VStr "Surplus") in
  let deficit p := dict_get "status" p = Some (VStr "Deficit") in
  exists w' d,
    calculate_cash_pooling env rgn w = (w', Returned (VDict d))
    /\ Forall2 (fun b p =>
                  (surplus p \/ deficit p)
                  /\ (mean + band < balance_usd b -> surplus p)
                  /\ (balance_usd b < mean - band -> deficit p))
         bs (dicts_of (dict_get "participants" d))
    /\ (forall b p b' p',
          In (b, p) (combine bs (dicts_of (dict_get "participants" d))) ->
          In (b', p') (combine bs (dicts_of (dict_get "participants" d))) ->
          balance_usd b <= balance_usd b' -> surplus p -> surplus p').
Proof.
  intros Hpool Hne. cbv zeta.
  rewrite <- pool_balances_records in *.
  rewrite (pooling_run env rgn w pool Hpool Hne). cbv zeta.
  rewrite pool_balances_records in *.
  set (bs := pool_records w pool) in *.
  set (n := Num.of_nat (length bs)).
  set (avg := B64.div (B64.sum (map balance_usd bs)) n).
  set (A := Num.sum (map (fun b => Qabs (balance_usd b)) bs)).
  do 2 eexists. split; [reflexivity |].
  cbn [dict_get String.eqb Ascii.eqb Bool.eqb].
  rewrite dicts_of_participants.
  assert (Hn1 : 1 <= n).
  { apply of_nat_pos. intros E. apply length_zero_iff_nil in E. contradiction. }
  assert (Hband : Qabs (avg - Num.sum (map balance_usd bs) / n)
                  <= (2 * n + 2) * B64.eps * A / n).
  { destruct (float_mean_error (map balance_usd bs)) as (_ & _ & H).
    - intros E. apply map_eq_nil in E. contradiction.
    - rewrite length_map. apply pool_records_length.
    - rewrite length_map, map_map in H. fold n avg A in H.
      assert (E : avg - Num.sum (map balance_usd bs) / n
                  == (n * avg - Num.sum (map balance_usd bs)) * / n)
        by (field; lra).
      rewrite E, Qabs_Qmult, (Qabs_pos (/ n)).
      + unfold Qdiv. apply Qmult_le_compat_r; [exact H |].
        apply Qlt_le_weak, Qinv_lt_0_compat. lra.
      + apply Qlt_le_weak, Qinv_lt_0_compat. lra. }
  apply Qabs_Qle_condition in Hband as [Hlo Hhi].
  set (mean := Num.sum (map balance_usd bs) / n) in *.
  clearbody mean avg A n bs. clear Hne.
  assert (Hstatus : forall b,
             let p := [ ("account", VStr (account_number b));
                        ("entity", VStr (entity_code b));
                        ("balance_usd", VNum (balance_usd b));
                        ("variance_from_avg",
                         VNum (Num.round2 (B64.sub (balance_usd b) avg)));
                        ("status", VStr (if Num.ltb 0 (B64.sub (balance_usd b) avg)
                                         then "Surplus" else "Deficit")) ] in
             (dict_get "status" p = Some (VStr "Surplus") <-> avg < balance_usd b)
             /\ (dict_get "status" p = Some (VStr "Deficit") <-> balance_usd b <= avg)).
  { intros b. cbv zeta. cbn [dict_get String.eqb Ascii.eqb Bool.eqb].
    destruct (Num.ltb 0 (B64.sub (balance_usd b) avg)) eqn:E.
    - apply ltb_lt in E. apply (proj1 (sub_pos _ _)) in E.
      repeat split; intros; try done; try lra; exfalso; lra.
    - assert (Hle : balance_usd b <= avg).
      { apply Qnot_lt_le. intros H. apply (proj2 (sub_pos _ _)) in H.
        apply ltb_lt in H. congruence. }
      repeat split; intros; try done; try lra; exfalso; lra. }
  split.
  - induction bs as [| b bs0 IH]; simpl map; constructor; [| exact IH].
    destruct (Hstatus b) as [Hs Hd]. cbv zeta in Hs, Hd.
    split; [| split].
    + destruct (Qlt_le_dec avg (balance_usd b)) as [H | H];
        [left; by apply Hs | right; by apply Hd].
    + intros H. apply Hs. lra.
    + intros H. apply Hd. lra.
  - intros b p b' p' Hin Hin' Hle Hp.
    match goal with
    | H : In _ (combine bs (map ?f bs)) |- _ =>
        assert (Hpair : forall x q, In (x, q) (combine bs (map f bs)) -> q = f x)
    end.
    { clear. induction bs as [| x0 l IH]; intros x q H; [destruct H |].
      destruct H as [[= <- <-] | H]; [reflexivity | by apply IH]. }
    apply Hpair in Hin, Hin'. subst p p'.
    destruct (Hstatus b) as [Hs _]. destruct (Hstatus b') as [Hs' _].
    cbv zeta in Hs, Hs'. apply Hs'. apply Hs in Hp. lra.
Qed.

Lemma pooling_classification_witness :
  exists w' d,
    calculate_cash_pooling Sample.env "APAC" Scenario.scenario_equal
    = (w', Returned (VDict d))
    /\ Forall (fun p => dict_get "status" p = Some (VStr "Surplus"))
         (dicts_of (dict_get "participants" d)).
Proof.
  assert (Hpool : List.find (fun p => String.eqb (pool_region p) "APAC")
                    (db_cash_pools Scenario.scenario_equal)
                  = Some Scenario.pool_abc) by reflexivity.
  assert (Hne : pool_records Scenario.scenario_equal Scenario.pool_abc <> [])
    by (vm_compute; discriminate).
  destruct (pooling_classification Sample.env "APAC" Scenario.scenario_equal
              Scenario.pool_abc Hpool Hne) as (w' & d & Hrun & _).
  exists w', d. split; [exact Hrun |].
  vm_compute in Hrun. injection Hrun as _ <-.
  repeat constructor.
Defined.

(** ** Netting: what a run can emit *)

(** A property of the accumulator that every round of a loop preserves holds
    of the result of the loop. *)
Lemma foldM_invariant {A B} (P : B -> Prop) (f : B -> A -> M B) :
  (forall acc x w w' acc', P acc -> f acc x w = (w', Returned acc') -> P acc') ->
  forall l acc w w' res,
    P acc -> foldM f acc l w = (w', Returned res) -> P res.
Proof.
  intros Hf. induction l as [| x l IH]; intros acc w w' res Hacc Hrun.
  - injection Hrun as _ <-. exact Hacc.
  - simpl in Hrun. run_step in Hrun.
    destruct (f acc x w) as [w1 [acc1 | e]] eqn:E; [| discriminate].
    eapply IH; [| exact Hrun]. eapply Hf; [exact Hacc | exact E].
Qed.

Lemma random_choice_status env w :
  exists w' s,
    random_choice env ["Settled"; "Pending"; "Settled"; "Settled"] w
    = (w', Returned s)
    /\ (s = "Settled" \/ s = "Pending").
Proof.
  unfold random_choice. do 2 eexists. split; [reflexivity |].
  simpl length.
  pose proof (Nat.mod_upper_bound (rand_index env (rand_calls w)) 4 ltac:(lia)) as Hlt.
  destruct (rand_index env (rand_calls w) `mod` 4)%nat as [| [| [| [| n]]]];
    simpl; auto. lia.
Qed.

Lemma netting_loops_well_formed env today avg d s w w' txs :
  netting_loops env today avg d s w = (w', Returned txs) ->
  Forall (tx_well_formed today) txs.
Proof.
  unfold netting_loops.
  apply (foldM_invariant (Forall (tx_well_formed today))); [| constructor].
  intros acc dx w1 w1' acc' Hacc.
  apply (foldM_invariant (Forall (tx_well_formed today))); [| exact Hacc].
  clear. intros acc sx w w' acc' Hacc. unfold netting_pair.
  destruct (Num.ltb 100000 _).
  - run_step.
    destruct (random_choice_status env w) as (w1 & st & -> & Hst).
    intros [= _ <-]. apply Forall_app. split; [exact Hacc |].
    constructor; [| constructor].
    split; [reflexivity |]. split; [reflexivity | exact Hst].
  - intros [= _ <-]. exact Hacc.
Qed.

(** A netting run that returns: its response, what it stored, and where its
    transactions come from. *)
Lemma run_netting_inv env w w' resp :
  run_netting env w = (w', Returned resp) ->
  let totals := spec_entity_totals (snapshot w) in
  let avg := B64.div (B64.sum (map snd totals)) (Num.of_nat (length totals)) in
  exists txs,
    resp = netting_response (today_iso env) txs
    /\ map nr_tx (db_netting_results w') = txs
    /\ Forall (tx_well_formed (today_iso env)) txs
    /\ map tx_core txs
       = spec_emitted avg
           (spec_candidates
              (List.filter (fun kv => Num.ltb (snd kv) avg) totals)
              (List.filter (fun kv => Num.ltb avg (snd kv)) totals)).
Proof.
  cbv zeta. rewrite <- entity_balances_spec. unfold snapshot, run_netting.
  unfold Db.delete_many_netting_results, Db.find_cash_balances.
  run_step. cbn [db_cash_balances with_netting_results log_op].
  rewrite filter_all.
  set (totals := entity_balances (firstn limit_10000 (db_cash_balances w))).
  destruct (length totals) as [| n] eqn:Hlen; [discriminate |].
  rewrite <- Hlen. rewrite float_div_returns by lia.
  change (ODict.values totals) with (map snd totals).
  set (avg := B64.div (B64.sum (map snd totals)) (Num.of_nat (length totals))).
  match goal with
  | |- context [netting_loops env ?t avg ?d ?s ?w0] =>
      destruct (netting_loops_run env t avg d s w0) as (txs & k & E & H);
      pose proof (netting_loops_well_formed env t avg d s w0 _ _ E) as Hwf
  end.
  rewrite E. destruct txs as [| t txs].
  - intros [= <- <-]. exists []. by repeat split.
  - match goal with
    | |- context [new_NettingResults env ?l ?w0] =>
        destruct (new_NettingResults_run env l w0) as (objs & E2 & H2)
    end.
    rewrite E2. unfold Db.insert_many_netting_results.
    destruct objs as [| o objs]; [discriminate H2 |].
    intros [= <- <-]. exists (t :: txs). by repeat split.
Qed.

(** X9. Every transaction a netting run returns and stores is dated today,
    in USD, with status Settled or Pending (never Failed) and an amount of at
    least 100000; it goes from an entity whose total is above the average to
    a different entity whose total is below it, and there are at most six of
    them.  (Totals and average are the floats the run computes.) *)
Theorem netting_transactions_well_formed (env : Env) (w w' : World) (resp : value) :
  run_netting env w = (w', Returned resp) ->
  let totals := spec_entity_totals (snapshot w) in
  let avg := B64.div (B64.sum (map snd totals)) (Num.of_nat (length totals)) in
  exists txs,
    resp = netting_response (today_iso env) txs
    /\ map nr_tx (db_netting_results w') = txs
    /\ (length txs <= 6)%nat
    /\ Forall (fun t =>
                 netting_date t = today_iso env
                 /\ nt_currency t = "USD"
                 /\ (nt_status t = "Settled" \/ nt_status t = "Pending")
                 /\ 100000 <= amount t
                 /\ from_entity t <> to_entity t
                 /\ exists below above,
                      In (to_entity t, below) totals
                      /\ In (from_entity t, above) totals
                      /\ below < avg /\ avg < above)
         txs.
Proof.
  intros Hrun. destruct (run_netting_inv env w w' resp Hrun)
    as (txs & Hresp & Hdb & Hwf & Hcore).
  cbv zeta in *.
  set (totals := spec_entity_totals (snapshot w)) in *.
  set (avg := B64.div (B64.sum (map snd totals)) (Num.of_nat (length totals))) in *.
  exists txs. split; [exact Hresp |]. split; [exact Hdb |]. split.
  - rewrite <- (length_map tx_core), Hcore. unfold spec_emitted.
    rewrite length_map.
    etransitivity; [apply List.filter_length_le | apply spec_candidates_length].
  - apply List.Forall_forall. intros t Ht.
    rewrite List.Forall_forall in Hwf. destruct (Hwf t Ht) as (Hdate & Hcur & Hst).
    assert (Hin : In (tx_core t) (map tx_core txs)) by (by apply in_map).
    rewrite Hcore in Hin. unfold spec_emitted in Hin.
    apply in_map_iff in Hin as ([d s] & Heq & Hp).
    apply List.filter_In in Hp as [Hp Hamt].
    unfold spec_candidates in Hp. apply in_prod_iff in Hp as [Hd Hs].
    apply in_firstn, List.filter_In in Hd as [Hd Hdlt].
    apply in_firstn, List.filter_In in Hs as [Hs Hsgt].
    apply ltb_lt in Hdlt, Hsgt, Hamt. simpl in *.
    unfold tx_core in Heq. injection Heq as Hto Hfrom Hamount _.
    do 3 (split; [assumption |]).
    split; [rewrite <- Hamount; by apply round2_above |].
    split.
    + intros E. rewrite <- Hto, <- Hfrom in E.
      assert (s = d).
      { apply (NoDup_keys_inj totals); [| assumption ..].
        unfold totals. rewrite <- entity_balances_spec.
        apply entity_balances_NoDup. }
      subst s. lra.
    + exists (snd d), (snd s). rewrite <- Hto, <- Hfrom.
      rewrite <- !surjective_pairing. tauto.
Qed.

Lemma netting_transactions_well_formed_witness :
  exists w' txs,
    run_netting Sample.env Scenario.scenario_b
    = (w', Returned (netting_response "2024-05-01" txs))
    /\ Forall (fun t => from_entity t <> to_entity t) txs.
Proof.
  destruct (run_netting Sample.env Scenario.scenario_b) as [w' [resp | e]] eqn:Hrun.
  - destruct (netting_transactions_well_formed Sample.env Scenario.scenario_b w' resp Hrun)
      as (txs & -> & _ & _ & Hall).
    exists w', txs. split; [reflexivity |].
    eapply List.Forall_impl; [| exact Hall].
    intros t (_ & _ & _ & _ & H & _). exact H.
  - vm_compute in Hrun. discriminate Hrun.
Defined.

(** X10. Running the netting again on unchanged balances does not
    accumulate results: the second run ends like the first (both return or
    both raise) and the store then holds results for the same pairs with the
    same amounts as after the first run (ids and drawn statuses may
    differ). *)
Theorem netting_rerun_replaces (env : Env) (w w1 w2 : World) (r1 r2 : outcome value) :
  run_netting env w = (w1, r1) ->
  run_netting env w1 = (w2, r2) ->
  map (fun r => tx_core (nr_tx r)) (db_netting_results w2)
  = map (fun r => tx_core (nr_tx r)) (db_netting_results w1)
  /\ length (db_netting_results w2) = length (db_netting_results w1)
  /\ ((exists v, r1 = Returned v) <-> (exists v, r2 = Returned v)).
Proof.
  intros H1 H2.
  assert (Hsnap : snapshot w1 = snapshot w).
  { pose proof (keeps_run_netting env w) as (Hb & _). rewrite H1 in Hb.
    unfold snapshot. simpl in Hb. by rewrite Hb. }
  pose proof (run_netting_unfold env w) as U1.
  pose proof (run_netting_unfold env w1) as U2.
  cbv zeta in U1, U2. rewrite Hsnap in U2.
  destruct (float_div _ _) as [avg | e].
  - destruct U1 as (txs1 & w1' & E1 & C1 & D1 & _).
    destruct U2 as (txs2 & w2' & E2 & C2 & D2 & _).
    rewrite H1 in E1. rewrite H2 in E2.
    injection E1 as <- ->. injection E2 as <- ->.
    assert (Hmap : map (fun r => tx_core (nr_tx r)) (db_netting_results w2)
                   = map (fun r => tx_core (nr_tx r)) (db_netting_results w1)).
    { rewrite <- !(map_map nr_tx tx_core), D1, D2, C1, C2. reflexivity. }
    split; [exact Hmap |]. split.
    + apply (f_equal (@length _)) in Hmap. by rewrite !length_map in Hmap.
    + split; eauto.
  - destruct U1 as (w1' & E1 & D1 & _). destruct U2 as (w2' & E2 & D2 & _).
    rewrite H1 in E1. rewrite H2 in E2.
    injection E1 as <- ->. injection E2 as <- ->.
    rewrite D1, D2. split; [reflexivity |]. split; [reflexivity |].
    split; intros (v & Hv); discriminate Hv.
Qed.

Lemma netting_rerun_replaces_witness :
  exists w1 r1 w2 r2,
    run_netting Sample.env Scenario.scenario_b = (w1, r1)
    /\ run_netting Sample.env w1 = (w2, r2)
    /\ length (db_netting_results w2) = 1%nat.
Proof.
  destruct (run_netting Sample.env Scenario.scenario_b) as [w1 r1] eqn:H1.
  destruct (run_netting Sample.env w1) as [w2 r2] eqn:H2.
  destruct (netting_rerun_replaces Sample.env Scenario.scenario_b w1 w2 r1 r2 H1 H2)
    as (_ & Hlen & _).
  exists w1, r1, w2, r2. split; [reflexivity |]. split; [exact H2 |].
  rewrite Hlen. vm_compute in H1. injection H1 as <- _. reflexivity.
Defined.

Lemma filter_none {A} (p : A -> bool) (l : list A) :
  Forall (fun x => p x = false) l -> List.filter p l = [].
Proof.
  induction 1 as [| x l Hx Hl IH]; [done |]. simpl. by rewrite Hx.
Qed.

Lemma insertion_order_single (e : string) (l : list string) :
  l <> [] -> Forall (fun k => k = e) l -> insertion_order l = [e].
Proof.
  intros Hne Hall. destruct Hall as [| k l -> Hl]; [done |].
  unfold insertion_order. simpl. clear Hne.
  induction Hl as [| k l -> Hl IH]; [done |].
  simpl. rewrite String.eqb_refl. simpl. exact IH.
Qed.

Lemma list_prod_nil_r {A B} (l : list A) : list_prod l (@nil B) = [].
Proof. induction l as [| x l IH]; [reflexivity | exact IH]. Qed.

(** X11. When there is nothing to net the run emits nothing and leaves the
    stored results empty: this is so whenever all entity totals are equal
    (they are then all on the same side of the float average), in
    particular when all balances belong to a single entity. *)
Theorem netting_nothing_to_net (env : Env) (w : World) :
  snapshot w <> [] ->
  (exists e, Forall (fun b => entity_code b = e) (snapshot w))
  \/ (exists c, Forall (fun kv => snd kv == c) (spec_entity_totals (snapshot w))) ->
  exists w',
    run_netting env w = (w', Returned (netting_response (today_iso env) []))
    /\ db_netting_results w' = [].
Proof.
  intros Hne Hcase. rewrite <- entity_balances_spec in Hcase.
  set (totals := entity_balances (snapshot w)) in *.
  assert (Hlen : length totals <> O).
  { intros E. apply length_zero_iff_nil in E. subst totals.
    destruct (snapshot w) as [| b bs]; [done |].
    by apply entity_balances_nonempty in E. }
  assert (Hequal : exists c, Forall (fun kv => snd kv == c) totals).
  { destruct Hcase as [(e & Hall) | Hc]; [| exact Hc].
    assert (Hkeys : map fst totals = [e]).
    { subst totals. rewrite entity_balances_keys. apply insertion_order_single.
      - intros E. apply map_eq_nil in E. by apply Hne.
      - apply List.Forall_map. exact Hall. }
    destruct totals as [| kv [| kv' rest]]; [done | | discriminate Hkeys].
    exists (snd kv). by repeat constructor. }
  destruct Hequal as (c & Hc).
  pose proof (run_netting_unfold env w) as U. cbv zeta in U. fold totals in U.
  rewrite float_div_returns in U by exact Hlen.
  set (avg := B64.div (B64.sum (ODict.values totals)) (Num.of_nat (length totals))) in *.
  assert (Hnone : spec_candidates
                    (List.filter (fun kv => Num.ltb (snd kv) avg) totals)
                    (List.filter (fun kv => Num.ltb avg (snd kv)) totals) = []).
  { unfold spec_candidates. destruct (Qlt_le_dec c avg) as [Hlt | Hge].
    - assert (Hsur : List.filter (fun kv => Num.ltb avg (snd kv)) totals = []).
      { apply filter_none. eapply List.Forall_impl; [| exact Hc].
        intros kv Hkv. simpl in Hkv.
        destruct (Num.ltb avg (snd kv)) eqn:E; [| done]. apply ltb_lt in E. lra. }
      rewrite Hsur. apply list_prod_nil_r.
    - assert (Hdef : List.filter (fun kv => Num.ltb (snd kv) avg) totals = []).
      { apply filter_none. eapply List.Forall_impl; [| exact Hc].
        intros kv Hkv. simpl in Hkv.
        destruct (Num.ltb (snd kv) avg) eqn:E; [| done]. apply ltb_lt in E. lra. }
      by rewrite Hdef. }
  rewrite Hnone in U.
  destruct U as (txs & w' & Hrun & Hcore & Hdb & _).
  change (spec_emitted avg []) with (@nil (string * string * Q * string)) in Hcore.
  apply map_eq_nil in Hcore. subst txs.
  exists w'. split; [exact Hrun |]. by apply map_eq_nil in Hdb.
Qed.

Lemma netting_nothing_to_net_witness :
  exists w',
    run_netting Sample.env Cases.with_null
    = (w', Returned (netting_response "2024-05-01" []))
    /\ db_netting_results w' = [].
Proof.
  apply (netting_nothing_to_net Sample.env Cases.with_null).
  - vm_compute. discriminate.
  - left. exists "E1". vm_compute. repeat constructor.
Defined.

(** ** Reports over the stored results *)

Lemma counter_get_set_eq k n (d : Counter.t) :
  Counter.get k (Counter.set k n d) = Some n.
Proof.
  induction d as [| [k' n'] d IH]; simpl.
  - by rewrite String.eqb_refl.
  - destruct (String.eqb k k') eqn:E; simpl; rewrite E; [done | exact IH].
Qed.

Lemma counter_get_set_ne k k' n (d : Counter.t) :
  k <> k' -> Counter.get k (Counter.set k' n d) = Counter.get k d.
Proof.
  intros Hne. induction d as [| [k'' n''] d IH]; simpl.
  - apply String.eqb_neq in Hne. by rewrite Hne.
  - destruct (String.eqb k' k'') eqn:E; simpl.
    + apply String.eqb_eq in E. subst k''.
      apply String.eqb_neq in Hne. by rewrite Hne.
    + by rewrite IH.
Qed.

Lemma counter_total_set k n (d : Counter.t) :
  (counter_total (Counter.set k n d) + counter_of k d = counter_total d + n)%nat.
Proof.
  unfold counter_of. induction d as [| [k' n'] d IH]; simpl; [lia |].
  destruct (String.eqb k k') eqn:E; simpl; lia.
Qed.

Section CountBy.

Context {A : Type} (key : A -> string).

(** The counts add up to the number of items counted. *)
Lemma count_by_total xs : counter_total (Counter.count_by key xs) = length xs.
Proof.
  unfold Counter.count_by.
  enough (H : forall d,
             counter_total (fold_left (fun d x => Counter.incr (key x) d) xs d)
             = (counter_total d + length xs)%nat) by apply (H []).
  induction xs as [| x xs IH]; intros d; simpl; [lia |].
  rewrite IH. unfold Counter.incr.
  pose proof (counter_total_set (key x)
                (match Counter.get (key x) d with Some n => n | None => O end + 1) d) as H.
  unfold counter_of in H. lia.
Qed.

(** The count of a key is the number of items with that key. *)
Lemma count_by_key xs k :
  counter_of k (Counter.count_by key xs)
  = length (List.filter (fun x => String.eqb (key x) k) xs).
Proof.
  unfold Counter.count_by.
  enough (H : forall d,
             counter_of k (fold_left (fun d x => Counter.incr (key x) d) xs d)
             = (counter_of k d
                + length (List.filter (fun x => String.eqb (key x) k) xs))%nat)
    by apply (H []).
  induction xs as [| x xs IH]; intros d; simpl; [lia |].
  rewrite IH. unfold Counter.incr, counter_of at 1.
  destruct (String.eqb (key x) k) eqn:E.
  - apply String.eqb_eq in E. subst k. rewrite counter_get_set_eq.
    unfold counter_of. simpl. lia.
  - apply String.eqb_neq in E. rewrite counter_get_set_ne by congruence.
    fold (counter_of k d). lia.
Qed.

End CountBy.

(** X12. The netting report reads the stored results (at most 1000): with
    none stored it returns the empty shape, whose total is under the key
    [total_netted] and which has no [total_netted_usd]; otherwise it counts
    the results, sums their amounts, and its per-status counts add up to the
    number of results, each being the number of results with that status. *)
Theorem netting_report (w : World) :
  let results := stored_results w in
  exists w' d,
    get_netting_results w = (w', Returned (VDict d))
    /\ dict_get "total_transactions" d = Some (VInt (Z.of_nat (length results)))
    /\ dict_get "transactions" d = Some (VList (map result_value results))
    /\ (results = [] ->
        dict_get "total_netted" d = Some (VInt 0)
        /\ dict_get "total_netted_usd" d = None
        /\ dict_get "by_status" d = Some (VDict []))
    /\ (results <> [] ->
        exists by_status,
          dict_get "by_status" d = Some (Counter.to_value by_status)
          /\ dict_get "total_netted_usd" d
             = Some (VNum (Num.round2
                             (Num.sum (map (fun r => amount (nr_tx r)) results))))
          /\ counter_total by_status = length results
          /\ forall s, counter_of s by_status
                       = length (List.filter
                                   (fun r => String.eqb (nt_status (nr_tx r)) s)
                                   results)).
Proof.
  cbv zeta. unfold get_netting_results, find_netting_results. run_step.
  fold (stored_results w).
  destruct (stored_results w) as [| r0 rs0].
  - do 2 eexists. split; [reflexivity |].
    cbn [dict_get String.eqb Ascii.eqb Bool.eqb].
    do 2 (split; [reflexivity |]). split; [by repeat split | done].
  - set (results := r0 :: rs0).
    do 2 eexists. split; [reflexivity |].
    cbn [dict_get String.eqb Ascii.eqb Bool.eqb].
    do 2 (split; [reflexivity |]). split; [done |].
    intros _. eexists. split; [reflexivity |]. split; [reflexivity |].
    split; [apply count_by_total | intros s; apply count_by_key].
Qed.

Lemma netting_report_witness :
  exists w' d,
    get_netting_results Cases.three_results = (w', Returned (VDict d))
    /\ dict_get "by_status" d
       = Some (VDict [("Settled", VInt 2); ("Pending", VInt 1)])
    /\ dict_get "total_netted_usd" d = Some (VNum 470000).
Proof.
  destruct (netting_report Cases.three_results)
    as (w' & d & Hrun & _ & _ & _ & Hsome).
  destruct Hsome as (by_status & _ & Htotal & _); [vm_compute; discriminate |].
  exists w', d. split; [exact Hrun |]. rewrite Htotal.
  vm_compute in Hrun. injection Hrun as _ <-. split; vm_compute; reflexivity.
Defined.

Lemma spec_emitted_length avg pairs : (length (spec_emitted avg pairs) <= length pairs)%nat.
Proof. unfold spec_emitted. rewrite length_map. apply List.filter_length_le. Qed.

Lemma limit_1000_covers {A} (l : list A) : (length l <= 6)%nat -> firstn limit_1000 l = l.
Proof.
  intros H. apply firstn_all2. unfold limit_1000.
  change (N.to_nat 1000) with (6 + N.to_nat 994)%nat. lia.
Qed.

(** X13. The netting report agrees with the run that precedes it: after a
    run that returned, the report shows the same number of transactions and,
    when there are any, the same total; after a run that emitted nothing it
    shows the empty shape, in which the total is named [total_netted] and
    [total_netted_usd] is absent although the run reported one. *)
Theorem netting_report_after_run (env : Env) (w w' : World) (resp : list (string * value)) :
  run_netting env w = (w', Returned (VDict resp)) ->
  exists w'' d,
    get_netting_results w' = (w'', Returned (VDict d))
    /\ dict_get "total_transactions" d = dict_get "total_transactions" resp
    /\ (db_netting_results w' <> [] ->
        dict_get "total_netted_usd" d = dict_get "total_netted_usd" resp)
    /\ (db_netting_results w' = [] ->
        is_Some (dict_get "total_netted_usd" resp)
        /\ dict_get "total_netted_usd" d = None
        /\ dict_get "total_netted" d = Some (VInt 0)).
Proof.
  intros Hrun.
  destruct (run_netting_inv env w w' _ Hrun) as (txs & Hresp & Hdb & _ & Hcore).
  cbv zeta in Hcore.
  assert (Hlen : (length (db_netting_results w') <= 6)%nat).
  { rewrite <- (length_map nr_tx), Hdb, <- (length_map tx_core), Hcore.
    etransitivity; [apply spec_emitted_length | apply spec_candidates_length]. }
  injection Hresp as ->.
  unfold get_netting_results, find_netting_results. run_step.
  rewrite (limit_1000_covers _ Hlen).
  destruct (db_netting_results w') as [| r0 rs0] eqn:Hstored.
  - simpl in Hdb. subst txs.
    do 2 eexists. split; [reflexivity |].
    cbn [dict_get String.eqb Ascii.eqb Bool.eqb].
    split; [reflexivity |]. split; [done |]. intros _.
    split; [by eexists | by split].
  - do 2 eexists. split; [reflexivity |].
    cbn [dict_get String.eqb Ascii.eqb Bool.eqb].
    rewrite <- Hdb, !length_map, map_map.
    split; [reflexivity |]. split; [reflexivity | done].
Qed.

Lemma netting_report_after_run_witness :
  exists w' resp w'' d,
    run_netting Sample.env Scenario.scenario_b = (w', Returned (VDict resp))
    /\ get_netting_results w' = (w'', Returned (VDict d))
    /\ dict_get "total_netted_usd" d = Some (VNum 150000).
Proof.
  destruct (run_netting Sample.env Scenario.scenario_b) as [w' r] eqn:Hrun.
  assert (Hresp : exists resp, r = Returned (VDict resp)
                               /\ dict_get "total_netted_usd" resp = Some (VNum 150000)
                               /\ db_netting_results w' <> []).
  { vm_compute in Hrun. injection Hrun as <- <-. eexists.
    split; [reflexivity |]. split; [reflexivity | discriminate]. }
  destruct Hresp as (resp & -> & Htotal & Hne).
  destruct (netting_report_after_run Sample.env Scenario.scenario_b w' resp Hrun)
    as (w'' & d & Hrep & _ & Hsame & _).
  exists w', resp, w'', d. split; [reflexivity |]. split; [exact Hrep |].
  rewrite (Hsame Hne). exact Htotal.
Defined.

(** ** Validation runs and their report *)

(** Each of the three checks appends at most one log. *)
Lemma check_missing_length env today bs logs w w' logs' :
  check_missing env today bs logs w = (w', Returned logs') ->
  (length logs' <= S (length logs))%nat.
Proof.
  unfold check_missing. rewrite count_if_is_missing. run_step.
  destruct (0 <? _)%nat; [rewrite new_ValidationLog_run |];
    intros [= _ <-]; rewrite ?length_app; simpl; lia.
Qed.

Lemma check_negative_length env today bs logs w w' logs' :
  check_negative env today bs logs w = (w', Returned logs') ->
  (length logs' <= S (length logs))%nat.
Proof.
  unfold check_negative. destruct (count_if is_negative bs) as [n | e];
    run_step; [| discriminate].
  destruct (0 <? n)%nat; [rewrite new_ValidationLog_run |];
    intros [= _ <-]; rewrite ?length_app; simpl; lia.
Qed.

Lemma check_duplicates_length env today bs logs w w' logs' :
  check_duplicates env today bs logs w = (w', Returned logs') ->
  (length logs' <= S (length logs))%nat.
Proof.
  unfold check_duplicates. cbv zeta. run_step.
  destruct (0 <? _)%nat; [rewrite new_ValidationLog_run |];
    intros [= _ <-]; rewrite ?length_app; simpl; lia.
Qed.

Lemma validate_data_length env bs w w' logs :
  validate_data env bs w = (w', Returned logs) -> (length logs <= 3)%nat.
Proof.
  unfold validate_data. cbv zeta. run_step.
  destruct (check_missing env (now_iso env) bs [] w) as [w1 [l1 | e]] eqn:E1;
    [| discriminate].
  destruct (check_negative env (now_iso env) bs l1 w1) as [w2 [l2 | e]] eqn:E2;
    [| discriminate].
  destruct (check_duplicates env (now_iso env) bs l2 w2) as [w3 [l3 | e]] eqn:E3;
    [| discriminate].
  intros [= _ <-].
  apply check_missing_length in E1. apply check_negative_length in E2.
  apply check_duplicates_length in E3. simpl in E1. lia.
Qed.

Lemma validation_report_shape w :
  exists w' d,
    get_validation_report w = (w', Returned (VDict d))
    /\ dict_get "total_issues" d = Some (VInt (Z.of_nat (length (stored_logs w)))).
Proof.
  unfold get_validation_report, find_validation_logs. run_step.
  fold (stored_logs w).
  destruct (stored_logs w) as [| l0 ls0]; do 2 eexists; split; reflexivity.
Qed.

(** X14. The validation report reads the stored logs (at most 1000): with
    none stored it returns zero issues and empty breakdowns; otherwise its
    per-severity counts and its per-type counts each add up to the number of
    issues, every count being the number of logs with that severity or
    type. *)
Theorem validation_report (w : World) :
  let logs := stored_logs w in
  exists w' d,
    get_validation_report w = (w', Returned (VDict d))
    /\ dict_get "total_issues" d = Some (VInt (Z.of_nat (length logs)))
    /\ dict_get "issues" d = Some (VList (map log_value logs))
    /\ (logs = [] ->
        dict_get "by_severity" d = Some (VDict [])
        /\ dict_get "by_type" d = Some (VDict []))
    /\ (logs <> [] ->
        exists by_severity by_type,
          dict_get "by_severity" d = Some (Counter.to_value by_severity)
          /\ dict_get "by_type" d = Some (Counter.to_value by_type)
          /\ counter_total by_severity = length logs
          /\ counter_total by_type = length logs
          /\ (forall s, counter_of s by_severity
                        = length (List.filter (fun l => String.eqb (severity l) s) logs))
          /\ (forall t, counter_of t by_type
                        = length (List.filter (fun l => String.eqb (check_type l) t) logs))).
Proof.
  cbv zeta. unfold get_validation_report, find_validation_logs. run_step.
  fold (stored_logs w).
  destruct (stored_logs w) as [| l0 ls0].
  - do 2 eexists. split; [reflexivity |].
    cbn [dict_get String.eqb Ascii.eqb Bool.eqb].
    do 2 (split; [reflexivity |]). split; [by split | done].
  - do 2 eexists. split; [reflexivity |].
    cbn [dict_get String.eqb Ascii.eqb Bool.eqb].
    do 2 (split; [reflexivity |]). split; [done |].
    intros _. do 2 eexists. do 2 (split; [reflexivity |]).
    split; [apply count_by_total |]. split; [apply count_by_total |].
    split; intros k; apply count_by_key.
Qed.

Lemma validation_report_witness :
  exists w' d,
    get_validation_report (Sample.world [] [] [] [Sample.old_log])
    = (w', Returned (VDict d))
    /\ dict_get "by_severity" d = Some (VDict [("Medium", VInt 1)]).
Proof.
  destruct (validation_report (Sample.world [] [] [] [Sample.old_log]))
    as (w' & d & Hrun & _).
  exists w', d. split; [exact Hrun |].
  vm_compute in Hrun. injection Hrun as _ <-. reflexivity.
Defined.

(** X15. After a validation run that returned on a non-empty snapshot, the
    store holds exactly the logs the run reported, at most three of them,
    whatever was stored before; the validation report that follows shows as
    many issues as the run found. *)
Theorem validation_report_after_run (env : Env) (w w' : World) (resp : list (string * value)) :
  snapshot w <> [] ->
  run_validation env w = (w', Returned (VDict resp)) ->
  dict_get "validations" resp = Some (VList (map log_value (db_validation_logs w')))
  /\ dict_get "issues_found" resp
     = Some (VInt (Z.of_nat (length (db_validation_logs w'))))
  /\ (length (db_validation_logs w') <= 3)%nat
  /\ exists w'' d,
       get_validation_report w' = (w'', Returned (VDict d))
       /\ dict_get "total_issues" d = dict_get "issues_found" resp.
Proof.
  intros Hne Hrun.
  assert (H : exists logs,
             db_validation_logs w' = logs /\ (length logs <= 3)%nat
             /\ resp = [ ("status", VStr "success");
                         ("issues_found", VInt (Z.of_nat (length logs)));
                         ("validations", VList (map log_value logs));
                         ("check_date", VStr (now_iso env)) ]).
  { revert Hrun. unfold snapshot in Hne.
    unfold run_validation, Db.find_cash_balances. run_step.
    rewrite filter_all.
    destruct (firstn limit_10000 (db_cash_balances w)) as [| b bs]; [done |].
    destruct (validate_data env (b :: bs) _) as [w1 [logs | e]] eqn:Hval;
      [| discriminate].
    apply validate_data_length in Hval.
    unfold Db.delete_many_validation_logs, Db.insert_many_validation_logs.
    destruct logs as [| l logs]; intros [= <- <-]; eexists;
      (split; [reflexivity |]); (split; [exact Hval | reflexivity]). }
  destruct H as (logs & Hdb & Hlen & ->). rewrite Hdb.
  cbn [dict_get String.eqb Ascii.eqb Bool.eqb].
  do 2 (split; [reflexivity |]). split; [exact Hlen |].
  destruct (validation_report_shape w') as (w'' & d & Hrep & Htotal).
  exists w'', d. split; [exact Hrep |]. rewrite Htotal.
  unfold stored_logs. rewrite Hdb, firstn_all2; [reflexivity |].
  unfold limit_1000. change (N.to_nat 1000) with (3 + N.to_nat 997)%nat. lia.
Qed.

Lemma validation_report_after_run_witness :
  exists w' resp,
    run_validation Sample.env
      (Sample.world
         [Sample.balance "ACC-1" "2024-05-01" "USD" (Present (-5)) (-5) "E1" "AMER"]
         [] [] [Sample.old_log])
    = (w', Returned (VDict resp))
    /\ dict_get "issues_found" resp = Some (VInt 1)
    /\ map check_type (db_validation_logs w') = ["negative_cash"].
Proof.
  set (w := Sample.world
              [Sample.balance "ACC-1" "2024-05-01" "USD" (Present (-5)) (-5) "E1" "AMER"]
              [] [] [Sample.old_log]).
  destruct (run_validation Sample.env w) as [w' r] eqn:Hrun.
  assert (Hr : exists resp, r = Returned (VDict resp)
                            /\ map check_type (db_validation_logs w') = ["negative_cash"]).
  { vm_compute in Hrun. injection Hrun as <- <-. eexists. split; reflexivity. }
  destruct Hr as (resp & -> & Hlogs).
  assert (Hne : snapshot w <> []) by (vm_compute; discriminate).
  destruct (validation_report_after_run Sample.env w w' resp Hne Hrun)
    as (_ & Hfound & _).
  exists w', resp. split; [reflexivity |]. split; [| exact Hlogs].
  rewrite Hfound. apply (f_equal (@length _)) in Hlogs.
  rewrite length_map in Hlogs. by rewrite Hlogs.
Defined.

Lemma null_or_not (bs : list CashBalance) :
  Forall (fun b => balance_local b <> Null) bs
  \/ exists b, In b bs /\ balance_local b = Null.
Proof.
  induction bs as [| b bs [IH | (b' & Hin & Hb')]].
  - left. constructor.
  - destruct (balance_local b) eqn:E.
    + left. constructor; [congruence | exact IH].
    + right. exists b. split; [by left | exact E].
    + left. constructor; [congruence | exact IH].
  - right. exists b'. split; [by right | exact Hb'].
Qed.

(** [validate_data] on a snapshot with a [None] balance: the exception, and
    a store that differs from the initial one by the id counter only. *)
Lemma validate_data_raises env bs w :
  (exists b, In b bs /\ balance_local b = Null) ->
  exists n, validate_data env bs w = (with_uuid_calls n w, Raised TypeError).
Proof.
  intros Hnull. unfold validate_data, check_missing, check_negative. cbv zeta.
  rewrite count_if_is_missing, (count_if_is_negative_null bs Hnull). run_step.
  destruct (0 <? _)%nat.
  - rewrite new_ValidationLog_run. eexists. reflexivity.
  - exists (uuid_calls w). by rewrite with_uuid_calls_id.
Qed.

(** X16. A validation run over a snapshot that holds a record with
    [balance_local] [None] fails with HTTP 500 before it clears anything: the
    logs of the previous run stay stored and the only store operation issued
    is the read of the balances. *)
Theorem validation_run_fails_on_null (env : Env) (w : World) :
  (exists b, In b (snapshot w) /\ balance_local b = Null) ->
  exists w',
    run_validation env w = (w', Raised (HTTP500 TypeError))
    /\ db_validation_logs w' = db_validation_logs w
    /\ oplog w' = (oplog w ++ [OpFind cash_balances])%list.
Proof.
  intros Hnull. unfold snapshot in Hnull.
  unfold run_validation, Db.find_cash_balances. run_step. rewrite filter_all.
  destruct (firstn limit_10000 (db_cash_balances w)) as [| b0 bs0] eqn:Hbs.
  { destruct Hnull as (b & [] & _). }
  destruct (validate_data_raises env (b0 :: bs0) (log_op (OpFind cash_balances) w) Hnull)
    as (n & ->).
  eexists. split; [reflexivity |]. split; reflexivity.
Qed.

Lemma validation_run_fails_on_null_witness :
  exists w',
    run_validation Sample.env Cases.with_null = (w', Raised (HTTP500 TypeError))
    /\ db_validation_logs w' = [Sample.old_log].
Proof.
  destruct (validation_run_fails_on_null Sample.env Cases.with_null)
    as (w' & Hrun & Hlogs & _).
  - eexists. split; [right; left; reflexivity | reflexivity].
  - exists w'. split; [exact Hrun | exact Hlogs].
Defined.

(** A set built from a list has at most as many elements as the list, and
    exactly as many only when the list has no repetition. *)
Lemma size_set_bound (l : list (string * string)) :
  (size (list_to_set l : gset (string * string)) <= length l)%nat
  /\ (size (list_to_set l : gset (string * string)) = length l -> NoDup l).
Proof.
  induction l as [| x l [IHle IHeq]].
  - split; [vm_compute; lia | constructor].
  - rewrite list_to_set_cons. simpl length.
    destruct (decide (x ∈ l)) as [Hin | Hnin].
    + assert (E : ({[x]} ∪ list_to_set l : gset (string * string)) = list_to_set l).
      { apply set_eq. intros y. rewrite elem_of_union, elem_of_singleton,
          !elem_of_list_to_set. split; [intros [-> | H]; assumption | tauto]. }
      rewrite E. split; [lia | intros H; lia].
    + rewrite size_union, size_singleton.
      * split; [lia |]. intros H. apply NoDup_cons. split; [exact Hnin |].
        apply IHeq. lia.
      * intros y. rewrite elem_of_singleton, elem_of_list_to_set.
        intros -> H. by apply Hnin.
Qed.

Lemma duplicate_count_zero_iff bs :
  duplicate_count bs = O <-> NoDup (account_dates bs).
Proof.
  pose proof (size_set_bound (account_dates bs)) as [Hle Heq].
  unfold duplicate_count. split.
  - intros H. apply Heq. lia.
  - intros H. rewrite (size_list_to_set (C := gset (string * string)) _ H). lia.
Qed.

(** X17. The duplicate count is zero exactly when all (account_number,
    balance_date) pairs of the snapshot are distinct, and for a non-empty
    snapshot it is smaller than the number of records; accordingly the
    duplicate check appends nothing exactly when the pairs are distinct. *)
Theorem duplicate_free_iff
  (env : Env) (today : string) (bs : list CashBalance)
  (logs : list ValidationLog) (w : World) :
  (duplicate_count bs = O <-> NoDup (account_dates bs))
  /\ (bs <> [] -> (duplicate_count bs < length bs)%nat)
  /\ (snd (check_duplicates env today bs logs w) = Returned logs
      <-> NoDup (account_dates bs)).
Proof.
  pose proof (size_set_bound (account_dates bs)) as [Hle Heq].
  assert (Hlen : length (account_dates bs) = length bs)
    by (unfold account_dates; apply length_map).
  pose proof (duplicate_count_zero_iff bs) as Hzero.
  split; [exact Hzero |]. split.
  - intros Hne. unfold duplicate_count. rewrite Hlen in *.
    destruct bs as [| b bs']; [done |].
    assert (0 < size (list_to_set (account_dates (b :: bs')) : gset (string * string)))%nat.
    { unfold account_dates. simpl map. rewrite list_to_set_cons.
      pose proof (subseteq_size
                    ({[(account_number b, balance_date b)]} : gset (string * string))
                    ({[(account_number b, balance_date b)]}
                       ∪ list_to_set
                           (map (fun b => (account_number b, balance_date b)) bs'))
                    ltac:(apply union_subseteq_l)) as H.
      rewrite size_singleton in H. exact H. }
    simpl length in *. lia.
  - rewrite <- Hzero. unfold check_duplicates. cbv zeta.
    destruct (duplicate_count bs) as [| n].
    + run_step. simpl. tauto.
    + change (0 <? S n)%nat with true. cbv iota. run_step.
      rewrite new_ValidationLog_run. simpl. split; [| discriminate].
      intros [= H]. apply (f_equal (@length _)) in H.
      rewrite length_app in H. simpl in H. lia.
Qed.

Lemma duplicate_free_iff_witness :
  duplicate_count
    [ Sample.balance "ACC-1" "2024-05-01" "USD" (Present 10) 10 "E1" "AMER";
      Sample.balance "ACC-1" "2024-05-02" "USD" (Present 20) 20 "E1" "AMER" ]
  = O.
Proof.
  apply (duplicate_free_iff Sample.env "2024-05-02" _ [] (Sample.world [] [] [] [])).
  simpl. repeat constructor; rewrite ?elem_of_cons, ?elem_of_nil;
    intros H'; repeat destruct H' as [H' | H']; congruence.
Defined.

Lemma filter_length_zero {A} (p : A -> bool) (l : list A) :
  length (List.filter p l) = O <-> Forall (fun x => p x = false) l.
Proof.
  induction l as [| x l IH]; simpl.
  - split; [constructor | done].
  - destruct (p x) eqn:E; simpl.
    + split; [discriminate |]. intros H. apply Forall_cons in H as [H _]. congruence.
    + rewrite IH. split; [by constructor |]. intros H. by apply Forall_cons in H as [_ H].
Qed.

Lemma spec_log_nil type sev n : spec_log type sev n = [] <-> n = O.
Proof. destruct n; simpl; split; (done || discriminate). Qed.

(** X18. [validate_data] returns without any issue exactly when no record's
    [balance_local] is absent, [None], zero or negative, and no two records
    share both the account number and the balance date.  (Each of these
    yields a log or, for [None], an exception; for the numbers of this model
    the first condition says that every [balance_local] is strictly
    positive.) *)
Theorem validation_clean_iff (env : Env) (bs : list CashBalance) (w : World) :
  (exists w', validate_data env bs w = (w', Returned []))
  <-> Forall (fun b =>
                balance_local b <> Missing
                /\ balance_local b <> Null
                /\ forall x, balance_local b = Present x -> ~ x == 0 /\ ~ x < 0)
        bs
      /\ NoDup (map (fun b => (account_number b, balance_date b)) bs).
Proof.
  change (map (fun b => (account_number b, balance_date b)) bs)
    with (account_dates bs).
  destruct (null_or_not bs) as [Hok | Hnull].
  - destruct (validate_data_returns env bs w Hok) as (w' & logs & Hrun & Hcore).
    assert (Hnil : (exists w'', validate_data env bs w = (w'', Returned []))
                   <-> logs = []).
    { rewrite Hrun. split; [intros (w'' & [= _ <-]); reflexivity | intros ->; eauto]. }
    rewrite Hnil. clear Hnil.
    assert (Hcounts : logs = []
                      <-> length (List.filter spec_missing bs) = O
                          /\ length (List.filter spec_negative bs) = O
                          /\ duplicate_count bs = O).
    { rewrite <- (spec_log_nil "missing_balance" "High"),
        <- (spec_log_nil "negative_cash" "Medium"),
        <- (spec_log_nil "duplicate" "High").
      split.
      - intros ->. simpl in Hcore. symmetry in Hcore.
        apply app_eq_nil in Hcore as [H1 H]. apply app_eq_nil in H as [H2 H3].
        eauto.
      - intros (E1 & E2 & E3). rewrite E1, E2, E3 in Hcore.
        by apply map_eq_nil in Hcore. }
    rewrite Hcounts, !filter_length_zero, duplicate_count_zero_iff.
    rewrite !List.Forall_forall. rewrite List.Forall_forall in Hok.
    split.
    + intros (Hm & Hn & Hd). split; [| exact Hd]. intros b Hb.
      specialize (Hm b Hb). specialize (Hn b Hb). specialize (Hok b Hb).
      unfold spec_missing in Hm. unfold spec_negative in Hn.
      destruct (balance_local b) as [| | x]; [discriminate | congruence |].
      split; [discriminate |]. split; [discriminate |].
      intros y [= <-]. split.
      * intros E. apply Qeq_bool_iff in E. unfold Num.eqb in Hm. congruence.
      * intros E. apply ltb_lt in E. congruence.
    + intros (Hclean & Hd). split; [| split; [| exact Hd]]; intros b Hb;
        destruct (Hclean b Hb) as (Hmiss & Hnone & Hnum).
      * unfold spec_missing.
        destruct (balance_local b) as [| | x]; [done | done |].
        destruct (Hnum x eq_refl) as [H0 _]. unfold Num.eqb.
        destruct (Qeq_bool x 0) eqn:E; [| done].
        apply Qeq_bool_iff in E. contradiction.
      * unfold spec_negative.
        destruct (balance_local b) as [| | x]; [done | done |].
        destruct (Hnum x eq_refl) as [_ Hneg].
        destruct (Num.ltb x 0) eqn:E; [| done]. apply ltb_lt in E. contradiction.
  - split.
    + intros (w' & Hrun).
      destruct (validate_data_raises env bs w Hnull) as (n & Hraise).
      rewrite Hraise in Hrun. discriminate Hrun.
    + intros (Hclean & _). destruct Hnull as (b & Hb & Hnull).
      rewrite List.Forall_forall in Hclean.
      destruct (Hclean b Hb) as (_ & Hnone & _). contradiction.
Qed.

Lemma validation_clean_iff_witness :
  exists w',
    validate_data Sample.env (snapshot Cases.two_regions) (Sample.world [] [] [] [])
    = (w', Returned []).
Proof.
  apply (validation_clean_iff Sample.env (snapshot Cases.two_regions)).
  change (snapshot Cases.two_regions)
    with [ Sample.balance "ACC-1" "2024-05-01" "USD" (Present 100) 100 "E1" "AMER";
           Sample.balance "ACC-2" "2024-05-01" "EUR" (Present 200) 220 "E2" "EMEA";
           Sample.balance "ACC-3" "2024-05-01" "USD" (Present 50) 50 "E1" "AMER" ].
  split.
  - apply List.Forall_forall. intros b Hb.
    destruct Hb as [<- | [<- | [<- | []]]]; cbn [balance_local Sample.balance];
      (split; [discriminate | split; [discriminate |]]);
      intros x [= <-]; split; discriminate.
  - vm_compute. repeat constructor; rewrite ?elem_of_cons, ?elem_of_nil;
      intros H'; repeat destruct H' as [H' | H']; congruence.
Defined.

(** ** Analytics summary *)

Lemma insert_desc_perm x l : Permutation (insert_desc x l) (x :: l).
Proof.
  induction l as [| y l IH]; simpl; [reflexivity |].
  destruct (Num.ltb (snd x) (snd y)); [| reflexivity].
  rewrite IH. apply perm_swap.
Qed.

Lemma sorted_desc_perm l : Permutation (sorted_desc l) l.
Proof.
  induction l as [| x l IH]; simpl; [reflexivity |].
  rewrite insert_desc_perm. by constructor.
Qed.

Lemma insert_desc_sorted x l :
  StronglySorted (fun a b => snd b <= snd a) l ->
  StronglySorted (fun a b => snd b <= snd a) (insert_desc x l).
Proof.
  induction 1 as [| y l Hl IH Hy]; simpl.
  - repeat constructor.
  - destruct (Num.ltb (snd x) (snd y)) eqn:E.
    + apply ltb_lt in E. constructor; [exact IH |].
      assert (Hall : Forall (fun b => snd b <= snd y) (x :: l))
        by (constructor; [lra | exact Hy]).
      rewrite List.Forall_forall in *. intros z Hz. apply Hall.
      eapply Permutation_in; [apply insert_desc_perm | exact Hz].
    + assert (Hle : snd y <= snd x).
      { apply Qnot_lt_le. intros H. apply ltb_lt in H. congruence. }
      constructor; [by constructor |]. constructor; [exact Hle |].
      eapply List.Forall_impl; [| exact Hy]. intros z Hz. simpl in Hz. lra.
Qed.

Lemma sorted_desc_sorted l :
  StronglySorted (fun a b => snd b <= snd a) (sorted_desc l).
Proof.
  induction l as [| x l IH]; simpl; [constructor | by apply insert_desc_sorted].
Qed.

Lemma strongly_sorted_app {A} (R : A -> A -> Prop) l1 l2 :
  StronglySorted R (l1 ++ l2) ->
  StronglySorted R l1 /\ forall a b, In a l1 -> In b l2 -> R a b.
Proof.
  induction l1 as [| x l1 IH]; simpl; intros H.
  - split; [constructor | intros a b []].
  - apply StronglySorted_inv in H as [H Hx]. destruct (IH H) as [Hs Hab].
    rewrite List.Forall_forall in Hx. split.
    + constructor; [exact Hs |]. apply List.Forall_forall. intros z Hz.
      apply Hx, in_or_app. by left.
    + intros a b [<- | Ha] Hb; [apply Hx, in_or_app; by right | by apply Hab].
Qed.

(** X19. The analytics summary always returns, also on an empty store (where
    the total is the integer 0).  It reports the sizes of what it read, and
    its top entities are at most five entity totals, in non-increasing order
    of balance, none smaller than the total of an entity left out. *)
Theorem analytics_top_entities (env : Env) (w : World) :
  let totals := spec_entity_totals (snapshot w) in
  exists w' d top,
    get_analytics_summary env w = (w', Returned (VDict d))
    /\ dict_get "total_accounts" d = Some (VInt (Z.of_nat (length (snapshot w))))
    /\ dict_get "active_netting_transactions" d
       = Some (VInt (Z.of_nat (length (stored_results w))))
    /\ dict_get "data_quality_issues" d
       = Some (VInt (Z.of_nat (length (stored_logs w))))
    /\ (snapshot w = [] -> dict_get "total_liquidity_usd" d = Some (VInt 0))
    /\ dict_get "top_entities" d
       = Some (VList (map (fun e => VDict [ ("entity", VStr (fst e));
                                            ("balance_usd", VNum (Num.round2 (snd e))) ])
                        top))
    /\ length top = Nat.min 5 (length totals)
    /\ StronglySorted (fun a b => snd b <= snd a) top
    /\ (forall e, In e top -> In e totals)
    /\ (forall e t, In e totals -> In t top -> In e top \/ snd e <= snd t).
Proof.
  cbv zeta.
  unfold get_analytics_summary, Db.find_cash_balances, Db.find_cash_pools,
    find_netting_results, find_validation_logs.
  run_step. cbn [db_cash_balances db_cash_pools db_netting_results
                   db_validation_logs log_op].
  rewrite filter_all. fold (snapshot w) (stored_results w) (stored_logs w).
  rewrite entity_balances_spec.
  set (totals := spec_entity_totals (snapshot w)).
  do 2 eexists. exists (firstn 5 (sorted_desc totals)). split; [reflexivity |].
  cbn [dict_get String.eqb Ascii.eqb Bool.eqb].
  do 3 (split; [reflexivity |]).
  split; [intros ->; reflexivity |]. split; [reflexivity |].
  pose proof (sorted_desc_perm totals) as Hperm.
  pose proof (sorted_desc_sorted totals) as Hsorted.
  rewrite <- (firstn_skipn 5 (sorted_desc totals)) in Hsorted.
  apply strongly_sorted_app in Hsorted as [Htop Hrest].
  split; [| split; [exact Htop | split]].
  - rewrite length_firstn. by rewrite (Permutation_length Hperm).
  - intros e He. eapply Permutation_in; [exact Hperm |]. by apply in_firstn in He.
  - intros e t He Ht.
    apply (Permutation_in _ (Permutation_sym Hperm)) in He.
    rewrite <- (firstn_skipn 5 (sorted_desc totals)) in He.
    apply in_app_or in He as [He | He]; [by left | right].
    by apply (Hrest t e).
Qed.

Lemma analytics_top_entities_witness :
  exists w' d,
    get_analytics_summary Sample.env Cases.six_entities = (w', Returned (VDict d))
    /\ dict_get "top_entities" d
       = Some (VList [ VDict [("entity", VStr "E3"); ("balance_usd", VNum 60)];
                       VDict [("entity", VStr "E5"); ("balance_usd", VNum 50)];
                       VDict [("entity", VStr "E6"); ("balance_usd", VNum 40)];
                       VDict [("entity", VStr "E2"); ("balance_usd", VNum 35)];
                       VDict [("entity", VStr "E1"); ("balance_usd", VNum 30)] ]).
Proof.
  destruct (analytics_top_entities Sample.env Cases.six_entities)
    as (w' & d & top & Hrun & _).
  exists w', d. split; [exact Hrun |].
  vm_compute in Hrun. injection Hrun as _ <-. reflexivity.
Defined.

(** ** The default rate table *)

(** A pair "from/to" that is a key of the default table has target USD. *)
Lemma default_pair_target (from_currency to_currency : string) :
  In (from_currency +:+ "/" +:+ to_currency) (map fst default_rates) ->
  to_currency = "USD".
Proof.
  simpl. intros H.
  repeat (destruct H as [H | H]; [| try contradiction]);
    repeat (destruct from_currency as [| ? from_currency]; simpl in H;
            [ first [discriminate H | injection H as H; symmetry; exact H]
            | first [discriminate H | injection H as _ H] ]).
Qed.

Lemma odict_get_not_in k (d : ODict.t) : ~ In k (map fst d) -> ODict.get k d = None.
Proof.
  induction d as [| [k' v] d IH]; simpl; [done |].
  intros H. destruct (String.eqb k k') eqn:E.
  - apply String.eqb_eq in E. subst. tauto.
  - apply IH. tauto.
Qed.

(** X20. Without a stored rate, converting into any currency other than USD
    silently uses the rate 1: the default table only holds pairs into USD, so
    for instance USD to EUR is 1 and not the inverse of EUR to USD. *)
Theorem fx_default_only_into_usd (from_currency to_currency : string) (w : World) :
  to_currency <> "USD" ->
  List.find (fun d => String.eqb (currency_pair d)
                        (from_currency +:+ "/" +:+ to_currency)) (db_fx_rates w)
  = None ->
  exists w', get_fx_rate from_currency to_currency w = (w', Returned 1).
Proof.
  intros Hto Hnone. unfold get_fx_rate.
  destruct (String.eqb from_currency to_currency); [by eexists |].
  unfold Db.find_one_fx_rates. run_step. rewrite Hnone.
  unfold ODict.get_default. rewrite odict_get_not_in; [by eexists |].
  intros Hin. by apply default_pair_target in Hin.
Qed.

Lemma fx_default_only_into_usd_witness :
  exists w', get_fx_rate "USD" "EUR" (Sample.world [] [] [] []) = (w', Returned 1).
Proof.
  apply fx_default_only_into_usd; [discriminate | reflexivity].
Defined.

Lemma pool_status_bounds_witness :
  exists w' d,
    get_cash_pool_status Cases.empty_pool
    = (w', Returned (VDict [ ("pools", VList [VDict d]); ("total_pools", VInt 1) ]))
    /\ dict_get "efficiency" d = Some (VNum 0)
    /\ dict_get "status" d = Some (VStr "Inactive").
Proof.
  destruct (pool_status_bounds Cases.empty_pool) as (w' & entries & Hrun & _).
  exists w'. rewrite Hrun. vm_compute in Hrun.
  injection Hrun as _ <-. eexists. split; [reflexivity |].
  split; reflexivity.
Defined.

(** X21. On a snapshot without [None] balances [validate_data] returns, in
    this order, at most one log per check: missing_balance (High) with the
    number of records whose [balance_local] is absent or zero, negative_cash
    (Medium) with the number of records whose [balance_local] is negative,
    duplicate (High) with the number of excess (account, date) pairs; a check
    that counts nothing emits nothing, every log is Open and dated now, and
    one id is drawn per log. *)
Theorem validation_counts (env : Env) (bs : list CashBalance) (w : World) :
  Forall (fun b => balance_local b <> Null) bs ->
  exists logs,
    validate_data env bs w
    = (with_uuid_calls (uuid_calls w + length logs) w, Returned logs)
    /\ map log_core logs
       = (spec_log "missing_balance" "High" (length (List.filter spec_missing bs))
          ++ spec_log "negative_cash" "Medium" (length (List.filter spec_negative bs))
          ++ spec_log "duplicate" "High" (duplicate_count bs))%list
    /\ Forall (fun l => check_date l = now_iso env /\ vl_status l = "Open") logs
    /\ map vl_id logs
       = map (fun i => uuid4 env (uuid_calls w + i)) (seq 0 (length logs)).
Proof.
  intros Hok.
  enough (H : exists logs w',
             validate_data env bs w = (w', Returned logs)
             /\ w' = with_uuid_calls (uuid_calls w + length logs) w
             /\ map log_core logs
                = (spec_log "missing_balance" "High"
                     (length (List.filter spec_missing bs))
                   ++ spec_log "negative_cash" "Medium"
                        (length (List.filter spec_negative bs))
                   ++ spec_log "duplicate" "High" (duplicate_count bs))%list
             /\ Forall (fun l => check_date l = now_iso env /\ vl_status l = "Open") logs
             /\ map vl_id logs
                = map (fun i => uuid4 env (uuid_calls w + i)) (seq 0 (length logs))).
  { destruct H as (logs & w' & Hrun & -> & H). by exists logs. }
  unfold validate_data, check_missing, check_negative, check_duplicates.
  rewrite count_if_is_missing, (count_if_is_negative_ok bs Hok).
  destruct (length (List.filter spec_missing bs)) as [| m];
    destruct (length (List.filter spec_negative bs)) as [| n];
    destruct (duplicate_count bs) as [| d];
    run_step; do 2 eexists; (split; [reflexivity |]);
    (split; [destruct w; unfold with_uuid_calls; simpl; f_equal; lia |]);
    (split; [reflexivity |]);
    (split; [by repeat constructor |]);
    simpl; rewrite ?Nat.add_0_r; repeat (f_equal; try lia).
Qed.

Lemma validation_counts_witness :
  exists w' logs,
    validate_data Sample.env
      [ Sample.balance "ACC-1" "2024-05-01" "USD" (Present 0) 0 "E1" "AMER";
        Sample.balance "ACC-2" "2024-05-01" "USD" Missing 0 "E1" "AMER";
        Sample.balance "ACC-2" "2024-05-01" "USD" (Present (-7)) (-7) "E1" "AMER" ]
      (Sample.world [] [] [] [])
    = (w', Returned logs)
    /\ map log_core logs
       = [ ("missing_balance", "High", 2%nat, "Open");
           ("negative_cash", "Medium", 1%nat, "Open");
           ("duplicate", "High", 1%nat, "Open") ].
Proof.
  destruct (validation_counts Sample.env
              [ Sample.balance "ACC-1" "2024-05-01" "USD" (Present 0) 0 "E1" "AMER";
                Sample.balance "ACC-2" "2024-05-01" "USD" Missing 0 "E1" "AMER";
                Sample.balance "ACC-2" "2024-05-01" "USD" (Present (-7)) (-7) "E1" "AMER" ]
              (Sample.world [] [] [] []))
    as (logs & Hrun & Hcore & _).
  - repeat constructor; discriminate.
  - do 2 eexists. split; [exact Hrun |]. rewrite Hcore. vm_compute. reflexivity.
Defined.
